(** * mercadopublico-scraper: token lifecycle, retrying requests, crawl,
      enrichment and session health

    A shallow embedding of [token-manager.js], [enricher.js],
    [scraper-final.js] and [session-monitor.js], and of the request and
    file-name helpers of [server.js].

    - JavaScript numbers that hold times are rationals ([Q]); [Date.now()] is
      an integer number of milliseconds ([Z]).  A nullable number is an
      [option]; [None] also stands for [undefined] and for [NaN], which the
      code never tells apart from [null] where the model uses it.
    - Strings are ASCII strings.
    - A JSON property that the code reads as a number or as a text keeps
      what the code can see of a value of another type: see [Numeric] and
      [TextField].
    - [async] functions are functions in a state-and-exception monad over a
      [World]: the clock, the content of [session.json], the scraper object
      and the trace of network requests and timer sleeps.  A rejected
      promise is a thrown error.
    - The remote services are oracles: the reply to a request depends on
      the request and on how many requests of that kind were sent before.
      The clock advances by timer sleeps only. *)

From Stdlib Require Import ZArith QArith Qround Qminmax Lqa Lia Bool List String
  Ascii
  DecimalString.
Import ListNotations.

Local Open Scope string_scope.
Local Open Scope Z_scope.

Set Implicit Arguments.

(* ===================================================================== *)
(** * JavaScript values and helpers                                       *)
(* ===================================================================== *)

Module Js.

(** [!s] on a string: only the empty string is falsy. *)
Definition truthy_string (s : string) : bool :=
  match s with EmptyString => false | String _ _ => true end.

(** [!n] on a finite number: only zero is falsy. *)
Definition truthy_num (q : Q) : bool := negb (Qeq_bool q 0).

(** [a || b] on nullable numbers. *)
Definition or_num (a b : option Q) : option Q :=
  match a with
  | Some q => if truthy_num q then a else b
  | None => b
  end.

(** [a || b] on nullable objects (objects are always truthy). *)
Definition or_obj {A : Type} (a b : option A) : option A :=
  match a with Some _ => a | None => b end.

(** [s || d] on strings. *)
Definition or_string (s d : string) : string :=
  if truthy_string s then s else d.

(** [x > y], [x <= y] on rationals, as booleans. *)
Definition gtb (x y : Q) : bool := negb (Qle_bool x y).
Definition leb (x y : Q) : bool := Qle_bool x y.

(** [Math.floor]. *)
Definition floor (q : Q) : Z := Qfloor q.

(** [s.split(c)] for a one-character separator: never empty. *)
Fixpoint split (c : ascii) (s : string) : list string :=
  match s with
  | EmptyString => [EmptyString]
  | String a rest =>
      if Ascii.eqb a c then EmptyString :: split c rest
      else match split c rest with
           | [] => [String a EmptyString]
           | hd :: tl => String a hd :: tl
           end
  end.

(** A whole number in a template string. *)
Definition show_int (z : Z) : string := NilZero.string_of_int (Z.to_int z).

(** [array.find(p)]. *)
Definition find {A : Type} (p : A -> bool) (l : list A) : option A :=
  List.find p l.

(** [array.slice(i, j)]. *)
Definition slice {A : Type} (i j : nat) (l : list A) : list A :=
  firstn (j - i) (skipn i l).

End Js.

(* ===================================================================== *)
(** * Errors                                                              *)
(* ===================================================================== *)

(** The error classes of the code: plain [Error] and the two classes of
    [token-manager.js]. *)
Inductive ErrorClass : Type :=
| PlainError
| TokenExpiredErrorClass
| TokenRefreshErrorClass.

(** An error object with the properties the code bolts on. *)
Record JsError : Type := mkError {
  err_class : ErrorClass;
  err_message : string;
  err_statusCode : option Z;
  err_retryable : option bool;
  err_code : option string
}.

Definition Error (msg : string) : JsError :=
  mkError PlainError msg None None None.

(** [new TypeError(message)], thrown by the runtime: for the code an
    error like any other, it never tests for the class. *)
Definition TypeError (msg : string) : JsError :=
  mkError PlainError msg None None None.

(** [new TokenExpiredError(message)]: sets [requiresManualReauth = true]. *)
Definition TokenExpiredError (msg : string) : JsError :=
  mkError TokenExpiredErrorClass
    (Js.or_string msg "Session token expired or missing. Manual re-auth required.")
    None None None.

(** [new TokenRefreshError(message)]: sets [requiresManualReauth = true]. *)
Definition TokenRefreshError (msg : string) : JsError :=
  mkError TokenRefreshErrorClass
    (Js.or_string msg "Token refresh failed. Manual re-auth required.")
    None None None.

(** [error instanceof TokenExpiredError]. *)
Definition instanceof_TokenExpiredError (e : JsError) : bool :=
  match err_class e with TokenExpiredErrorClass => true | _ => false end.

(** [error instanceof TokenRefreshError]. *)
Definition instanceof_TokenRefreshError (e : JsError) : bool :=
  match err_class e with TokenRefreshErrorClass => true | _ => false end.

(** [error.requiresManualReauth === true]: the property both token error
    classes set in their constructor, and which the CLI maps to exit
    code 2. *)
Definition requiresManualReauth (e : JsError) : bool :=
  match err_class e with
  | TokenExpiredErrorClass | TokenRefreshErrorClass => true
  | PlainError => false
  end.

(** The spec's [AuthExpired]: a failure that requires manual
    re-authentication. *)
Definition AuthExpired (e : JsError) : Prop := requiresManualReauth e = true.

(* ===================================================================== *)
(** * The credential bundle and the remote services                       *)
(* ===================================================================== *)

(** A JSON value where the code expects a number: a finite number, or
    any other value (a string, a boolean, [null], a missing property),
    of which the code sees only whether it is truthy and what
    [Number(...)] makes of it, [None] for [NaN].  Number literals beyond
    the range of the finite numbers are left out. *)
Inductive Numeric : Type :=
| Finite (q : Q)
| NotFinite (truthy : bool) (number : option Q).

(** A missing property. *)
Definition absent : Numeric := NotFinite false None.

(** [Number.isFinite(v) ? v : null]. *)
Definition finite_of (v : Numeric) : option Q :=
  match v with Finite q => Some q | NotFinite _ _ => None end.

(** [!!v]. *)
Definition truthy_of (v : Numeric) : bool :=
  match v with
  | Finite q => negb (Qeq_bool q 0)
  | NotFinite truthy _ => truthy
  end.

(** [Number(v)]. *)
Definition Number_of (v : Numeric) : option Q :=
  match v with Finite q => Some q | NotFinite _ number => number end.

(** A cookie record of [session.json]. *)
Record Cookie : Type := mkCookie {
  name : string;
  value : string;
  domain : string;
  path : string;
  httpOnly : bool;
  secure : bool;
  sameSite : string;
  expires_value : Numeric
}.

(** The [expires] attribute as [token-manager.js] reads it: [None] when
    it is absent or not a finite number. *)
Definition expires (c : Cookie) : option Q := finite_of (expires_value c).

Record Session : Type := mkSession { cookies : list Cookie }.

(** What reading and parsing [session.json] gives: the file cannot be
    read, [JSON.parse] throws, the file holds a value with properties
    (those other than [cookies] are left out; [cookies] is the empty list
    when the property is not an array), or the file holds [null]. *)
Inductive SessionFile : Type :=
| Unreadable (why : string)
| Malformed (why : string)
| HoldsNull
| Stored (s : Session).

(** The parsed body of a token-endpoint reply.  An absent field is
    [None]; [expires_in] and [refresh_expires_in] hold what [Number(...)]
    makes of the field, [None] when that is not finite. *)
Record TokenPayload : Type := mkTokenPayload {
  access_token : option string;
  refresh_token : option string;
  expires_in : option Q;
  refresh_expires_in : option Q
}.

(** What [JSON.parse] makes of a body. [ParsedNull] is a body that parses
    to a value with no properties ([null]). *)
Inductive Parse (A : Type) : Type :=
| SyntaxError (why : string)
| ParsedNull
| Parsed (a : A).
Arguments SyntaxError {A} why.
Arguments ParsedNull {A}.
Arguments Parsed {A} a.

(** The outcome of one HTTP request. *)
Inductive HttpReply (A : Type) : Type :=
| Replied (status : Z) (data : string) (json : Parse A)
| TimedOut
| NetError (code : string) (why : string).
Arguments Replied {A} status data json.
Arguments TimedOut {A}.
Arguments NetError {A} code why.

(** A JSON property where the code expects a text: a string, a missing
    property ([undefined] or [null]), or a value of another type. *)
Inductive TextField : Type :=
| TextOf (s : string)
| Missing
| NotText.

(** A listing of the search endpoint.  [misOfertas] and [numeroOfertas]
    hold what [Number(...)] makes of the field, [None] when that is [NaN]
    (a missing field). *)
Record Opportunity : Type := mkOpportunity {
  codigo : string;
  nombre : TextField;
  organismo : string;
  moneda : string;
  montoDisponible : option Q;
  fechaCierre_field : TextField;
  estado : string;
  misOfertas : option Q;
  numeroOfertas : option Q
}.

(** [fechaCierre] as [enricher.js] reads it: [None] when the field is not
    a string. *)
Definition fechaCierre (o : Opportunity) : option string :=
  match fechaCierre_field o with TextOf s => Some s | _ => None end.

(** [response.payload].  [resultados] is [None] when the field is missing
    or falsy (an empty array is truthy), and an array of objects
    otherwise; [pageCount] is [None] when the field is missing, which
    makes [page >= pageCount] false. *)
Record SearchPayload : Type := mkSearchPayload {
  resultados : option (list Opportunity);
  pageCount : option Z
}.

(** The parsed body of a search reply, a JSON object; [payload] is [None]
    when the field is missing or falsy. *)
Record SearchResponse : Type := mkSearchResponse {
  payload : option SearchPayload
}.

Record Unidad : Type := mkUnidad {
  unidad_codigo : option string;
  unidad_nombre : option string
}.

Record Producto : Type := mkProducto {
  codigoProducto : option Q;
  cantidad : option Q;
  producto_descripcion : option string;
  producto_nombre : option string;
  unidad : option Unidad
}.

Record Institucion : Type := mkInstitucion {
  empresa : option string;
  organizacion : option string;
  rut : option string
}.

(** [payload.detalleSolicitud] of a detail reply. *)
Record Detail : Type := mkDetail {
  descripcion : option string;
  detail_moneda : option string;
  montoMoneda : option Q;
  montoTotalEstimado : option Q;
  plazoEntrega : option Q;
  direccion : option string;
  productos : option (list Producto);
  institucion : option Institucion
}.

(** The parsed body of a detail reply: [response?.payload?.detalleSolicitud],
    [None] when a link of the chain is missing. *)
Record DetailResponse : Type := mkDetailResponse {
  detalleSolicitud : option Detail
}.

(** The remote services.  The [nat] is the number of requests of the same
    kind (for the detail endpoint: for the same listing) sent before. *)
Record Remote : Type := mkRemote {
  token_endpoint : string -> nat -> HttpReply TokenPayload;
  search_api : Z -> nat -> HttpReply SearchResponse;
  detail_api : string -> nat -> HttpReply DetailResponse
}.

(** The result files of a run of [scrape]. *)
Inductive ResultFile : Type := DataFile | SummaryFile | EnrichedFile.

(** The parts of the JavaScript runtime and of the machine the code
    relies on. *)
Class Runtime : Type := mkRuntime {
  (** [JSON.parse(Buffer.from(segment, 'base64url').toString('utf8'))?.exp];
      [absent] when the decoding or the parsing throws. *)
  jwt_segment_claim : string -> Numeric;
  (** [new Date(text).getTime()], [None] for an invalid date. *)
  Date_parse : string -> option Z;
  (** What [fs.writeFileSync] throws for a result file written at a
      time of the clock; [None] when the write succeeds. *)
  writeFileSync_error : ResultFile -> Z -> option string
}.

(** The [exp] of a token segment as [token-manager.js] reads it: [None]
    unless it is a finite number. *)
Definition jwt_segment_exp {RT : Runtime} (segment : string) : option Q :=
  finite_of (jwt_segment_claim segment).

(* ===================================================================== *)
(** * The world and the monad of [async] code                             *)
(* ===================================================================== *)

Inductive Event : Type :=
| EvRefresh (refreshToken : string)
| EvSearch (bearer : option string) (page : Z)
| EvDetail (bearer : string) (code : string)
| EvSleep (ms : Z).

(** The fields of a [CompraAgilScraper] object. *)
Record CompraAgilScraper : Type := mkScraper {
  bearerToken : option string;
  requestTimeoutMs : Z;
  maxAttempts : Z
}.

Record World : Type := mkWorld {
  clock_ms : Z;
  session_json : SessionFile;
  this : CompraAgilScraper;
  trace : list Event
}.

Inductive Outcome (A : Type) : Type :=
| Returned (a : A)
| Thrown (e : JsError).
Arguments Returned {A} a.
Arguments Thrown {A} e.

Definition M (A : Type) : Type := World -> Outcome A * World.

Definition ret {A : Type} (a : A) : M A := fun w => (Returned a, w).

Definition bind {A B : Type} (c : M A) (k : A -> M B) : M B :=
  fun w =>
    match c w with
    | (Returned a, w') => k a w'
    | (Thrown e, w') => (Thrown e, w')
    end.

Definition throw {A : Type} (e : JsError) : M A := fun w => (Thrown e, w).

(** [try { c } catch (error) { h error }]. *)
Definition try_catch {A : Type} (c : M A) (h : JsError -> M A) : M A :=
  fun w =>
    match c w with
    | (Returned a, w') => (Returned a, w')
    | (Thrown e, w') => h e w'
    end.

Declare Scope js_scope.
Delimit Scope js_scope with js.
Notation "x <- c ;; k" := (bind c (fun x => k))
  (at level 100, c at next level, right associativity) : js_scope.
Notation "c ;;; k" := (bind c (fun _ => k))
  (at level 100, right associativity) : js_scope.
Local Open Scope js_scope.

(** [Date.now()]. *)
Definition Date_now : M Z := fun w => (Returned (clock_ms w), w).

Definition log (ev : Event) (w : World) : World :=
  mkWorld (clock_ms w) (session_json w) (this w) (trace w ++ [ev]).

(** [await new Promise(resolve => setTimeout(resolve, ms))]. *)
Definition sleep (ms : Z) : M unit :=
  fun w => (Returned tt,
            mkWorld (clock_ms w + ms) (session_json w) (this w)
                    (trace w ++ [EvSleep ms])).

(** [fs.writeFileSync(SESSION_PATH, JSON.stringify(session))]. *)
Definition write_session (s : Session) : M unit :=
  fun w => (Returned tt, mkWorld (clock_ms w) (Stored s) (this w) (trace w)).

Definition is_refresh (ev : Event) : bool :=
  match ev with EvRefresh _ => true | _ => false end.

Definition is_search (ev : Event) : bool :=
  match ev with EvSearch _ _ => true | _ => false end.

Definition is_detail_of (c : string) (ev : Event) : bool :=
  match ev with EvDetail _ c' => String.eqb c c' | _ => false end.

Definition is_sleep (ev : Event) : bool :=
  match ev with EvSleep _ => true | _ => false end.

Definition count (p : Event -> bool) (tr : list Event) : nat :=
  List.length (List.filter p tr).

(** The pages asked of the search endpoint, in order, one per request. *)
Definition searched_pages (tr : list Event) : list Z :=
  flat_map (fun ev => match ev with EvSearch _ p => [p] | _ => [] end) tr.

(** The delays slept, in order. *)
Definition sleeps (tr : list Event) : list Z :=
  flat_map (fun ev => match ev with EvSleep ms => [ms] | _ => [] end) tr.

(* ===================================================================== *)
(** * token-manager.js                                                    *)
(* ===================================================================== *)

Module TokenManager.
Section WithRuntime.

Context {RT : Runtime} (remote : Remote).

Definition ACCESS_MIN_VALIDITY_SECONDS : Q := 300.

(** [decodeJwtExp(token)]: the [exp] of the second dot-separated
    segment; [null] for a missing or empty token, fewer than two
    segments, or anything the decoding throws on. *)
Definition decodeJwtExp (token : option string) : option Q :=
  match token with
  | None => None
  | Some t =>
      if Js.truthy_string t then
        match Js.split "." t with
        | _ :: segment :: _ => jwt_segment_exp segment
        | _ => None
        end
      else None
  end.

(** [normalizeEpochSeconds(value)]. *)
Definition normalizeEpochSeconds (v : option Q) : option Q :=
  match v with
  | None => None
  | Some q =>
      let n := Js.floor q in
      if 0 <? n then Some (inject_Z n) else None
  end.

(** [secondsRemaining(expEpochSeconds)], with [Date.now()] passed in. *)
Definition secondsRemaining (expEpochSeconds : option Q) (now_ms : Z)
  : option Q :=
  match expEpochSeconds with
  | None => None
  | Some e =>
      if Js.truthy_num e then Some (e - inject_Z (now_ms / 1000))%Q
      else None
  end.

(** [readSessionFileOrThrow()]. *)
Definition readSessionFileOrThrow : M Session :=
  fun w =>
    match session_json w with
    | Unreadable why =>
        (Thrown (TokenExpiredError ("Unable to read session.json: " ++ why)), w)
    | Malformed why =>
        (Thrown (TokenExpiredError ("Invalid session.json format: " ++ why)), w)
    | Stored s => (Returned s, w)
    | HoldsNull =>
        (Thrown (TokenExpiredError
                   ("Invalid session.json format: "
                    ++ "Cannot read properties of null (reading 'cookies')")),
         w)
    end.

(** [readSessionFileSafe()]: the session and its [_error] property. *)
Definition readSessionFileSafe (w : World) : Session * option string :=
  match readSessionFileOrThrow w with
  | (Returned s, _) => (s, None)
  | (Thrown e, _) => (mkSession [], Some (err_message e))
  end.

(** [findCookie(cookies, names)]. *)
Fixpoint findCookie (cookies : list Cookie) (names : list string)
  : option Cookie :=
  match names with
  | [] => None
  | n :: rest =>
      match Js.find (fun cookie => String.eqb (name cookie) n) cookies with
      | Some found => Some found
      | None => findCookie cookies rest
      end
  end.

Record TokenState : Type := mkTokenState {
  cookieName : option string;
  present : bool;
  expiresAtEpochSeconds : option Q;
  ts_secondsRemaining : option Q;
  isExpired : option bool;
  isExpiringSoon : option bool
}.

(** [buildTokenState(cookieName, cookieValue, cookieExpires)]; the
    formatted [expiresAtISO] is left out. *)
Definition buildTokenState (cName cookieValue : option string)
    (cookieExpires : option Q) (now_ms : Z) : TokenState :=
  let jwtExp := decodeJwtExp cookieValue in
  let cookieExp := normalizeEpochSeconds cookieExpires in
  let expEpochSeconds := Js.or_num jwtExp cookieExp in
  let remaining := secondsRemaining expEpochSeconds now_ms in
  {| cookieName := cName;
     present := match cookieValue with
                | Some v => Js.truthy_string v
                | None => false
                end;
     expiresAtEpochSeconds := expEpochSeconds;
     ts_secondsRemaining := remaining;
     isExpired := option_map (fun r => Js.leb r 0) remaining;
     isExpiringSoon :=
       option_map (fun r => Js.leb r ACCESS_MIN_VALIDITY_SECONDS) remaining |}.

Record Inspection : Type := mkInspection {
  minAccessValiditySeconds : Q;
  accessToken : TokenState;
  refreshToken : TokenState;
  error : option string
}.

(** [inspectToken()]; [sessionPath] and [inspectedAt] are left out. *)
Definition inspectToken (w : World) : Inspection :=
  let '(session, err) := readSessionFileSafe w in
  let cs := cookies session in
  let accessCookie :=
    Js.or_obj (findCookie cs ["access_token_ccr"])
              (findCookie cs ["access_token"]) in
  let refreshCookie := findCookie cs ["refresh_token"] in
  {| minAccessValiditySeconds := ACCESS_MIN_VALIDITY_SECONDS;
     accessToken :=
       buildTokenState (option_map name accessCookie)
                       (option_map value accessCookie)
                       (match accessCookie with
                        | Some c => expires c | None => None end)
                       (clock_ms w);
     refreshToken :=
       buildTokenState (option_map name refreshCookie)
                       (option_map value refreshCookie)
                       (match refreshCookie with
                        | Some c => expires c | None => None end)
                       (clock_ms w);
     error := err |}.

(** [existing.value = value; if (expires) existing.expires = expires]
    on the first cookie of that name. *)
Fixpoint update_existing (cs : list Cookie) (n v : string)
    (exp : option Q) : list Cookie :=
  match cs with
  | [] => []
  | c :: rest =>
      if String.eqb (name c) n then
        mkCookie (name c) v (domain c) (path c) (httpOnly c) (secure c)
                 (sameSite c)
                 (match exp with
                  | Some e => Finite e
                  | None => expires_value c
                  end)
        :: rest
      else c :: update_existing rest n v exp
  end.

(** [upsertCookie(cookies, name, value, expEpochSeconds, template)]:
    the array after the call. *)
Definition upsertCookie (cs : list Cookie) (n v : string)
    (expEpochSeconds : option Q) (template : option Cookie) : list Cookie :=
  let exp := normalizeEpochSeconds expEpochSeconds in
  match Js.find (fun cookie => String.eqb (name cookie) n) cs with
  | Some _ => update_existing cs n v exp
  | None =>
      let synthetic :=
        {| name := n;
           value := v;
           domain := match template with
                     | Some t => Js.or_string (domain t) "heimdall.mercadopublico.cl"
                     | None => "heimdall.mercadopublico.cl"
                     end;
           path := match template with
                   | Some t => Js.or_string (path t) "/"
                   | None => "/"
                   end;
           httpOnly := match template with
                       | Some t => httpOnly t | None => true end;
           secure := match template with
                     | Some t => secure t | None => true end;
           sameSite := match template with
                       | Some t => Js.or_string (sameSite t) "Lax"
                       | None => "Lax"
                       end;
           expires_value := match exp with
                            | Some e => Finite e
                            | None => Finite (inject_Z (-1))
                            end |} in
      cs ++ [synthetic]
  end.

(** How the callbacks of [requestTokenRefresh] settle its promise for a
    reply of the token endpoint: every failure is a [TokenRefreshError]. *)
Definition refresh_outcome (reply : HttpReply TokenPayload)
  : Outcome TokenPayload :=
  match reply with
  | Replied status body json =>
      if negb (status =? 200) then
        Thrown (TokenRefreshError
                  ("Token endpoint returned HTTP " ++ Js.show_int status
                   ++ ": " ++ substring 0 300 body))
      else
        match json with
        | SyntaxError why =>
            Thrown (TokenRefreshError
                      ("Failed to parse token refresh response: " ++ why))
        | ParsedNull =>
            Thrown (TokenRefreshError
                      "Token refresh response did not include access_token.")
        | Parsed p =>
            match access_token p with
            | Some t =>
                if Js.truthy_string t then Returned p
                else
                  Thrown (TokenRefreshError
                            "Token refresh response did not include access_token.")
            | None =>
                Thrown (TokenRefreshError
                          "Token refresh response did not include access_token.")
            end
        end
  | TimedOut => Thrown (TokenRefreshError "Token refresh request timed out.")
  | NetError _ why =>
      Thrown (TokenRefreshError ("Token refresh request failed: " ++ why))
  end.

(** [requestTokenRefresh(refreshToken)]: one POST to the token endpoint. *)
Definition requestTokenRefresh (refreshTok : string) : M TokenPayload :=
  fun w =>
    (refresh_outcome
       (token_endpoint remote refreshTok (count is_refresh (trace w))),
     log (EvRefresh refreshTok) w).

(** [refreshed.refresh_token || fallbackRefreshCookie.value]. *)
Definition rotated_refresh_token (refreshed : TokenPayload)
    (fallbackRefreshCookie : Cookie) : string :=
  match refresh_token refreshed with
  | Some t => Js.or_string t (value fallbackRefreshCookie)
  | None => value fallbackRefreshCookie
  end.

(** [persistRefreshedTokens(session, refreshed, fallbackRefreshCookie)].
    The templates are read before any cookie is updated, and an update
    never touches the fields a template supplies. *)
Definition persistRefreshedTokens (session : Session)
    (refreshed : TokenPayload) (fallbackRefreshCookie : Cookie) : M unit :=
  let cs := cookies session in
  now <- Date_now ;;
  let nowEpochSeconds := inject_Z (now / 1000) in
  let accessTok := match access_token refreshed with
                   | Some t => t | None => EmptyString end in
  let refreshTok := rotated_refresh_token refreshed fallbackRefreshCookie in
  let accessExp :=
    Js.or_num (decodeJwtExp (Some accessTok))
              (match expires_in refreshed with
               | Some d => Some (nowEpochSeconds + d)%Q
               | None => None
               end) in
  let refreshExp :=
    Js.or_num (decodeJwtExp (Some refreshTok))
              (match refresh_expires_in refreshed with
               | Some d => Some (nowEpochSeconds + d)%Q
               | None => normalizeEpochSeconds (expires fallbackRefreshCookie)
               end) in
  let accessTemplate :=
    Js.or_obj (findCookie cs ["access_token_ccr"])
      (Js.or_obj (findCookie cs ["access_token"])
                 (findCookie cs ["KEYCLOAK_IDENTITY"])) in
  let cs1 := upsertCookie cs "access_token_ccr" accessTok accessExp accessTemplate in
  let cs2 := upsertCookie cs1 "access_token" accessTok accessExp accessTemplate in
  let cs3 := upsertCookie cs2 "refresh_token" refreshTok refreshExp
                          (Some fallbackRefreshCookie) in
  write_session (mkSession cs3).

(** [getValidToken()]. *)
Definition getValidToken : M string :=
  session <- readSessionFileOrThrow ;;
  let cs := cookies session in
  let accessCookie :=
    Js.or_obj (findCookie cs ["access_token_ccr"])
              (findCookie cs ["access_token"]) in
  let refreshCookie := findCookie cs ["refresh_token"] in
  let accessTok := option_map value accessCookie in
  let accessExp :=
    Js.or_num (decodeJwtExp accessTok)
              (normalizeEpochSeconds
                 (match accessCookie with
                  | Some c => expires c | None => None end)) in
  now <- Date_now ;;
  let remaining := secondsRemaining accessExp now in
  let usable :=
    match accessTok, remaining with
    | Some t, Some r =>
        Js.truthy_string t && Js.gtb r ACCESS_MIN_VALIDITY_SECONDS
    | _, _ => false
    end in
  if usable then ret (match accessTok with Some t => t | None => EmptyString end)
  else
    match refreshCookie with
    | None =>
        throw (TokenExpiredError
                 "No refresh_token found in session.json. Manual re-auth required.")
    | Some rc =>
        if negb (Js.truthy_string (value rc)) then
          throw (TokenExpiredError
                   "No refresh_token found in session.json. Manual re-auth required.")
        else
          refreshed <-
            try_catch (requestTokenRefresh (value rc))
              (fun error =>
                 if instanceof_TokenRefreshError error then throw error
                 else throw (TokenRefreshError (err_message error))) ;;
          (persistRefreshedTokens session refreshed rc ;;;
           ret (match access_token refreshed with
                | Some t => t | None => EmptyString end))
    end.

End WithRuntime.
End TokenManager.

(* ===================================================================== *)
(** * Loops                                                               *)
(* ===================================================================== *)

(** The values [i] takes in [for (let i = lo; i <= hi; i += 1)]. *)
Definition for_range (lo hi : Z) : list Z :=
  List.map (fun k => lo + Z.of_nat k) (seq 0 (Z.to_nat (hi - lo + 1))).

(** The values [start] takes in
    [for (let start = 0; start < len; start += step)], for [step > 0]. *)
Definition for_steps (len step : nat) : list nat :=
  List.map (fun k => (k * step)%nat) (seq 0 ((len + step - 1) / step)).

(** One entry of [Promise.allSettled]. *)
Inductive Settled (A : Type) : Type :=
| Fulfilled (v : A)
| Rejected (reason : JsError).
Arguments Fulfilled {A} v.
Arguments Rejected {A} reason.

(** [await Promise.allSettled(tasks)]: never rejects; the entries are in
    the order of [tasks].  The tasks of a window are in flight together;
    the model runs them one after the other in that order, so the trace
    lists their requests task by task and the clock adds up their
    sleeps. *)
Fixpoint allSettled {A : Type} (tasks : list (M A)) : M (list (Settled A)) :=
  match tasks with
  | [] => ret []
  | task :: rest =>
      entry <- try_catch (v <- task ;; ret (Fulfilled v))
                         (fun reason => ret (Rejected reason)) ;;
      (entries <- allSettled rest ;;
       ret (entry :: entries))
  end.

(* ===================================================================== *)
(** * enricher.js                                                         *)
(* ===================================================================== *)

Module Enricher.
Section WithRuntime.

Context {RT : Runtime} (remote : Remote).

Definition is_digit (c : ascii) : bool :=
  let n := nat_of_ascii c in (48 <=? n)%nat && (n <=? 57)%nat.

(** [\s] on ASCII. *)
Definition is_space (c : ascii) : bool :=
  let n := nat_of_ascii c in
  ((9 <=? n)%nat && (n <=? 13)%nat) || (n =? 32)%nat.

(** [\d{n}] at the head of [s]: the digits and the rest. *)
Fixpoint digits (n : nat) (s : string) : option (string * string) :=
  match n with
  | O => Some (EmptyString, s)
  | S n' =>
      match s with
      | EmptyString => None
      | String c rest =>
          if is_digit c then
            match digits n' rest with
            | Some (ds, tl) => Some (String c ds, tl)
            | None => None
            end
          else None
      end
  end.

(** A literal character at the head of [s]. *)
Definition literal (c : ascii) (s : string) : option string :=
  match s with
  | String a rest => if Ascii.eqb a c then Some rest else None
  | EmptyString => None
  end.

Fixpoint skip_spaces (s : string) : string :=
  match s with
  | String c rest => if is_space c then skip_spaces rest else s
  | EmptyString => s
  end.

(** [\s+] at the head of [s]. *)
Definition spaces1 (s : string) : option string :=
  match s with
  | String c rest => if is_space c then Some (skip_spaces rest) else None
  | EmptyString => None
  end.

Record Ddmmyyyy : Type := mkDdmmyyyy {
  dd : string; mm : string; yyyy : string;
  hh : string; min : string; ss : string
}.

(** [(?::(\d{2}))?$] *)
Definition match_seconds (s : string) : option string :=
  match s with
  | EmptyString => Some "00"
  | _ =>
      match literal ":" s with
      | Some s1 =>
          match digits 2 s1 with
          | Some (sec, EmptyString) => Some sec
          | _ => None
          end
      | None => None
      end
  end.

(** [(?:\s+(\d{2}):(\d{2})(?::(\d{2}))?)?$] *)
Definition match_time (s : string) : option (string * string * string) :=
  match s with
  | EmptyString => Some ("00", "00", "00")
  | _ =>
      match spaces1 s with
      | Some s1 =>
          match digits 2 s1 with
          | Some (h, s2) =>
              match literal ":" s2 with
              | Some s3 =>
                  match digits 2 s3 with
                  | Some (m, s4) =>
                      match match_seconds s4 with
                      | Some sec => Some (h, m, sec)
                      | None => None
                      end
                  | None => None
                  end
              | None => None
              end
          | None => None
          end
      | None => None
      end
  end.

(** [value.match(/^(\d{2})\/(\d{2})\/(\d{4})(?:\s+(\d{2}):(\d{2})(?::(\d{2}))?)?$/)]
    with the defaults ['00'] of the destructuring. *)
Definition match_ddmmyyyy (s : string) : option Ddmmyyyy :=
  match digits 2 s with
  | Some (d, s1) =>
      match literal "/" s1 with
      | Some s2 =>
          match digits 2 s2 with
          | Some (m, s3) =>
              match literal "/" s3 with
              | Some s4 =>
                  match digits 4 s4 with
                  | Some (y, s5) =>
                      match match_time s5 with
                      | Some (h, mi, sec) => Some (mkDdmmyyyy d m y h mi sec)
                      | None => None
                      end
                  | None => None
                  end
              | None => None
              end
          | None => None
          end
      | None => None
      end
  | None => None
  end.

(** [parseClosingDate(value)]: the time in epoch milliseconds. *)
Definition parseClosingDate (v : option string) : option Z :=
  match v with
  | None => None
  | Some s =>
      if negb (Js.truthy_string s) then None
      else
        match Date_parse s with
        | Some direct => Some direct
        | None =>
            match match_ddmmyyyy s with
            | None => None
            | Some m =>
                let normalized :=
                  yyyy m ++ "-" ++ mm m ++ "-" ++ dd m ++ "T"
                  ++ hh m ++ ":" ++ min m ++ ":" ++ ss m in
                Date_parse normalized
            end
        end
  end.

(** [Number(x) === 0]. *)
Definition Number_is_zero (x : option Q) : bool :=
  match x with Some q => Qeq_bool q 0 | None => false end.

(** [shouldEnrich(opportunity, nowMs)]. *)
Definition shouldEnrich (opportunity : Opportunity) (nowMs : Z) : bool :=
  let hasNoOffers :=
    Number_is_zero (misOfertas opportunity)
    && Number_is_zero (numeroOfertas opportunity) in
  if negb hasNoOffers then false
  else
    match parseClosingDate (fechaCierre opportunity) with
    | None => false
    | Some closing =>
        let deltaMs := closing - nowMs in
        (0 <=? deltaMs) && (deltaMs <=? 72 * 60 * 60 * 1000)
    end.

Definition delay (ms : Z) : M unit := sleep ms.

(** [res.statusCode >= 500 && res.statusCode < 600]. *)
Definition is_5xx (status : Z) : bool := (500 <=? status) && (status <? 600).

(** How the callbacks of [requestDetail] settle its promise for a reply
    of the detail endpoint; the value is the parsed body, [None] for a
    body that parses to [null]. *)
Definition detail_outcome (code : string) (timeoutMs : Z)
    (reply : HttpReply DetailResponse) : Outcome (option DetailResponse) :=
  match reply with
  | Replied status data json =>
      if status =? 200 then
        match json with
        | Parsed r => Returned (Some r)
        | ParsedNull => Returned None
        | SyntaxError why =>
            Thrown (mkError PlainError ("Failed to parse detail JSON: " ++ why)
                      None (Some false) None)
        end
      else if status =? 401 then
        Thrown (TokenExpiredError
                  ("HTTP 401 for detail " ++ code
                   ++ ". Session refresh failed or expired."))
      else
        Thrown (mkError PlainError
                  ("HTTP " ++ Js.show_int status ++ " for detail " ++ code
                   ++ ": " ++ substring 0 200 data)
                  (Some status) (Some (is_5xx status)) None)
  | TimedOut =>
      Thrown (mkError PlainError
                ("Request timed out after "
                 ++ Js.show_int (timeoutMs / 1000) ++ "s")
                None (Some true) (Some "ETIMEDOUT"))
  | NetError c why =>
      Thrown (mkError PlainError why None (Some true) (Some c))
  end.

(** [requestDetail(codigo, bearerToken, timeoutMs)]: one GET. *)
Definition requestDetail (code bearer : string) (timeoutMs : Z)
  : M (option DetailResponse) :=
  fun w =>
    (detail_outcome code timeoutMs
       (detail_api remote code (count (is_detail_of code) (trace w))),
     log (EvDetail bearer code) w).

(** [error.statusCode === n]. *)
Definition statusCode_is (e : JsError) (n : Z) : bool :=
  match err_statusCode e with Some s => s =? n | None => false end.

(** [error.retryable === true ||
     (error.statusCode >= 500 && error.statusCode < 600)]. *)
Definition isRetryable (e : JsError) : bool :=
  match err_retryable e with Some true => true | _ => false end
  || match err_statusCode e with Some s => is_5xx s | None => false end.

(** The body of the loop of [requestDetailWithRetry], for the values
    [attempts] the loop variable still has to take. *)
Fixpoint detail_attempts (code bearer : string) (timeoutMs maxRetries : Z)
    (attempts : list Z) : M (option DetailResponse) :=
  match attempts with
  | [] => throw (Error ("Failed to enrich " ++ code ++ " after retries."))
  | attempt :: later =>
      try_catch (requestDetail code bearer timeoutMs)
        (fun error =>
           if instanceof_TokenExpiredError error then throw error
           else if statusCode_is error 400 || statusCode_is error 401
           then throw error
           else if negb (isRetryable error) || (attempt =? maxRetries)
           then throw error
           else
             let delaySeconds := 2 ^ attempt in
             (delay (delaySeconds * 1000) ;;;
              detail_attempts code bearer timeoutMs maxRetries later))
  end.

(** [requestDetailWithRetry(codigo, bearerToken, timeoutMs, maxRetries)]. *)
Definition requestDetailWithRetry (code bearer : string)
    (timeoutMs maxRetries : Z) : M (option DetailResponse) :=
  detail_attempts code bearer timeoutMs maxRetries (for_range 0 maxRetries).

Record ProductoOut : Type := mkProductoOut {
  out_codigoProducto : option Q;
  out_cantidad : option Q;
  out_descripcion : option string;
  out_nombre : option string;
  out_unidad_codigo : option string;
  out_unidad_nombre : option string
}.

Record Detalle : Type := mkDetalle {
  d_descripcion : option string;
  d_moneda : option string;
  d_montoMoneda : option Q;
  d_montoTotalEstimado : option Q;
  d_plazoEntrega : option Q;
  d_direccion : option string;
  d_productos : list ProductoOut;
  d_empresa : option string;
  d_organizacion : option string;
  d_rut : option string
}.

Record Enriched : Type := mkEnriched {
  e_codigo : string;
  e_nombre : TextField;
  e_organismo : string;
  e_montoDisponible : option Q;
  e_fechaCierre : TextField;
  detalle : Detalle
}.

(** [mapDetail(opportunity, detail)]. *)
Definition mapDetail (opportunity : Opportunity) (detail : Detail) : Enriched :=
  let prods :=
    match productos detail with
    | Some ps =>
        List.map (fun producto =>
               mkProductoOut (codigoProducto producto) (cantidad producto)
                 (producto_descripcion producto) (producto_nombre producto)
                 (match unidad producto with
                  | Some u => unidad_codigo u | None => None end)
                 (match unidad producto with
                  | Some u => unidad_nombre u | None => None end)) ps
    | None => []
    end in
  let inst (f : Institucion -> option string) :=
    match institucion detail with Some i => f i | None => None end in
  mkEnriched (codigo opportunity) (nombre opportunity)
    (organismo opportunity) (montoDisponible opportunity)
    (fechaCierre_field opportunity)
    (mkDetalle (descripcion detail) (detail_moneda detail)
       (montoMoneda detail) (montoTotalEstimado detail)
       (plazoEntrega detail) (direccion detail) prods
       (inst empresa) (inst organizacion) (inst rut)).

(** [enrichSingle(opportunity, index, total, bearerToken, timeoutMs,
    maxRetries)]: every error of the [try] block is caught and the item
    becomes [null]. *)
Definition enrichSingle (opportunity : Opportunity) (bearer : string)
    (timeoutMs maxRetries : Z) : M (option Enriched) :=
  let code := codigo opportunity in
  try_catch
    (response <- requestDetailWithRetry code bearer timeoutMs maxRetries ;;
     let detail :=
       match response with
       | Some r => detalleSolicitud r
       | None => None
       end in
     match detail with
     | None => throw (Error ("Missing payload.detalleSolicitud for " ++ code))
     | Some d => ret (Some (mapDetail opportunity d))
     end)
    (fun _ => ret None).

(** The options of [enrichOpportunities]; [None] is an option that is
    absent or not an integer. *)
Record Options : Type := mkOptions {
  opt_concurrency : option Z;
  opt_timeoutMs : option Z;
  opt_maxRetries : option Z
}.

Definition no_options : Options := mkOptions None None None.

(** The entries of one window that are pushed on [enriched]. *)
Definition fulfilled_values {A : Type} (settled : list (Settled (option A)))
  : list A :=
  flat_map (fun entry =>
              match entry with
              | Fulfilled (Some v) => [v]
              | _ => []
              end) settled.

(** The windows of [enrichOpportunities], for the values [starts] the
    loop variable still has to take. *)
Fixpoint enrich_windows (filtered : list Opportunity) (concurrency : nat)
    (bearer : string) (timeoutMs maxRetries : Z)
    (starts : list nat) (enriched : list Enriched) : M (list Enriched) :=
  match starts with
  | [] => ret enriched
  | start :: later =>
      let batch := Js.slice start (start + concurrency) filtered in
      let batchPromises :=
        List.map (fun opportunity =>
                    enrichSingle opportunity bearer timeoutMs maxRetries)
                 batch in
      settled <- allSettled batchPromises ;;
      enrich_windows filtered concurrency bearer timeoutMs maxRetries later
                     (enriched ++ fulfilled_values settled)
  end.

(** [enrichOpportunities(opportunities, options)]. *)
Definition enrichOpportunities (opportunities : list Opportunity)
    (options : Options) : M (list Enriched) :=
  match opportunities with
  | [] => ret []
  | _ =>
      let concurrency :=
        match opt_concurrency options with
        | Some c => if 0 <? c then c else 5
        | None => 5
        end in
      let timeoutMs :=
        match opt_timeoutMs options with
        | Some t => if 0 <? t then t else 15000
        | None => 15000
        end in
      let maxRetries :=
        match opt_maxRetries options with
        | Some r => if 0 <=? r then r else 3
        | None => 3
        end in
      nowMs <- Date_now ;;
      let filtered :=
        List.filter (fun opp => shouldEnrich opp nowMs) opportunities in
      match filtered with
      | [] => ret []
      | _ =>
          bearer <- TokenManager.getValidToken remote ;;
          enrich_windows filtered (Z.to_nat concurrency) bearer timeoutMs
            maxRetries
            (for_steps (List.length filtered) (Z.to_nat concurrency)) []
      end
  end.

End WithRuntime.
End Enricher.

(* ===================================================================== *)
(** * scraper-final.js                                                    *)
(* ===================================================================== *)

Module Scraper.
Section WithRuntime.

Context {RT : Runtime} (remote : Remote).

(** [new CompraAgilScraper()]. *)
Definition new_CompraAgilScraper : CompraAgilScraper :=
  {| bearerToken := None; requestTimeoutMs := 15000; maxAttempts := 3 |}.

Definition set_bearerToken (tok : string) : M unit :=
  fun w =>
    (Returned tt,
     mkWorld (clock_ms w) (session_json w)
             (mkScraper (Some tok) (requestTimeoutMs (this w))
                        (maxAttempts (this w)))
             (trace w)).

Definition get_this : M CompraAgilScraper := fun w => (Returned (this w), w).

(** [ensureToken()]. *)
Definition ensureToken : M string :=
  tok <- TokenManager.getValidToken remote ;;
  (set_bearerToken tok ;;;
   ret tok).

(** How the callbacks of [requestOpportunities] settle its promise for
    a reply of the search endpoint; the value is the parsed body, [None]
    for a body that parses to [null].  (The accent of the 401 message is
    dropped.) *)
Definition search_outcome (reply : HttpReply SearchResponse)
  : Outcome (option SearchResponse) :=
  match reply with
  | Replied status data json =>
      if status =? 200 then
        match json with
        | Parsed r => Returned (Some r)
        | ParsedNull => Returned None
        | SyntaxError why =>
            Thrown (mkError PlainError ("Failed to parse JSON: " ++ why)
                      None (Some false) None)
        end
      else if status =? 401 then
        Thrown (TokenExpiredError
                  "HTTP 401 from Compra Agil API. Session refresh failed or expired.")
      else
        Thrown (mkError PlainError
                  ("HTTP " ++ Js.show_int status ++ ": " ++ substring 0 200 data)
                  (Some status) (Some (Enricher.is_5xx status)) None)
  | TimedOut =>
      Thrown (mkError PlainError "Request timed out after 15s"
                None (Some true) (Some "ETIMEDOUT"))
  | NetError c why =>
      Thrown (mkError PlainError why None (Some true) (Some c))
  end.

(** [requestOpportunities(url)]: one GET of the search endpoint for the
    page in [url]. *)
Definition requestOpportunities (page : Z) : M (option SearchResponse) :=
  fun w =>
    (search_outcome (search_api remote page (count is_search (trace w))),
     log (EvSearch (bearerToken (this w)) page) w).

(** The body of the retry loop of [fetchOpportunities], for the values
    [attempts] the loop variable still has to take. *)
Fixpoint fetch_attempts (page : Z) (attempts : list Z)
  : M (option SearchResponse) :=
  match attempts with
  | [] => throw (Error "Failed to fetch opportunities after retries.")
  | attempt :: later =>
      try_catch (requestOpportunities page)
        (fun error =>
           if instanceof_TokenExpiredError error then throw error
           else if Enricher.statusCode_is error 400 then throw error
           else
             self <- get_this ;;
             if negb (Enricher.isRetryable error)
                || (attempt =? maxAttempts self)
             then throw error
             else
               let delaySeconds := 2 ^ (attempt - 1) in
               (sleep (delaySeconds * 1000) ;;;
                fetch_attempts page later))
  end.

(** [fetchOpportunities(filters)], for the page of [filters]. *)
Definition fetchOpportunities (page : Z) : M (option SearchResponse) :=
  ensureToken ;;;
  (self <- get_this ;;
   fetch_attempts page (for_range 1 (maxAttempts self))).

(** [expr.substring(...)] in an argument of [console.log]: throws unless
    the value is a string.  ([null] is reported like [undefined].) *)
Definition substring_of (expr : string) (v : TextField) : M unit :=
  match v with
  | TextOf _ => ret tt
  | Missing =>
      throw (TypeError "Cannot read properties of undefined (reading 'substring')")
  | NotText => throw (TypeError (expr ++ ".substring is not a function"))
  end.

(** [expr?.substring(...)]: a missing value is let through. *)
Definition optional_substring_of (expr : string) (v : TextField) : M unit :=
  match v with
  | TextOf _ => ret tt
  | Missing => ret tt
  | NotText => throw (TypeError (expr ++ ".substring is not a function"))
  end.

(** The sample printed after page 1: what evaluating the arguments of
    its [console.log] calls can throw. *)
Definition print_sample (first : Opportunity) : M unit :=
  substring_of "first.nombre" (nombre first) ;;;
  optional_substring_of "first.fechaCierre" (fechaCierre_field first).

(** [array.forEach(f)] and the calls of [array.map(f)], in order. *)
Fixpoint for_each {A : Type} (f : A -> M unit) (l : list A) : M unit :=
  match l with
  | [] => ret tt
  | x :: rest => f x ;;; for_each f rest
  end.

(** [fs.writeFileSync(file, ...)] for a result file; the content is left
    out. *)
Definition writeFileSync (file : ResultFile) : M unit :=
  fun w =>
    match writeFileSync_error file (clock_ms w) with
    | None => (Returned tt, w)
    | Some why => (Thrown (Error why), w)
    end.

(** The page loop of [scrape], for the values [pages] the loop variable
    still has to take; the value is [allOpportunities] when the loop
    ends. *)
Fixpoint crawl_pages (pages : list Z) (allOpportunities : list Opportunity)
  : M (list Opportunity) :=
  match pages with
  | [] => ret allOpportunities
  | page :: later =>
      response <- fetchOpportunities page ;;
      match response with
      | None =>
          throw (TypeError "Cannot read properties of null (reading 'payload')")
      | Some r =>
          match payload r with
          | None => ret allOpportunities
          | Some p =>
              match resultados p with
              | None => ret allOpportunities
              | Some opportunities =>
                  if (List.length opportunities =? 0)%nat
                  then ret allOpportunities
                  else
                    let allOpportunities' :=
                      (allOpportunities ++ opportunities)%list in
                    ((if page =? 1 then
                        match opportunities with
                        | first :: _ => print_sample first
                        | [] => ret tt
                        end
                      else ret tt) ;;;
                     if match pageCount p with
                        | Some n => n <=? page
                        | None => false
                        end
                     then ret allOpportunities'
                     else (sleep 1000 ;;;
                           crawl_pages later allOpportunities'))
              end
          end
      end
  end.

(** What [scrape] does after the page loop: the data file, the summary
    and its file, the optional enrichment and its file, the list of the
    first ten.  Of the console output only what can throw is kept. *)
Definition write_results (enrich : bool) (allOpportunities : list Opportunity)
  : M (list Opportunity) :=
  writeFileSync DataFile ;;;
  (for_each (fun opp =>
               optional_substring_of "opp.fechaCierre" (fechaCierre_field opp))
            allOpportunities ;;;
   (writeFileSync SummaryFile ;;;
    ((if enrich then
        (enriched <- Enricher.enrichOpportunities remote allOpportunities
                                                  Enricher.no_options ;;
         if (List.length enriched =? 0)%nat then ret tt
         else writeFileSync EnrichedFile)
      else ret tt) ;;;
     (for_each (fun opp => substring_of "opp.nombre" (nombre opp))
               (firstn 10 allOpportunities) ;;;
      ret allOpportunities)))).

(** [scrape(options)]: the token check, the page loop and what follows
    it; the [catch] of [scrape] rethrows what it catches. *)
Definition scrape (maxPages : Z) (enrich : bool) : M (list Opportunity) :=
  ensureToken ;;;
  (allOpportunities <- crawl_pages (for_range 1 maxPages) [] ;;
   write_results enrich allOpportunities).

(** The exit code of the CLI for a run of [scrape]. *)
Definition exit_code {A : Type} (r : Outcome A) : Z :=
  match r with
  | Returned _ => 0
  | Thrown e => if requiresManualReauth e then 2 else 1
  end.

End WithRuntime.
End Scraper.

(* ===================================================================== *)
(** * session-monitor.js                                                  *)
(* ===================================================================== *)

Module SessionMonitor.
Section WithRuntime.

Context {RT : Runtime} (remote : Remote).

(** [Number(process.env.SESSION_..._HOURS || dflt)]; [None] is a variable
    that is unset or empty. *)
Definition hours_setting (env : option Q) (dflt : Q) : Q :=
  match env with Some v => v | None => dflt end.

Definition default_WARN_HOURS : Q := 24.
Definition default_CRIT_HOURS : Q := 6.

(** The settings of one run of the monitor. *)
Variable WARN_HOURS CRIT_HOURS : Q.
Variable DO_PROBE : bool.

Inductive Level : Type := OK | WARN | CRITICAL.

Inductive Reason : Type :=
| NoParseableExpiry
| Expired
| ExpiringVerySoon (h : Q)
| ExpiringSoon (h : Q)
| Healthy (h : Q)
| ProbeFailed (status : Z)
| SessionNotFound
| SessionInvalid.

Record Verdict : Type := mkVerdict {
  level : Level;
  code : Z;
  reason : Reason
}.

(** [Math.min(...known)] for a non-empty [known]. *)
Definition Math_min (first : Q) (others : list Q) : Q :=
  fold_left Qmin others first.

(** [hoursLeftList.filter(h => h !== null)]. *)
Definition known_of (hoursLeftList : list (option Q)) : list Q :=
  flat_map (fun h => match h with Some q => [q] | None => [] end)
           hoursLeftList.

(** [classify(hoursLeftList)]. *)
Definition classify (hoursLeftList : list (option Q)) : Verdict :=
  match known_of hoursLeftList with
  | [] => mkVerdict WARN 1 NoParseableExpiry
  | first :: others =>
      let minHours := Math_min first others in
      if Js.leb minHours 0 then mkVerdict CRITICAL 2 Expired
      else if Js.leb minHours CRIT_HOURS
      then mkVerdict CRITICAL 2 (ExpiringVerySoon minHours)
      else if Js.leb minHours WARN_HOURS
      then mkVerdict WARN 1 (ExpiringSoon minHours)
      else mkVerdict OK 0 (Healthy minHours)
  end.

Record Probe : Type := mkProbe { ok : bool; status : Z }.

(** [probeApi(bearerToken)]: resolves always. *)
Definition probeApi (bearer : option string) : M Probe :=
  fun w =>
    match bearer with
    | None => (Returned (mkProbe false 0), w)
    | Some tok =>
        if negb (Js.truthy_string tok) then (Returned (mkProbe false 0), w)
        else
          let w' := log (EvSearch (Some tok) 1) w in
          match search_api remote 1 (count is_search (trace w)) with
          | Replied st _ _ => (Returned (mkProbe (st =? 200) st), w')
          | TimedOut => (Returned (mkProbe false 0), w')
          | NetError _ _ => (Returned (mkProbe false 0), w')
          end
    end.

(** [Date.now() / 1000]. *)
Definition now_seconds (w : World) : Q := (inject_Z (clock_ms w) / 1000)%Q.

(** The signal of the access token: [secondsRemaining / 3600] of
    [inspectToken()]. *)
Definition hAccess_of (w : World) : option Q :=
  option_map (fun s => (s / 3600)%Q)
    (TokenManager.ts_secondsRemaining
       (TokenManager.accessToken (TokenManager.inspectToken w))).

(** The signal of the [KEYCLOAK_IDENTITY] cookie. *)
Definition hIdentity_of (cs : list Cookie) (w : World) : option Q :=
  match Js.find (fun c => String.eqb (name c) "KEYCLOAK_IDENTITY") cs with
  | Some c =>
      if Js.truthy_string (value c) then
        match Js.split "." (value c) with
        | _ :: segment :: _ =>
            let exp := jwt_segment_claim segment in
            if truthy_of exp then
              match Number_of exp with
              | Some e =>
                  if Js.gtb e 0 then Some ((e - now_seconds w) / 3600)%Q
                  else None
              | None => None
              end
            else None
        | _ => None
        end
      else None
  | None => None
  end.

(** The signal of the [KEYCLOAK_SESSION] cookie. *)
Definition hSession_of (cs : list Cookie) (w : World) : option Q :=
  match Js.find (fun c => String.eqb (name c) "KEYCLOAK_SESSION") cs with
  | Some c =>
      if truthy_of (expires_value c) then
        match Number_of (expires_value c) with
        | Some e =>
            let sessionExp := Js.floor e in
            if 0 <? sessionExp
            then Some ((inject_Z sessionExp - now_seconds w) / 3600)%Q
            else None
        | None => None
        end
      else None
  | None => None
  end.

(** [main()]: the verdict it prints and exits with.  On a file that
    holds [null] the read of [session.cookies] throws outside every [try]
    and the promise of [main] is rejected. *)
Definition main : M Verdict :=
  fun w =>
    match session_json w with
    | Unreadable _ => (Returned (mkVerdict CRITICAL 2 SessionNotFound), w)
    | Malformed _ => (Returned (mkVerdict CRITICAL 2 SessionInvalid), w)
    | HoldsNull =>
        (Thrown (TypeError
                   "Cannot read properties of null (reading 'cookies')"), w)
    | Stored session =>
        let cs := cookies session in
        let hAccess := hAccess_of w in
        let hIdentity := hIdentity_of cs w in
        let hSession := hSession_of cs w in
        let outcome := classify [hAccess; hIdentity; hSession] in
        let accessCookie :=
          Js.find (fun c => String.eqb (name c) "access_token_ccr"
                            || String.eqb (name c) "access_token") cs in
        if DO_PROBE then
          match probeApi (option_map value accessCookie) w with
          | (Returned probe, w') =>
              if negb (ok probe)
              then (Returned (mkVerdict CRITICAL 2 (ProbeFailed (status probe))), w')
              else (Returned outcome, w')
          | (Thrown e, w') => (Thrown e, w')
          end
        else (Returned outcome, w)
    end.

(** The exit code of the monitor: the code of the verdict, and 1 when
    Node ends the process on the rejected promise of [main]. *)
Definition exit_code (r : Outcome Verdict) : Z :=
  match r with
  | Returned verdict => code verdict
  | Thrown _ => 1
  end.

End WithRuntime.
End SessionMonitor.


(* ===================================================================== *)
(** * scraper-final.js: the command line and the result files             *)
(* ===================================================================== *)

Module Cli.

(** [s.startsWith(p)]. *)
Fixpoint startsWith (p s : string) : bool :=
  match p with
  | EmptyString => true
  | String a p' =>
      match s with
      | String b s' => Ascii.eqb a b && startsWith p' s'
      | EmptyString => false
      end
  end.

(** [\d*] up to the end of [s]. *)
Fixpoint all_digits (s : string) : bool :=
  match s with
  | EmptyString => true
  | String c rest => Enricher.is_digit c && all_digits rest
  end.

(** [/^\d+$/.test(s)]. *)
Definition is_digits (s : string) : bool := Js.truthy_string s && all_digits s.

Definition digit_value (c : ascii) : Z := Z.of_nat (nat_of_ascii c) - 48.

(** The decimal value of the digits of [s], after those that gave [acc]. *)
Fixpoint decimal (acc : Z) (s : string) : Z :=
  match s with
  | EmptyString => acc
  | String c rest => decimal (10 * acc + digit_value c) rest
  end.

(** [Number(s)] for a string of digits.  JavaScript rounds a value beyond
    2^53; the rounding keeps the order, so no comparison with a whole
    bound below 2^53 tells the rounded value from this one. *)
Definition Number_of_digits (s : string) : Z := decimal 0 s.

Record Options : Type := mkOptions {
  region : option Z;
  misRubros : bool;
  enrich : bool;
  maxPages : Z;
  daysBack : Z
}.

(** The check of a [--pages=] or [--days=] argument: the text between the
    first and the second [=] is the raw value. *)
Definition checked_value (arg : string) (lo hi : Z) : option Z :=
  match Js.split "=" arg with
  | _ :: raw :: _ =>
      let value := Number_of_digits raw in
      if is_digits raw && (lo <=? value) && (value <=? hi)
      then Some value else None
  | _ => None
  end.

(** How the command line ends before a run: [process.exit(1)] after a
    message, or a call of [scrape] with the options. *)
Inductive Startup : Type :=
| Exit1 (message : string)
| Run (options : Options).

(** The block under [require.main === module], up to the call of
    [scrape]; [args] is [process.argv.slice(2)]. *)
Definition main (args : list string) : Startup :=
  let region :=
    if existsb (String.eqb "--region-metropolitana") args
    then Some 13 else None in
  let misRubros := existsb (String.eqb "--mis-rubros") args in
  let enrich := existsb (String.eqb "--enrich") args in
  let with_pages (k : Z -> Startup) : Startup :=
    match Js.find (startsWith "--pages=") args with
    | Some pagesArg =>
        match checked_value pagesArg 1 50 with
        | Some pagesValue => k pagesValue
        | None => Exit1 "--pages must be an integer between 1 and 50"
        end
    | None => k 10
    end in
  let with_days (k : Z -> Startup) : Startup :=
    match Js.find (startsWith "--days=") args with
    | Some daysArg =>
        match checked_value daysArg 1 90 with
        | Some daysValue => k daysValue
        | None => Exit1 "--days must be an integer between 1 and 90"
        end
    | None => k 7
    end in
  with_pages (fun maxPages =>
  with_days (fun daysBack =>
  Run (mkOptions region misRubros enrich maxPages daysBack))).

(** [s.replace(/a/g, b)] for characters. *)
Fixpoint replace_all (a b : ascii) (s : string) : string :=
  match s with
  | EmptyString => EmptyString
  | String c rest =>
      String (if Ascii.eqb c a then b else c) (replace_all a b rest)
  end.

(** [s.replace(a, b)] for characters: the first occurrence only. *)
Fixpoint replace_first (a b : ascii) (s : string) : string :=
  match s with
  | EmptyString => EmptyString
  | String c rest =>
      if Ascii.eqb c a then String b rest
      else String c (replace_first a b rest)
  end.

(** [iso.replace(/:/g, '-').replace('T', '_').split('.')[0]], for the
    text [iso] of [now.toISOString()]. *)
Definition timestamp (iso : string) : string :=
  match Js.split "." (replace_first "T" "_" (replace_all ":" "-" iso)) with
  | first :: _ => first
  | [] => EmptyString
  end.

Definition regionSuffix (region : option Z) : string :=
  match region with
  | Some r => if r =? 0 then EmptyString else "-region" ++ Js.show_int r
  | None => EmptyString
  end.

Definition rubrosSuffix (misRubros : bool) : string :=
  if misRubros then "-misrubros" else EmptyString.

(** The three files of a run of [scrape]. *)
Definition filename (region : option Z) (misRubros : bool) (iso : string)
  : string :=
  "compra-agil" ++ regionSuffix region ++ rubrosSuffix misRubros ++ "-"
  ++ timestamp iso ++ ".json".

Definition summaryFile (region : option Z) (misRubros : bool) (iso : string)
  : string :=
  "compra-agil-summary" ++ regionSuffix region ++ rubrosSuffix misRubros ++ "-"
  ++ timestamp iso ++ ".json".

Definition enrichedFile (region : option Z) (misRubros : bool) (iso : string)
  : string :=
  "compra-agil-enriched" ++ regionSuffix region ++ rubrosSuffix misRubros
  ++ "-" ++ timestamp iso ++ ".json".

End Cli.

(* ===================================================================== *)
(** * server.js                                                           *)
(* ===================================================================== *)

(** A query parameter is absent ([None]) or a text. *)
Module Server.

(** [String(value)]. *)
Definition String_of (value : option string) : string :=
  match value with Some s => s | None => "undefined" end.

Definition lower (c : ascii) : ascii :=
  let n := nat_of_ascii c in
  if (65 <=? n)%nat && (n <=? 90)%nat then ascii_of_nat (n + 32) else c.

(** [s.toLowerCase()]. *)
Fixpoint toLowerCase (s : string) : string :=
  match s with
  | EmptyString => EmptyString
  | String c rest => String (lower c) (toLowerCase rest)
  end.

(** [toBoolean(value, defaultValue)]. *)
Definition toBoolean (value : option string) (defaultValue : bool) : bool :=
  match value with
  | None => defaultValue
  | Some s =>
      if negb (Js.truthy_string s) then defaultValue
      else
        let normalized := toLowerCase s in
        String.eqb normalized "1" || String.eqb normalized "true"
        || String.eqb normalized "yes" || String.eqb normalized "on"
  end.

(** The longest run of digits at the head of [s]. *)
Fixpoint leading_digits (s : string) : string :=
  match s with
  | String c rest =>
      if Enricher.is_digit c then String c (leading_digits rest)
      else EmptyString
  | EmptyString => EmptyString
  end.

(** [Number.parseInt(s, 10)]: leading whitespace, a sign, then digits;
    [None] is [NaN].  As for [Number], rounding beyond 2^53 is left out. *)
Definition parseInt (s : string) : option Z :=
  let trimmed := Enricher.skip_spaces s in
  let '(sign, body) :=
    match trimmed with
    | String c rest =>
        if Ascii.eqb c "-" then (-1, rest)
        else if Ascii.eqb c "+" then (1, rest)
        else (1, trimmed)
    | EmptyString => (1, trimmed)
    end in
  let ds := leading_digits body in
  if Js.truthy_string ds then Some (sign * Cli.Number_of_digits ds)
  else None.

(** [toBoundedInt(value, defaultValue, min, max)]. *)
Definition toBoundedInt (value : option string) (defaultValue min max : Z) : Z :=
  match parseInt (String_of value) with
  | None => defaultValue
  | Some parsed =>
      if (parsed <? min) || (max <? parsed) then defaultValue else parsed
  end.

(** [s.includes(sub)]. *)
Fixpoint includes (sub s : string) : bool :=
  Cli.startsWith sub s
  || match s with
     | String _ rest => includes sub rest
     | EmptyString => false
     end.

Inductive ResultType : Type := enriched | summary | full.

(** [classifyResultType(filename)]. *)
Definition classifyResultType (filename : string) : ResultType :=
  if includes "-enriched" filename then enriched
  else if includes "-summary" filename then summary
  else full.

Definition CR : ascii := ascii_of_nat 13.
Definition LF : ascii := ascii_of_nat 10.

(** [String(message).replace(/\r?\n/g, ' ')]. *)
Fixpoint formatSseMessage (message : string) : string :=
  match message with
  | EmptyString => EmptyString
  | String c rest =>
      if Ascii.eqb c LF then String " " (formatSseMessage rest)
      else if Ascii.eqb c CR then
        match rest with
        | String d rest' =>
            if Ascii.eqb d LF then String " " (formatSseMessage rest')
            else String c (formatSseMessage rest)
        | EmptyString => String c EmptyString
        end
      else String c (formatSseMessage rest)
  end.

(** The options of [/api/scrape/run], from the query of the request. *)
Record Query : Type := mkQuery {
  q_region : option string;
  q_misRubros : option string;
  q_days : option string;
  q_pages : option string;
  q_enrich : option string
}.

Definition run_options (query : Query) : Cli.Options :=
  {| Cli.region := if toBoolean (q_region query) false then Some 13 else None;
     Cli.misRubros := toBoolean (q_misRubros query) false;
     Cli.daysBack := toBoundedInt (q_days query) 7 1 90;
     Cli.maxPages := toBoundedInt (q_pages query) 10 1 50;
     Cli.enrich := toBoolean (q_enrich query) false |}.

(** [s] without the prefix [p], when it starts with it. *)
Fixpoint after_prefix (p s : string) : option string :=
  match p with
  | EmptyString => Some s
  | String a p' =>
      match s with
      | String b s' => if Ascii.eqb a b then after_prefix p' s' else None
      | EmptyString => None
      end
  end.

(** [s.endsWith(suffix)]. *)
Fixpoint endsWith (suffix s : string) : bool :=
  String.eqb s suffix
  || match s with
     | String _ rest => endsWith suffix rest
     | EmptyString => false
     end.

(** A character [.] of a regular expression matches: any but a line
    terminator. *)
Definition is_dot_char (c : ascii) : bool :=
  negb (Ascii.eqb c LF || Ascii.eqb c CR).

(** [[A-Za-z0-9._-]]. *)
Definition is_name_char (c : ascii) : bool :=
  let n := nat_of_ascii c in
  ((65 <=? n)%nat && (n <=? 90)%nat) || ((97 <=? n)%nat && (n <=? 122)%nat)
  || Enricher.is_digit c
  || Ascii.eqb c "." || Ascii.eqb c "_" || Ascii.eqb c "-".

Fixpoint all_chars (p : ascii -> bool) (s : string) : bool :=
  match s with
  | EmptyString => true
  | String c rest => p c && all_chars p rest
  end.

(** [/^compra-agil-.*\.json$/.test(name)], the filter of
    [/api/results/files]: after the prefix comes a text that ends in
    [.json] and has no line terminator. *)
Definition is_listed (name : string) : bool :=
  match after_prefix "compra-agil-" name with
  | Some rest => endsWith ".json" rest && all_chars is_dot_char rest
  | None => false
  end.

(** [/^compra-agil-[A-Za-z0-9._-]+\.json$/.test(filename)], the check of
    [/api/results/file/:filename]: after the prefix comes a text of
    characters of the class that ends in [.json] and is longer than it
    (the characters of [.json] are in the class). *)
Definition is_valid_filename (filename : string) : bool :=
  match after_prefix "compra-agil-" filename with
  | Some rest =>
      endsWith ".json" rest && all_chars is_name_char rest
      && (5 <? String.length rest)%nat
  | None => false
  end.

End Server.
(* ===================================================================== *)
(** * Vocabulary of the properties                                        *)
(* ===================================================================== *)

Local Open Scope list_scope.

Section Vocabulary.

Context {RT : Runtime}.

(** The access-token record [getValidToken] and [inspectToken] look up. *)
Definition access_cookie (s : Session) : option Cookie :=
  Js.or_obj (TokenManager.findCookie (cookies s) ["access_token_ccr"])
            (TokenManager.findCookie (cookies s) ["access_token"]).

(** The refresh-token record. *)
Definition refresh_cookie (s : Session) : option Cookie :=
  TokenManager.findCookie (cookies s) ["refresh_token"].

(** The derived state of the current access token, as [inspectToken]
    reports it. *)
Definition access_state (w : World) : TokenManager.TokenState :=
  TokenManager.accessToken (TokenManager.inspectToken w).

(** The current access token has more than the minimum remaining
    validity: it is present, its expiry is known, and more than
    [ACCESS_MIN_VALIDITY_SECONDS] remain. *)
Definition has_min_validity (w : World) : Prop :=
  TokenManager.present (access_state w) = true /\
  exists r : Q,
    TokenManager.ts_secondsRemaining (access_state w) = Some r /\
    (TokenManager.ACCESS_MIN_VALIDITY_SECONDS < r)%Q.

(** The test of [getValidToken] on a stored bundle, as a boolean. *)
Definition usable (s : Session) (now : Z) : bool :=
  match option_map value (access_cookie s),
        TokenManager.secondsRemaining
          (Js.or_num (TokenManager.decodeJwtExp (option_map value (access_cookie s)))
             (TokenManager.normalizeEpochSeconds
                (match access_cookie s with
                 | Some c => expires c | None => None end)))
          now
  with
  | Some t, Some r =>
      Js.truthy_string t && Js.gtb r TokenManager.ACCESS_MIN_VALIDITY_SECONDS
  | _, _ => false
  end.

(** The refresh-token record is absent or holds no value. *)
Definition no_refresh_token (s : Session) : Prop :=
  match refresh_cookie s with
  | None => True
  | Some rc => value rc = EmptyString
  end.

(** A reply of the token endpoint that is a non-200 status, an
    unparseable body, or a body without [access_token]. *)
Definition refresh_refused (reply : HttpReply TokenPayload) : Prop :=
  match reply with
  | Replied status _ json =>
      status <> 200 \/
      match json with
      | SyntaxError _ => True
      | ParsedNull => True
      | Parsed p => access_token p = None \/ access_token p = Some EmptyString
      end
  | TimedOut => False
  | NetError _ _ => False
  end.

(** The world [ms] milliseconds later, nothing else changed. *)
Definition later (ms : Z) (w : World) : World :=
  mkWorld (clock_ms w + ms) (session_json w) (this w) (trace w).

(** The world once [ensureToken] has stored [tok] in the scraper. *)
Definition with_bearer (tok : string) (w : World) : World :=
  mkWorld (clock_ms w) (session_json w)
          (mkScraper (Some tok) (requestTimeoutMs (this w)) (maxAttempts (this w)))
          (trace w).

(** The outcome classes of the request executor. *)
Inductive ReplyClass : Type :=
| Success
| FatalParse
| FatalAuth
| FatalClient
| FatalHttp
| RetryableServer
| RetryableNetwork.

(** The class of a reply: 200 with a parseable body is a success, 200
    with an unparseable body a parse error, 401 an expired
    authentication, 400 a client error, 5xx a server error, a timeout or
    connection error a network error, any other status an HTTP error. *)
Definition reply_class {A : Type} (reply : HttpReply A) : ReplyClass :=
  match reply with
  | Replied status _ json =>
      if status =? 200 then
        match json with SyntaxError _ => FatalParse | _ => Success end
      else if status =? 401 then FatalAuth
      else if status =? 400 then FatalClient
      else if (500 <=? status) && (status <? 600) then RetryableServer
      else FatalHttp
  | TimedOut => RetryableNetwork
  | NetError _ _ => RetryableNetwork
  end.

Definition retryable (c : ReplyClass) : bool :=
  match c with
  | RetryableServer | RetryableNetwork => true
  | _ => false
  end.

Definition backoffBaseMs : Z := 1000.

(** The events of [n] failed attempts of a search request, the first of
    them being attempt number [attempt] counted from 0: each request is
    followed by a sleep of [backoffBaseMs * 2^attempt]. *)
Fixpoint failed_attempts (bearer : option string) (page : Z) (attempt : Z)
    (n : nat) : list Event :=
  match n with
  | O => []
  | S n' =>
      EvSearch bearer page :: EvSleep (backoffBaseMs * 2 ^ attempt)
      :: failed_attempts bearer page (attempt + 1) n'
  end.

(** The same for a detail request. *)
Fixpoint failed_detail_attempts (bearer code : string) (attempt : Z)
    (n : nat) : list Event :=
  match n with
  | O => []
  | S n' =>
      EvDetail bearer code :: EvSleep (backoffBaseMs * 2 ^ attempt)
      :: failed_detail_attempts bearer code (attempt + 1) n'
  end.

(** The time [n] backoff sleeps take, from attempt number [attempt]. *)
Fixpoint backoff_time (attempt : Z) (n : nat) : Z :=
  match n with
  | O => 0
  | S n' => backoffBaseMs * 2 ^ attempt + backoff_time (attempt + 1) n'
  end.

(** What [JSON.parse] makes of the body of a search reply that is the
    JSON object [r], or [null] for [None]. *)
Definition body_json (b : option SearchResponse) : Parse SearchResponse :=
  match b with Some r => Parsed r | None => ParsedNull end.

(** A listing can be printed: its [nombre] is a string and its
    [fechaCierre] is a string or missing. *)
Definition printable (o : Opportunity) : Prop :=
  (exists s : string, nombre o = TextOf s) /\ fechaCierre_field o <> NotText.

(** Every write of a result file succeeds. *)
Definition disk_accepts_writes : Prop :=
  forall (file : ResultFile) (t : Z), writeFileSync_error file t = None.

(** A page response lacks the expected payload shape. *)
Definition lacks_shape (r : SearchResponse) : bool :=
  match payload r with
  | None => true
  | Some p => match resultados p with None => true | Some _ => false end
  end.

(** The items of a page response. *)
Definition items (r : SearchResponse) : list Opportunity :=
  match payload r with
  | None => []
  | Some p => match resultados p with None => [] | Some l => l end
  end.

(** The page number has reached the server-reported page count. *)
Definition reached_page_count (page : Z) (r : SearchResponse) : bool :=
  match payload r with
  | None => false
  | Some p => match pageCount p with Some n => n <=? page | None => false end
  end.

(** The items of a body, none for [null]. *)
Definition items_of (b : option SearchResponse) : list Opportunity :=
  match b with Some r => items r | None => [] end.

(** The crawl stops after the response [r] to page [page]. *)
Definition stops_crawl (page : Z) (r : SearchResponse) : bool :=
  lacks_shape r || (List.length (items r) =? 0)%nat || reached_page_count page r.

End Vocabulary.

(* ===================================================================== *)
(** * Concrete runs                                                       *)
(* ===================================================================== *)

(** A runtime for the concrete runs below.  It decodes the token
    segments and parses the dates that occur in them, as Node does with
    [TZ=UTC]:
    - ["eyJleHAiOjkwMH0"] is [{"exp":900}], ["eyJleHAiOjEwNjB9"] is
      [{"exp":1060}] and ["eyJleHAiOjUwMDB9"] is [{"exp":5000}];
    - the dates are ISO dates; ["25/01/1970 10:16:40"] is not a date for
      [new Date];
    - every write of a result file succeeds. *)
Definition demo_runtime : Runtime :=
  {| jwt_segment_claim := fun segment =>
       if String.eqb segment "eyJleHAiOjkwMH0" then Finite 900%Q
       else if String.eqb segment "eyJleHAiOjEwNjB9" then Finite 1060%Q
       else if String.eqb segment "eyJleHAiOjUwMDB9" then Finite 5000%Q
       else absent;
     Date_parse := fun text =>
       if String.eqb text "1970-01-03T02:16:40Z" then Some 181000000
       else if String.eqb text "1970-01-04T08:16:40Z" then Some 289000000
       else if String.eqb text "1969-12-31T23:16:40Z" then Some (-2600000)
       else if String.eqb text "1970-01-01T10:16:40Z" then Some 37000000
       else if String.eqb text "1970-01-25T10:16:40" then Some 2110600000
       else None;
     writeFileSync_error := fun _ _ => None |}.

Definition demo_cookie (n v : string) (e : option Q) : Cookie :=
  mkCookie n v "heimdall.mercadopublico.cl" "/" true true "Lax"
           (match e with Some q => Finite q | None => absent end).

(** Tokens that expire at 900 s, 1060 s and 5000 s after the epoch. *)
Definition token_900 : string := "h.eyJleHAiOjkwMH0.s".
Definition token_1060 : string := "h.eyJleHAiOjEwNjB9.s".
Definition token_5000 : string := "h.eyJleHAiOjUwMDB9.s".

(** A world at 1000 s after the epoch with the given bundle, a fresh
    scraper and an empty trace. *)
Definition demo_world (cs : list Cookie) : World :=
  mkWorld 1000000 (Stored (mkSession cs)) Scraper.new_CompraAgilScraper [].

(** The access token has 4000 s left. *)
Definition fresh_world : World :=
  demo_world [demo_cookie "access_token_ccr" token_5000 (Some (-1)%Q);
              demo_cookie "refresh_token" "r1" (Some (-1)%Q)].

(** The access token expired 100 s ago; there is a refresh token. *)
Definition stale_world : World :=
  demo_world [demo_cookie "access_token_ccr" token_900 (Some (-1)%Q);
              demo_cookie "refresh_token" "r1" (Some (-1)%Q)].

(** The access token expired 100 s ago; there is no refresh token. *)
Definition stranded_world : World :=
  demo_world [demo_cookie "access_token_ccr" token_900 (Some (-1)%Q)].

Definition no_search : Z -> nat -> HttpReply SearchResponse :=
  fun _ _ => NetError "ECONNREFUSED" "connect ECONNREFUSED".

Definition no_detail : string -> nat -> HttpReply DetailResponse :=
  fun _ _ => NetError "ECONNREFUSED" "connect ECONNREFUSED".

(** A token endpoint that issues a token with 60 s of validity. *)
Definition short_lived_remote : Remote :=
  {| token_endpoint := fun _ _ =>
       Replied 200 "{...}"
         (Parsed (mkTokenPayload (Some token_1060) None (Some 60%Q) None));
     search_api := no_search;
     detail_api := no_detail |}.

(** A token endpoint that refuses the grant. *)
Definition refusing_remote : Remote :=
  {| token_endpoint := fun _ _ =>
       Replied 400 "invalid_grant" (SyntaxError "Unexpected token i");
     search_api := no_search;
     detail_api := no_detail |}.

(** The world after [n] failed attempts of a search request and their
    backoff sleeps. *)
Definition after_failed_attempts (page : Z) (attempt : Z) (n : nat)
    (w : World) : World :=
  mkWorld (clock_ms w + backoff_time attempt n) (session_json w) (this w)
          (trace w ++ failed_attempts (bearerToken (this w)) page attempt n).

(** A search endpoint that answers 503 to every request. *)
Definition unavailable_remote : Remote :=
  {| token_endpoint := fun _ _ => NetError "ECONNREFUSED" "connect ECONNREFUSED";
     search_api := fun _ _ =>
       Replied 503 "Service Unavailable" (SyntaxError "Unexpected token S");
     detail_api := no_detail |}.

(** A search endpoint that answers 401 to every request. *)
Definition unauthorized_remote : Remote :=
  {| token_endpoint := fun _ _ => NetError "ECONNREFUSED" "connect ECONNREFUSED";
     search_api := fun _ _ =>
       Replied 401 "Unauthorized" (SyntaxError "Unexpected token U");
     detail_api := no_detail |}.

(** A listing with the given code, closing date and offer counts. *)
Definition demo_opportunity (code : string) (closing : string) (own total : Q)
  : Opportunity :=
  mkOpportunity code (TextOf "Insumos de oficina") "Municipalidad" "CLP"
                (Some 500000%Q) (TextOf closing) "Publicada" (Some own)
                (Some total).

(** The one listing of page [page] of [paged_remote]. *)
Definition demo_page_item (page : Z) : Opportunity :=
  demo_opportunity ("1057-" ++ Js.show_int page ++ "-COT26")%string
                   "1970-01-03T02:16:40Z" 0 0.

(** A page with one listing and a reported page count of 3. *)
Definition demo_page (page : Z) : SearchResponse :=
  mkSearchResponse
    (Some (mkSearchPayload (Some [demo_page_item page]) (Some 3))).

(** A search endpoint that serves [demo_page] for every page. *)
Definition paged_remote : Remote :=
  {| token_endpoint := fun _ _ => NetError "ECONNREFUSED" "connect ECONNREFUSED";
     search_api := fun page _ => Replied 200 "{...}" (Parsed (demo_page page));
     detail_api := no_detail |}.

(** A search endpoint that serves [demo_page] for page 1 and a 200
    whose body is [null] for every other page. *)
Definition null_page_remote : Remote :=
  {| token_endpoint := fun _ _ => NetError "ECONNREFUSED" "connect ECONNREFUSED";
     search_api := fun page _ =>
       if page =? 1 then Replied 200 "{...}" (Parsed (demo_page page))
       else Replied 200 "null" ParsedNull;
     detail_api := no_detail |}.

(** A search endpoint whose page 1 holds one listing, without
    [nombre]. *)
Definition unnamed_listing_remote : Remote :=
  {| token_endpoint := fun _ _ => NetError "ECONNREFUSED" "connect ECONNREFUSED";
     search_api := fun _ _ =>
       Replied 200 "{...}"
         (Parsed (mkSearchResponse
                    (Some (mkSearchPayload
                             (Some [mkOpportunity "1057-9-COT26" Missing
                                      "Municipalidad" "CLP" (Some 500000%Q)
                                      (TextOf "1970-01-03T02:16:40Z")
                                      "Publicada" (Some 0%Q) (Some 0%Q)])
                             (Some 1)))));
     detail_api := no_detail |}.

Section EnrichmentVocabulary.

Context {RT : Runtime} (remote : Remote).

(** The effective settings of [enrichOpportunities]. *)
Definition effective_concurrency (options : Enricher.Options) : Z :=
  match Enricher.opt_concurrency options with
  | Some c => if 0 <? c then c else 5
  | None => 5
  end.

Definition effective_timeoutMs (options : Enricher.Options) : Z :=
  match Enricher.opt_timeoutMs options with
  | Some t => if 0 <? t then t else 15000
  | None => 15000
  end.

Definition effective_maxRetries (options : Enricher.Options) : Z :=
  match Enricher.opt_maxRetries options with
  | Some r => if 0 <=? r then r else 3
  | None => 3
  end.

(** The eligible items processed one by one, in input order: each item is
    fetched with [enrichSingle] and appended when it yields a value. *)
Fixpoint enrich_each (todo : list Opportunity) (bearer : string)
    (timeoutMs maxRetries : Z) (enriched : list Enricher.Enriched)
  : M (list Enricher.Enriched) :=
  match todo with
  | [] => ret enriched
  | opportunity :: rest =>
      bind (Enricher.enrichSingle remote opportunity bearer timeoutMs maxRetries)
           (fun v =>
              enrich_each rest bearer timeoutMs maxRetries
                (enriched ++ match v with Some e => [e] | None => [] end))
  end.

End EnrichmentVocabulary.

(** Two eligible listings, closing 50 hours after the clock of
    [fresh_world]. *)
Definition listing_A : Opportunity :=
  demo_opportunity "1057-1-COT26" "1970-01-03T02:16:40Z" 0 0.
Definition listing_B : Opportunity :=
  demo_opportunity "1057-2-COT26" "1970-01-03T02:16:40Z" 0 0.

Definition demo_detail : Detail :=
  mkDetail (Some "Resmas de papel") (Some "CLP") (Some 500000%Q)
           (Some 500000%Q) (Some 5%Q) (Some "Av. Principal 123")
           (Some []) None.

(** A detail endpoint that answers 401 for [listing_A] and 200 for any
    other listing. *)
Definition detail_401_remote : Remote :=
  {| token_endpoint := fun _ _ => NetError "ECONNREFUSED" "connect ECONNREFUSED";
     search_api := no_search;
     detail_api := fun code _ =>
       if String.eqb code "1057-1-COT26"
       then Replied 401 "Unauthorized" (SyntaxError "Unexpected token U")
       else Replied 200 "{...}" (Parsed (mkDetailResponse (Some demo_detail))) |}.

(** A search endpoint with one page, of [listing_A] and [listing_B], and
    a detail endpoint that answers every request with a 401. *)
Definition expired_detail_remote : Remote :=
  {| token_endpoint := fun _ _ => NetError "ECONNREFUSED" "connect ECONNREFUSED";
     search_api := fun _ _ =>
       Replied 200 "{...}"
         (Parsed (mkSearchResponse
                    (Some (mkSearchPayload (Some [listing_A; listing_B])
                                           (Some 1)))));
     detail_api := fun _ _ =>
       Replied 401 "Unauthorized" (SyntaxError "Unexpected token U") |}.

(** [m] is the minimum of the non-empty list [l] of signals. *)
Definition is_minimum (m : Q) (l : list Q) : Prop :=
  (forall x : Q, In x l -> (m <= x)%Q) /\ (exists x : Q, In x l /\ (m == x)%Q).

(** A bundle whose access token is opaque and whose cookie expires 48
    hours after the clock of [demo_world]. *)
Definition healthy_world : World :=
  demo_world [demo_cookie "access_token" "opaque-token" (Some 173800%Q)].

(** The world after [n] failed attempts of a detail request and their
    backoff sleeps. *)
Definition after_failed_detail_attempts (bearer code : string) (attempt : Z)
    (n : nat) (w : World) : World :=
  mkWorld (clock_ms w + backoff_time attempt n) (session_json w) (this w)
          (trace w ++ failed_detail_attempts bearer code attempt n).

(** A search endpoint that answers 503 to the first two requests and 200
    from then on. *)
Definition flaky_remote : Remote :=
  {| token_endpoint := fun _ _ => NetError "ECONNREFUSED" "connect ECONNREFUSED";
     search_api := fun page k =>
       if (k <? 2)%nat
       then Replied 503 "Service Unavailable" (SyntaxError "Unexpected token S")
       else Replied 200 "{...}" (Parsed (demo_page page));
     detail_api := no_detail |}.

(* ===================================================================== *)
(** * Vocabulary of the further properties                                *)
(* ===================================================================== *)

(** Every character of [s] satisfies [p]. *)
Fixpoint string_forall (p : ascii -> bool) (s : string) : bool :=
  match s with
  | EmptyString => true
  | String c rest => p c && string_forall p rest
  end.

(** [s] is made of exactly [n] digits. *)
Definition digit_field (n : nat) (s : string) : Prop :=
  String.length s = n /\ string_forall Enricher.is_digit s = true.

(** [ws] is one or more whitespace characters. *)
Definition blank (ws : string) : Prop :=
  ws <> EmptyString /\ string_forall Enricher.is_space ws = true.

(** [s] is a date in the form day/month/year, alone, or followed by
    whitespace and hours:minutes, or by whitespace and
    hours:minutes:seconds, and [r] holds its fields, ["00"] standing for a
    part that is not there. *)
Definition ddmmyyyy_form (s : string) (r : Enricher.Ddmmyyyy) : Prop :=
  digit_field 2 (Enricher.dd r) /\ digit_field 2 (Enricher.mm r) /\
  digit_field 4 (Enricher.yyyy r) /\ digit_field 2 (Enricher.hh r) /\
  digit_field 2 (Enricher.min r) /\ digit_field 2 (Enricher.ss r) /\
  let date := (Enricher.dd r ++ "/" ++ Enricher.mm r ++ "/"
               ++ Enricher.yyyy r)%string in
  ((s = date /\ Enricher.hh r = "00" /\ Enricher.min r = "00" /\
    Enricher.ss r = "00")
   \/ exists ws : string,
        blank ws /\
        ((s = (Enricher.dd r ++ "/" ++ Enricher.mm r ++ "/" ++ Enricher.yyyy r
               ++ ws ++ Enricher.hh r ++ ":" ++ Enricher.min r)%string
          /\ Enricher.ss r = "00")
         \/ s = (Enricher.dd r ++ "/" ++ Enricher.mm r ++ "/" ++ Enricher.yyyy r
                 ++ ws ++ Enricher.hh r ++ ":" ++ Enricher.min r ++ ":"
                 ++ Enricher.ss r)%string)).

(** [l] is [l'] with some elements left out, the others in order. *)
Inductive subsequence {A : Type} : list A -> list A -> Prop :=
| subsequence_nil : subsequence [] []
| subsequence_skip (x : A) (l l' : list A) :
    subsequence l l' -> subsequence l (x :: l')
| subsequence_keep (x : A) (l l' : list A) :
    subsequence l l' -> subsequence (x :: l) (x :: l').

(** [s] is empty or starts with a character that is not whitespace. *)
Definition starts_solid (s : string) : Prop :=
  match s with
  | EmptyString => True
  | String c _ => Enricher.is_space c = false
  end.

(** [evs] holds nothing but sleeps and detail requests made with
    [bearer] for codes of [codes]. *)
Definition detail_traffic (bearer : string) (codes : list string)
    (evs : list Event) : Prop :=
  Forall (fun ev =>
            is_sleep ev = true
            \/ exists c : string, In c codes /\ ev = EvDetail bearer c) evs.

(** Each record of [l] is the detail record of the listing at the same
    place in [kept]. *)
Definition details_of (l : list Enricher.Enriched) (kept : list Opportunity)
  : Prop :=
  Forall2 (fun e o => exists d : Detail, e = Enricher.mapDetail o d) l kept.

(** The pages [ps] are asked in crawl order after page [prev]: each
    request is for the page of the request before it or for the next
    page. *)
Fixpoint climbs (prev : Z) (ps : list Z) : Prop :=
  match ps with
  | [] => True
  | p :: rest => (p = prev \/ p = prev + 1) /\ climbs p rest
  end.

(** How bad a level of the monitor is. *)
Definition severity (l : SessionMonitor.Level) : nat :=
  match l with
  | SessionMonitor.OK => 0
  | SessionMonitor.WARN => 1
  | SessionMonitor.CRITICAL => 2
  end.

(** The argument [arg], of the form [name] followed by a value, is read
    as [v]: the value starts with a run of digits [raw] that ends the
    argument or is followed by [=], and [v] is the number [raw] writes. *)
Definition reads_argument (name arg : string) (v : Z) : Prop :=
  exists raw rest : string,
    arg = (name ++ raw ++ rest)%string /\
    Cli.is_digits raw = true /\
    (rest = EmptyString \/ exists r : string, rest = String "=" r) /\
    v = Cli.Number_of_digits raw.

(** The options of a run are those the command line and the web form can
    ask for. *)
Definition within_bounds (o : Cli.Options) : Prop :=
  1 <= Cli.maxPages o <= 50 /\ 1 <= Cli.daysBack o <= 90 /\
  (Cli.region o = None \/ Cli.region o = Some 13).

(** The characters of the text of [toISOString()] for a year of four
    digits. *)
Definition is_iso_char (c : ascii) : bool :=
  Enricher.is_digit c || Ascii.eqb c "-" || Ascii.eqb c ":"
  || Ascii.eqb c "T" || Ascii.eqb c "." || Ascii.eqb c "Z".

(** The characters of a time stamp in a file name. *)
Definition is_stamp_char (c : ascii) : bool :=
  Enricher.is_digit c || Ascii.eqb c "-" || Ascii.eqb c "_"
  || Ascii.eqb c "T" || Ascii.eqb c "Z".

(** No [-] of [s] is followed by [x]. *)
Fixpoint dash_never_before (x : ascii) (s : string) : bool :=
  match s with
  | String a rest =>
      negb (Ascii.eqb a "-"
            && match rest with
               | String b _ => Ascii.eqb b x
               | EmptyString => false
               end)
      && dash_never_before x rest
  | EmptyString => true
  end.

Definition is_not (x : ascii) (c : ascii) : bool := negb (Ascii.eqb c x).

(** A token endpoint that issues a token with 4000 s of validity and
    rotates the refresh token. *)
Definition renewing_remote : Remote :=
  {| token_endpoint := fun _ _ =>
       Replied 200 "{...}"
         (Parsed (mkTokenPayload (Some token_5000) (Some "r2") (Some 4000%Q)
                                 None));
     search_api := no_search;
     detail_api := no_detail |}.

(** The text of [toISOString()] for a run on 3 November 2026. *)
Definition demo_iso : string := "2026-11-03T10:16:40.000Z".

(** ** The signals of the monitor *)

(** No signal of the list is parseable. *)
Definition no_signal (l : list (option Q)) : Prop :=
  forall x : Q, ~ In (Some x) l.

(** [m] is the minimum of the parseable signals of the list. *)
Definition minimum_signal (m : Q) (l : list (option Q)) : Prop :=
  (forall x : Q, In (Some x) l -> (m <= x)%Q) /\
  (exists x : Q, In (Some x) l /\ (m == x)%Q).

(** A record of one of the two names of the access token. *)
Definition is_access_record (c : Cookie) : Prop :=
  name c = "access_token_ccr" \/ name c = "access_token".

(** [tok] is the value of the first record of the bundle that has one of
    the two names. *)
Definition first_access_value (cs : list Cookie) (tok : string) : Prop :=
  exists (before : list Cookie) (c : Cookie) (after : list Cookie),
    cs = before ++ c :: after /\
    (forall b : Cookie, In b before -> ~ is_access_record b) /\
    is_access_record c /\ value c = tok.

(** The probe fails: the bundle has no token to send, or the search
    endpoint does not answer the request it would get next with status
    200 (another status, a timeout, a connection error). *)
Definition probe_fails (remote : Remote) (cs : list Cookie) (tr : list Event)
  : Prop :=
  (forall tok : string, first_access_value cs tok -> tok = EmptyString)
  \/ (forall (data : string) (json : Parse SearchResponse),
        search_api remote 1 (count is_search tr) <> Replied 200 data json).

(* ===================================================================== *)
(** * Properties                                                          *)
(* ===================================================================== *)

(** ** Comparisons and small facts *)

Lemma gtb_spec (x y : Q) : Js.gtb x y = true <-> (y < x)%Q.
Proof.
  unfold Js.gtb. rewrite negb_true_iff. split; intro H.
  - destruct (Qlt_le_dec y x) as [Hlt | Hle]; [exact Hlt |].
    apply Qle_bool_iff in Hle. congruence.
  - destruct (Qle_bool x y) eqn:E; [| reflexivity].
    apply Qle_bool_iff in E. exfalso. apply (Qlt_not_le _ _ H E).
Qed.

Lemma leb_spec (x y : Q) : Js.leb x y = true <-> (x <= y)%Q.
Proof. unfold Js.leb. apply Qle_bool_iff. Qed.

Lemma leb_false (x y : Q) : Js.leb x y = false <-> (y < x)%Q.
Proof.
  rewrite <- gtb_spec. unfold Js.gtb, Js.leb.
  destruct (Qle_bool x y); simpl; split; congruence.
Qed.

Lemma count_app (p : Event -> bool) (tr tr' : list Event) :
  count p (tr ++ tr') = (count p tr + count p tr')%nat.
Proof. unfold count. rewrite filter_app, length_app. reflexivity. Qed.

Lemma find_append {A : Type} (p : A -> bool) (l l' : list A) :
  List.find p (l ++ l')
  = match List.find p l with Some x => Some x | None => List.find p l' end.
Proof.
  induction l as [| a l IH]; cbn; [reflexivity |].
  destruct (p a); [reflexivity | exact IH].
Qed.

Lemma bind_Returned {A B : Type} (c : M A) (k : A -> M B) (w w' : World) (a : A) :
  c w = (Returned a, w') -> bind c k w = k a w'.
Proof. intro H. unfold bind. rewrite H. reflexivity. Qed.

Lemma bind_Thrown {A B : Type} (c : M A) (k : A -> M B) (w w' : World) (e : JsError) :
  c w = (Thrown e, w') -> bind c k w = (Thrown e, w').
Proof. intro H. unfold bind. rewrite H. reflexivity. Qed.

(** ** The token lifecycle manager *)

Section TokenManagerProperties.

Context {RT : Runtime} (remote : Remote).

Lemma usable_iff_has_min_validity (w : World) (s : Session) :
  session_json w = Stored s ->
  (usable s (clock_ms w) = true <-> has_min_validity w).
Proof.
  intro Hs.
  unfold has_min_validity, access_state, TokenManager.inspectToken,
    TokenManager.readSessionFileSafe, TokenManager.readSessionFileOrThrow.
  rewrite Hs. cbn [TokenManager.accessToken]. unfold usable, access_cookie.
  unfold TokenManager.buildTokenState.
  cbn [TokenManager.present TokenManager.ts_secondsRemaining].
  destruct (Js.or_obj _ _) as [c |]; cbn [option_map].
  - destruct (TokenManager.secondsRemaining _ _) as [r |].
    + rewrite andb_true_iff, gtb_spec. split.
      * intros [Ht Hr]. split; [exact Ht |]. exists r. split; [reflexivity | exact Hr].
      * intros [Ht [r' [Hr' Hlt]]]. injection Hr' as ->. split; assumption.
    + split; [discriminate |]. intros [_ [r' [Hr' _]]]. discriminate.
  - split; [discriminate |]. intros [Hp _]. discriminate.
Qed.

(** A failure of the refresh request is always a [TokenRefreshError]. *)
Lemma refresh_outcome_error_class (reply : HttpReply TokenPayload) (e : JsError) :
  TokenManager.refresh_outcome reply = Thrown e ->
  err_class e = TokenRefreshErrorClass.
Proof.
  unfold TokenManager.refresh_outcome. intro Hout.
  repeat match type of Hout with
         | context [match ?x with _ => _ end] => destruct x
         end;
    try discriminate; injection Hout as <-; reflexivity.
Qed.

(** [getValidToken] on a readable bundle, step by step. *)
Lemma getValidToken_unfold (w : World) (s : Session) :
  session_json w = Stored s ->
  TokenManager.getValidToken remote w =
  if usable s (clock_ms w)
  then (Returned (match option_map value (access_cookie s) with
                  | Some t => t | None => EmptyString end), w)
  else
    match refresh_cookie s with
    | None =>
        (Thrown (TokenExpiredError
                   "No refresh_token found in session.json. Manual re-auth required."), w)
    | Some rc =>
        if negb (Js.truthy_string (value rc)) then
          (Thrown (TokenExpiredError
                     "No refresh_token found in session.json. Manual re-auth required."), w)
        else
          match TokenManager.refresh_outcome
                  (token_endpoint remote (value rc) (count is_refresh (trace w)))
          with
          | Returned refreshed =>
              bind (TokenManager.persistRefreshedTokens s refreshed rc)
                   (fun _ => ret (match access_token refreshed with
                                  | Some t => t | None => EmptyString end))
                   (log (EvRefresh (value rc)) w)
          | Thrown e => (Thrown e, log (EvRefresh (value rc)) w)
          end
    end.
Proof.
  intro Hs.
  unfold TokenManager.getValidToken, bind at 1.
  unfold TokenManager.readSessionFileOrThrow. rewrite Hs.
  unfold bind at 1, Date_now. fold (access_cookie s). fold (refresh_cookie s).
  fold (usable s (clock_ms w)).
  destruct (usable s (clock_ms w)); [reflexivity |].
  destruct (refresh_cookie s) as [rc |]; [| reflexivity].
  destruct (negb (Js.truthy_string (value rc))); [reflexivity |].
  unfold bind at 1, try_catch, TokenManager.requestTokenRefresh.
  destruct (TokenManager.refresh_outcome _) as [refreshed | e] eqn:Hout.
  - reflexivity.
  - apply refresh_outcome_error_class in Hout.
    unfold instanceof_TokenRefreshError. rewrite Hout. reflexivity.
Qed.

(** The fast path of [getValidToken]. *)
Lemma getValidToken_fast_path (w : World) (s : Session) (c : Cookie) :
  session_json w = Stored s ->
  access_cookie s = Some c ->
  usable s (clock_ms w) = true ->
  TokenManager.getValidToken remote w = (Returned (value c), w).
Proof.
  intros Hs Hc Hu. rewrite (getValidToken_unfold w Hs), Hu, Hc. reflexivity.
Qed.

(** C2. For every credential bundle whose current access token has a
    parseable expiry with more than 300 seconds of remaining validity,
    [getValidToken] returns the value of that token and leaves the world
    as it was: no refresh request is sent and the persisted bundle is not
    modified. *)
Theorem getValidToken_returns_fresh_token_untouched :
  forall (w : World) (s : Session) (c : Cookie),
    session_json w = Stored s ->
    access_cookie s = Some c ->
    has_min_validity w ->
    TokenManager.getValidToken remote w = (Returned (value c), w).
Proof.
  intros w s c Hs Hc Hv.
  apply (usable_iff_has_min_validity w Hs) in Hv.
  apply (getValidToken_fast_path w Hs Hc Hv).
Qed.

(** C4. When the current access token does not have more than the minimum
    remaining validity, [getValidToken] fails with an error that requires
    manual re-authentication: a [TokenExpiredError] thrown before any
    request when there is no refresh token, and a [TokenRefreshError]
    after exactly one refresh request when the token endpoint answers
    with a non-200 status, an unparseable body or a body without
    [access_token]; the bundle is not modified in either case. *)
Theorem getValidToken_fails_AuthExpired_without_retry :
  forall (w : World) (s : Session),
    session_json w = Stored s ->
    ~ has_min_validity w ->
    (no_refresh_token s ->
     exists e : JsError,
       TokenManager.getValidToken remote w = (Thrown e, w) /\
       AuthExpired e /\ instanceof_TokenExpiredError e = true)
    /\
    (forall rc : Cookie,
       refresh_cookie s = Some rc ->
       value rc <> EmptyString ->
       refresh_refused
         (token_endpoint remote (value rc) (count is_refresh (trace w))) ->
       exists (e : JsError) (w' : World),
         TokenManager.getValidToken remote w = (Thrown e, w') /\
         AuthExpired e /\
         trace w' = trace w ++ [EvRefresh (value rc)] /\
         session_json w' = session_json w).
Proof.
  intros w s Hs Hv.
  assert (Hu : usable s (clock_ms w) = false).
  { destruct (usable s (clock_ms w)) eqn:E; [| reflexivity].
    exfalso. apply Hv. apply (usable_iff_has_min_validity w Hs). exact E. }
  rewrite (getValidToken_unfold w Hs), Hu. split.
  - unfold no_refresh_token. intro Hno.
    destruct (refresh_cookie s) as [rc |].
    + rewrite Hno. cbn. eexists. repeat split.
    + eexists. repeat split.
  - intros rc Hrc Hval Href. rewrite Hrc.
    assert (Ht : Js.truthy_string (value rc) = true).
    { destruct (value rc); [congruence | reflexivity]. }
    rewrite Ht. cbn [negb].
    destruct (TokenManager.refresh_outcome _) as [p | e] eqn:Hout.
    + exfalso. revert Hout Href.
      destruct (token_endpoint remote (value rc) _) as [st body json | |];
        cbn; try discriminate.
      destruct (Z.eqb_spec st 200) as [-> | Hne]; cbn.
      * destruct json as [why | | p']; try discriminate.
        destruct (access_token p') as [t |] eqn:Hat; [| discriminate].
        destruct t; cbn; [discriminate |].
        intros _ [H | [H | H]]; congruence.
      * discriminate.
    + exists e, (log (EvRefresh (value rc)) w).
      apply refresh_outcome_error_class in Hout.
      unfold AuthExpired, requiresManualReauth. rewrite Hout.
      repeat split.
Qed.

(** *** Cookies after an upsert *)

Lemma findCookie_single (cs : list Cookie) (n : string) :
  TokenManager.findCookie cs [n]
  = List.find (fun cookie => String.eqb (name cookie) n) cs.
Proof.
  cbn. unfold Js.find. destruct (List.find _ cs); reflexivity.
Qed.

Lemma find_update_existing_same (cs : list Cookie) (n v : string) (exp : option Q) (c : Cookie) :
  List.find (fun cookie => String.eqb (name cookie) n) cs = Some c ->
  exists c',
    List.find (fun cookie => String.eqb (name cookie) n)
              (TokenManager.update_existing cs n v exp) = Some c'
    /\ value c' = v.
Proof.
  induction cs as [| c0 cs IH]; cbn; [discriminate |].
  destruct (String.eqb (name c0) n) eqn:E.
  - intros _. cbn. rewrite E. eexists. split; reflexivity.
  - intro H. cbn. rewrite E. apply IH. exact H.
Qed.

Lemma find_update_existing_other (cs : list Cookie) (n n' v : string) (exp : option Q) :
  n' <> n ->
  List.find (fun cookie => String.eqb (name cookie) n')
            (TokenManager.update_existing cs n v exp)
  = List.find (fun cookie => String.eqb (name cookie) n') cs.
Proof.
  intro Hne.
  induction cs as [| c0 cs IH]; cbn; [reflexivity |].
  destruct (String.eqb (name c0) n) eqn:E.
  - cbn. apply String.eqb_eq in E. rewrite E.
    destruct (String.eqb_spec n n'); [congruence | reflexivity].
  - cbn. destruct (String.eqb (name c0) n'); [reflexivity | exact IH].
Qed.

Lemma findCookie_upsert_same (cs : list Cookie) (n v : string) (e : option Q) (t : option Cookie) :
  exists c',
    TokenManager.findCookie (TokenManager.upsertCookie cs n v e t) [n] = Some c'
    /\ value c' = v.
Proof.
  rewrite findCookie_single. unfold TokenManager.upsertCookie, Js.find.
  destruct (List.find _ cs) as [c |] eqn:F.
  - apply find_update_existing_same with (c := c). exact F.
  - eexists. split.
    + rewrite find_append, F. cbn. rewrite String.eqb_refl. reflexivity.
    + reflexivity.
Qed.

Lemma findCookie_upsert_other (cs : list Cookie) (n n' v : string) (e : option Q) (t : option Cookie) (c : Cookie) :
  n' <> n ->
  TokenManager.findCookie cs [n'] = Some c ->
  TokenManager.findCookie (TokenManager.upsertCookie cs n v e t) [n'] = Some c.
Proof.
  rewrite !findCookie_single.
  intros Hne Hc. unfold TokenManager.upsertCookie, Js.find.
  destruct (List.find (fun cookie => String.eqb (name cookie) n) cs) as [c0 |] eqn:F.
  - rewrite find_update_existing_other by exact Hne. exact Hc.
  - rewrite find_append, Hc. reflexivity.
Qed.

(** What a successful refresh leaves behind: the access-token record of
    the persisted bundle holds the token the endpoint issued, one refresh
    request is in the trace, and the clock did not move. *)
Lemma persistRefreshedTokens_run (s : Session) (p : TokenPayload) (rc : Cookie) (w : World) :
  exists (cs' : list Cookie) (c' : Cookie),
    TokenManager.persistRefreshedTokens s p rc w
    = (Returned tt, mkWorld (clock_ms w) (Stored (mkSession cs')) (this w) (trace w))
    /\ access_cookie (mkSession cs') = Some c'
    /\ value c' = match access_token p with Some t => t | None => EmptyString end.
Proof.
  unfold TokenManager.persistRefreshedTokens, bind, Date_now, write_session.
  cbv zeta.
  match goal with
  | |- context [TokenManager.upsertCookie
                  (TokenManager.upsertCookie
                     (TokenManager.upsertCookie ?cs0 ?n1 ?v1 ?e1 ?t1) ?n2 ?v2 ?e2 ?t2)
                  ?n3 ?v3 ?e3 ?t3] =>
      destruct (findCookie_upsert_same cs0 n1 v1 e1 t1) as [c1 [Hc1 Hv1]];
      pose proof (@findCookie_upsert_other
                    (TokenManager.upsertCookie cs0 n1 v1 e1 t1)
                    n2 n1 v2 e2 t2 c1 ltac:(discriminate) Hc1) as Hc2;
      pose proof (@findCookie_upsert_other _ n3 n1 v3 e3 t3 c1
                    ltac:(discriminate) Hc2) as Hc3
  end.
  eexists. exists c1. split; [reflexivity |]. split.
  - unfold access_cookie. cbn [cookies]. rewrite Hc3. reflexivity.
  - exact Hv1.
Qed.

(** C3, as amended. An access token that [getValidToken] returns
    without a refresh is the stored one and has more than 300 seconds of
    remaining validity at return time.  A token obtained via the refresh
    path is the [access_token] of the token endpoint's reply: it is
    returned after exactly one refresh request and persisted as the
    current access token, with no check of its remaining validity, which
    is the one its embedded expiry gives. *)
Theorem getValidToken_validity_of_returned_token :
  forall (w : World) (tok : string) (w' : World),
    TokenManager.getValidToken remote w = (Returned tok, w') ->
    (w' = w /\ has_min_validity w /\
     exists (s : Session) (c : Cookie),
       session_json w = Stored s /\ access_cookie s = Some c /\ value c = tok)
    \/
    (exists (s : Session) (rc : Cookie) (p : TokenPayload),
       session_json w = Stored s /\
       refresh_cookie s = Some rc /\
       TokenManager.refresh_outcome
         (token_endpoint remote (value rc) (count is_refresh (trace w)))
       = Returned p /\
       access_token p = Some tok /\
       trace w' = trace w ++ [EvRefresh (value rc)] /\
       clock_ms w' = clock_ms w /\
       TokenManager.present (access_state w') = true /\
       forall e : Q,
         TokenManager.decodeJwtExp (Some tok) = Some e ->
         ~ (e == 0)%Q ->
         TokenManager.ts_secondsRemaining (access_state w')
         = Some (e - inject_Z (clock_ms w / 1000))%Q).
Proof.
  intros w tok w' Hrun.
  destruct (session_json w) as [why | why | | s] eqn:Hs;
    try (unfold TokenManager.getValidToken, bind,
           TokenManager.readSessionFileOrThrow in Hrun;
         rewrite Hs in Hrun; discriminate).
  rewrite (getValidToken_unfold w Hs) in Hrun.
  destruct (usable s (clock_ms w)) eqn:Hu.
  - left. injection Hrun as Htok Hw. subst w'. split; [reflexivity |].
    split; [apply (usable_iff_has_min_validity w Hs); exact Hu |].
    unfold usable in Hu.
    destruct (access_cookie s) as [c |] eqn:Hc; [| discriminate].
    exists s, c. split; [reflexivity |]. split; [exact Hc | exact Htok].
  - right.
    destruct (refresh_cookie s) as [rc |] eqn:Hrc; [| discriminate].
    destruct (negb (Js.truthy_string (value rc))); [discriminate |].
    destruct (TokenManager.refresh_outcome _) as [p | e] eqn:Hout; [| discriminate].
    destruct (persistRefreshedTokens_run s p rc (log (EvRefresh (value rc)) w))
      as [cs' [c' [Hrun' [Hc' Hv']]]].
    rewrite (bind_Returned _ _ _ Hrun') in Hrun. unfold ret in Hrun.
    injection Hrun as Htok Hw.
    assert (Hat : access_token p = Some tok /\ Js.truthy_string tok = true).
    { unfold TokenManager.refresh_outcome in Hout.
      repeat match type of Hout with
             | context [match ?x with _ => _ end] => destruct x eqn:?
             end; try discriminate.
      injection Hout as <-.
      match goal with
      | H : access_token _ = Some _ |- _ => rewrite H in Htok |- *
      end.
      subst tok. split; [reflexivity | assumption]. }
    destruct Hat as [Hat Htruthy].
    rewrite Hat in Hv'.
    exists s, rc, p. subst w'. cbn [trace clock_ms log].
    repeat (split; [first [reflexivity | assumption] |]).
    unfold access_state, TokenManager.inspectToken,
      TokenManager.readSessionFileSafe, TokenManager.readSessionFileOrThrow.
    cbn [session_json TokenManager.accessToken clock_ms].
    fold (access_cookie (mkSession cs')). rewrite Hc'.
    unfold TokenManager.buildTokenState.
    cbn [option_map TokenManager.present TokenManager.ts_secondsRemaining].
    rewrite Hv'. split; [exact Htruthy |].
    intros e He Hnz. rewrite He. unfold Js.or_num, Js.truthy_num.
    destruct (Qeq_bool e 0) eqn:E.
    + exfalso. apply Hnz. apply Qeq_bool_iff. exact E.
    + cbn [negb]. unfold TokenManager.secondsRemaining, Js.truthy_num.
      rewrite E. reflexivity.
Qed.

End TokenManagerProperties.

(** C2 on a bundle whose token has 4000 s left. *)
Lemma getValidToken_fresh_world :
  TokenManager.getValidToken (RT := demo_runtime) short_lived_remote fresh_world
  = (Returned token_5000, fresh_world).
Proof.
  apply (@getValidToken_returns_fresh_token_untouched demo_runtime
           short_lived_remote fresh_world
           (mkSession [demo_cookie "access_token_ccr" token_5000 (Some (-1)%Q);
                       demo_cookie "refresh_token" "r1" (Some (-1)%Q)])
           (demo_cookie "access_token_ccr" token_5000 (Some (-1)%Q))).
  - reflexivity.
  - reflexivity.
  - split; [reflexivity |]. exists 4000%Q. split; reflexivity.
Defined.

(** C3 as stated fails: the token endpoint may issue a token with 60 s
    of validity; [getValidToken] returns it, and the bundle it persisted
    reports 60 s remaining, which is less than the minimum of 300 s. *)
Lemma getValidToken_returns_short_lived_refreshed_token :
  let run := TokenManager.getValidToken (RT := demo_runtime)
               short_lived_remote stale_world in
  fst run = Returned token_1060 /\
  trace (snd run) = [EvRefresh "r1"] /\
  TokenManager.secondsRemaining
    (TokenManager.decodeJwtExp (RT := demo_runtime) (Some token_1060))
    (clock_ms (snd run)) = Some 60%Q /\
  TokenManager.ts_secondsRemaining (access_state (RT := demo_runtime) (snd run))
  = Some 60%Q /\
  TokenManager.isExpiringSoon (access_state (RT := demo_runtime) (snd run))
  = Some true /\
  ~ (TokenManager.ACCESS_MIN_VALIDITY_SECONDS <= 60)%Q.
Proof.
  cbv zeta. repeat split; try reflexivity.
  intro H. vm_compute in H. apply H. reflexivity.
Qed.

(** C3, as amended, on the same run. *)
Lemma getValidToken_validity_stale_world :
  exists w' : World,
    TokenManager.getValidToken (RT := demo_runtime) short_lived_remote stale_world
    = (Returned token_1060, w') /\
    TokenManager.ts_secondsRemaining (access_state (RT := demo_runtime) w')
    = Some (1060 - inject_Z (1000000 / 1000))%Q.
Proof.
  exists (snd (TokenManager.getValidToken (RT := demo_runtime)
                 short_lived_remote stale_world)).
  assert (Hrun : TokenManager.getValidToken (RT := demo_runtime)
                   short_lived_remote stale_world
                 = (Returned token_1060,
                    snd (TokenManager.getValidToken (RT := demo_runtime)
                           short_lived_remote stale_world)))
    by (vm_compute; reflexivity).
  split; [exact Hrun |].
  destruct (@getValidToken_validity_of_returned_token demo_runtime
              short_lived_remote stale_world token_1060 _ Hrun)
    as [[H _] | [s [rc [p [_ [_ [_ [_ [_ [_ [_ H]]]]]]]]]]].
  - vm_compute in H. discriminate H.
  - apply (H 1060%Q); [reflexivity | discriminate].
Defined.

(** C4 on a bundle with an expired token: without a refresh token, and
    with one that the endpoint refuses. *)
Lemma getValidToken_stale_worlds_fail :
  (exists e : JsError,
     TokenManager.getValidToken (RT := demo_runtime) refusing_remote stranded_world
     = (Thrown e, stranded_world) /\ AuthExpired e)
  /\
  (exists (e : JsError) (w' : World),
     TokenManager.getValidToken (RT := demo_runtime) refusing_remote stale_world
     = (Thrown e, w') /\ AuthExpired e /\ trace w' = [EvRefresh "r1"]).
Proof.
  split.
  - destruct (@getValidToken_fails_AuthExpired_without_retry demo_runtime
                refusing_remote stranded_world
                (mkSession [demo_cookie "access_token_ccr" token_900 (Some (-1)%Q)])
                eq_refl) as [Hno _].
    + intros [_ [r [Hr Hlt]]]. injection Hr as <-. vm_compute in Hlt. discriminate.
    + destruct (Hno I) as [e [Hrun [Hauth _]]]. exists e. split; assumption.
  - destruct (@getValidToken_fails_AuthExpired_without_retry demo_runtime
                refusing_remote stale_world
                (mkSession [demo_cookie "access_token_ccr" token_900 (Some (-1)%Q);
                            demo_cookie "refresh_token" "r1" (Some (-1)%Q)])
                eq_refl) as [_ Hrefused].
    + intros [_ [r [Hr Hlt]]]. injection Hr as <-. vm_compute in Hlt. discriminate.
    + destruct (Hrefused (demo_cookie "refresh_token" "r1" (Some (-1)%Q)) eq_refl)
        as [e [w' [Hrun [Hauth [Htr _]]]]].
      * discriminate.
      * left. discriminate.
      * exists e, w'. repeat split; assumption.
Defined.

(** ** Loops *)

Lemma for_range_nil (lo hi : Z) : hi < lo -> for_range lo hi = [].
Proof.
  intro H. unfold for_range.
  replace (Z.to_nat (hi - lo + 1)) with 0%nat by lia. reflexivity.
Qed.

Lemma for_range_cons (lo hi : Z) :
  lo <= hi -> for_range lo hi = lo :: for_range (lo + 1) hi.
Proof.
  intro H. unfold for_range.
  replace (Z.to_nat (hi - lo + 1)) with (S (Z.to_nat (hi - (lo + 1) + 1))) by lia.
  cbn [seq List.map]. f_equal; [lia |].
  rewrite <- seq_shift, map_map. apply map_ext. intro k. lia.
Qed.

Lemma for_range_length (lo hi : Z) :
  List.length (for_range lo hi) = Z.to_nat (hi - lo + 1).
Proof. unfold for_range. rewrite length_map, length_seq. reflexivity. Qed.

(** The loop variable of [for (i = lo; i <= hi; i += 1)] takes exactly
    the values from [lo] to [hi]. *)
Lemma in_for_range (lo hi i : Z) : In i (for_range lo hi) <-> lo <= i <= hi.
Proof.
  unfold for_range. rewrite in_map_iff. split.
  - intros [k [<- Hk]]. apply in_seq in Hk. lia.
  - intro H. exists (Z.to_nat (i - lo)). split; [lia |].
    apply in_seq. lia.
Qed.

(** The loop variable of [for (start = 0; start < len; start += step)]
    takes exactly the multiples of [step] below [len]. *)
Lemma in_for_steps (len step start : nat) :
  (0 < step)%nat ->
  (In start (for_steps len step)
   <-> (start < len)%nat /\ exists k : nat, start = (k * step)%nat).
Proof.
  intro Hstep. unfold for_steps. rewrite in_map_iff. split.
  - intros [k [<- Hk]]. apply in_seq in Hk. split; [| exists k; reflexivity].
    destruct Hk as [_ Hk]. cbn in Hk.
    assert (Hle : (S k <= (len + step - 1) / step)%nat) by lia.
    pose proof (Nat.Div0.mul_div_le (len + step - 1) step) as Hmul.
    nia.
  - intros [Hlt [k ->]]. exists k. split; [reflexivity |].
    apply in_seq. split; [lia |]. cbn.
    assert (Hle : (S k <= (len + step - 1) / step)%nat)
      by (apply Nat.div_le_lower_bound; [lia | nia]).
    lia.
Qed.

(** ** The request executor of the scraper *)

Section ExecutorProperties.

Context {RT : Runtime} (remote : Remote).

(** A retryable reply makes [requestOpportunities] throw an error that
    the retry loop neither rethrows at once nor takes as final. *)
Lemma search_outcome_retryable (reply : HttpReply SearchResponse) :
  retryable (reply_class reply) = true ->
  exists e : JsError,
    Scraper.search_outcome reply = Thrown e /\
    instanceof_TokenExpiredError e = false /\
    Enricher.statusCode_is e 400 = false /\
    Enricher.isRetryable e = true.
Proof.
  destruct reply as [st data json | | c why]; cbn.
  - destruct (Z.eqb_spec st 200) as [-> | H200].
    + destruct json; discriminate.
    + destruct (Z.eqb_spec st 401) as [-> | H401]; [discriminate |].
      destruct (Z.eqb_spec st 400) as [-> | H400]; [discriminate |].
      destruct ((500 <=? st) && (st <? 600)) eqn:E; [| discriminate].
      intros _. eexists. split; [reflexivity |].
      unfold Enricher.statusCode_is, Enricher.isRetryable, Enricher.is_5xx. cbn.
      rewrite E. repeat split. apply Z.eqb_neq. exact H400.
  - intros _. eexists. repeat split.
  - intros _. eexists. repeat split.
Qed.

(** Any other reply settles the request: a value, or an error that the
    retry loop rethrows. *)
Lemma search_outcome_final (reply : HttpReply SearchResponse) :
  retryable (reply_class reply) = false ->
  (exists v, Scraper.search_outcome reply = Returned v) \/
  (exists e : JsError,
     Scraper.search_outcome reply = Thrown e /\
     (instanceof_TokenExpiredError e = true \/
      Enricher.statusCode_is e 400 = true \/
      Enricher.isRetryable e = false)).
Proof.
  destruct reply as [st data json | | c why]; cbn; try discriminate.
  destruct (Z.eqb_spec st 200) as [-> | H200].
  - intros _. destruct json; [right | left | left]; eexists; try reflexivity.
    split; [reflexivity |]. right. right. reflexivity.
  - destruct (Z.eqb_spec st 401) as [-> | H401].
    + intros _. right. eexists. split; [reflexivity |]. left. reflexivity.
    + destruct (Z.eqb_spec st 400) as [-> | H400].
      * intros _. right. eexists. split; [reflexivity |]. right. left. reflexivity.
      * destruct ((500 <=? st) && (st <? 600)) eqn:E; [discriminate |].
        intros _. right. eexists. split; [reflexivity |]. right. right.
        unfold Enricher.isRetryable, Enricher.is_5xx. cbn. rewrite E. reflexivity.
Qed.

Lemma after_failed_attempts_0 (page attempt : Z) (w : World) :
  after_failed_attempts page attempt 0 w = w.
Proof.
  unfold after_failed_attempts. cbn. rewrite Z.add_0_r, app_nil_r.
  destruct w; reflexivity.
Qed.

(** The last attempt of the loop: whatever the request gives is the
    result. *)
Lemma fetch_attempts_last (page attempt : Z) (later : list Z) (w : World) :
  retryable (reply_class (search_api remote page (count is_search (trace w)))) = false
  \/ attempt = maxAttempts (this w) ->
  Scraper.fetch_attempts remote page (attempt :: later) w
  = (Scraper.search_outcome (search_api remote page (count is_search (trace w))),
     log (EvSearch (bearerToken (this w)) page) w).
Proof.
  intro Hlast. cbn [Scraper.fetch_attempts].
  unfold try_catch, Scraper.requestOpportunities.
  destruct (Scraper.search_outcome _) as [v | e] eqn:Hout; [reflexivity |].
  destruct (instanceof_TokenExpiredError e) eqn:Hinst; [reflexivity |].
  destruct (Enricher.statusCode_is e 400) eqn:H400; [reflexivity |].
  unfold bind, Scraper.get_this. cbn [this log].
  destruct Hlast as [Hfinal | Hmax].
  - destruct (search_outcome_final _ Hfinal) as [[v Hv] | [e' [He' Hcase]]];
      [congruence |].
    rewrite Hout in He'. injection He' as <-.
    destruct Hcase as [H | [H | H]]; try congruence.
    rewrite H. reflexivity.
  - rewrite Hmax, Z.eqb_refl, orb_true_r. reflexivity.
Qed.

(** The retry loop: [n] retryable failures, each followed by its backoff
    sleep, then one more request whose outcome is the result, either
    because it is not retryable or because the attempts are used up. *)
Lemma fetch_attempts_run (page : Z) (n : nat) :
  forall (attempt : Z) (w : World),
    1 <= attempt ->
    attempt + Z.of_nat n <= maxAttempts (this w) ->
    (forall i : nat, (i < n)%nat ->
       retryable (reply_class
                    (search_api remote page (count is_search (trace w) + i)))
       = true) ->
    retryable (reply_class
                 (search_api remote page (count is_search (trace w) + n)))
    = false
    \/ attempt + Z.of_nat n = maxAttempts (this w) ->
    Scraper.fetch_attempts remote page (for_range attempt (maxAttempts (this w))) w
    = (Scraper.search_outcome
         (search_api remote page (count is_search (trace w) + n)),
       log (EvSearch (bearerToken (this w)) page)
           (after_failed_attempts page (attempt - 1) n w)).
Proof.
  induction n as [| n IH]; intros attempt w Ha Hmax Hretry Hlast.
  - rewrite for_range_cons by lia.
    rewrite after_failed_attempts_0, Nat.add_0_r in *.
    apply fetch_attempts_last.
    destruct Hlast as [H | H]; [left; exact H | right; lia].
  - rewrite for_range_cons by lia.
    cbn [Scraper.fetch_attempts]. unfold try_catch, Scraper.requestOpportunities.
    pose proof (Hretry 0%nat ltac:(lia)) as H0. rewrite Nat.add_0_r in H0.
    destruct (search_outcome_retryable _ H0) as [e [Hout [Hinst [H400 Hre]]]].
    rewrite Hout, Hinst, H400.
    unfold bind at 1, Scraper.get_this. cbn [this log].
    rewrite Hre. cbn [negb orb].
    destruct (Z.eqb_spec attempt (maxAttempts (this w))) as [Heq | _]; [lia |].
    unfold bind at 1, sleep. cbn [this clock_ms session_json trace log].
    set (w2 := mkWorld _ _ _ _).
    assert (Hcount : count is_search (trace w2) = S (count is_search (trace w))).
    { subst w2. cbn [trace]. rewrite !count_app. cbn. lia. }
    specialize (IH (attempt + 1) w2).
    change (this w2) with (this w) in IH.
    rewrite IH; try lia.
    + rewrite Hcount. replace (S (count is_search (trace w)) + n)%nat
        with (count is_search (trace w) + S n)%nat by lia.
      f_equal. unfold after_failed_attempts, log. subst w2.
      cbn [clock_ms session_json this trace failed_attempts backoff_time].
      replace (attempt + 1 - 1) with (attempt - 1 + 1) by lia.
      unfold backoffBaseMs. f_equal; [lia |].
      rewrite <- !app_assoc. cbn [app].
      replace (2 ^ (attempt - 1) * 1000) with (1000 * 2 ^ (attempt - 1)) by lia.
      reflexivity.
    + intros i Hi. rewrite Hcount.
      replace (S (count is_search (trace w)) + i)%nat
        with (count is_search (trace w) + S i)%nat by lia.
      apply Hretry. lia.
    + rewrite Hcount.
      replace (S (count is_search (trace w)) + n)%nat
        with (count is_search (trace w) + S n)%nat by lia.
      destruct Hlast as [H | H]; [left; exact H | right; lia].
Qed.

(** [fetchOpportunities] once [getValidToken] has returned. *)
Lemma fetchOpportunities_unfold (page : Z) (w w1 : World) (tok : string) :
  TokenManager.getValidToken remote w = (Returned tok, w1) ->
  Scraper.fetchOpportunities remote page w
  = Scraper.fetch_attempts remote page (for_range 1 (maxAttempts (this w1)))
      (with_bearer tok w1).
Proof.
  intro Htok. unfold Scraper.fetchOpportunities, Scraper.ensureToken.
  unfold bind at 1. unfold bind at 1. rewrite Htok.
  unfold bind at 1, Scraper.set_bearerToken, ret, bind, Scraper.get_this.
  reflexivity.
Qed.

Lemma sleeps_app (tr tr' : list Event) : sleeps (tr ++ tr') = sleeps tr ++ sleeps tr'.
Proof. unfold sleeps. apply flat_map_app. Qed.

Lemma searched_pages_app (tr tr' : list Event) :
  searched_pages (tr ++ tr') = searched_pages tr ++ searched_pages tr'.
Proof. unfold searched_pages. apply flat_map_app. Qed.

(** The sleeps of [n] failed attempts are [backoffBaseMs * 2^i] for the
    attempt numbers [i] from [attempt] on. *)
Lemma sleeps_failed_attempts (bearer : option string) (page : Z) (n : nat) :
  forall attempt : Z,
    sleeps (failed_attempts bearer page attempt n)
    = List.map (fun i => backoffBaseMs * 2 ^ (attempt + Z.of_nat i)) (seq 0 n).
Proof.
  induction n as [| n IH]; intro attempt; [reflexivity |].
  cbn [failed_attempts seq List.map]. cbn [sleeps flat_map app].
  fold (sleeps (failed_attempts bearer page (attempt + 1) n)).
  rewrite IH, Z.add_0_r. f_equal.
  rewrite <- seq_shift, map_map. apply map_ext. intro i.
  f_equal. f_equal. lia.
Qed.

Lemma count_search_failed_attempts (bearer : option string) (page : Z) (n : nat) :
  forall attempt : Z,
    count is_search (failed_attempts bearer page attempt n) = n.
Proof.
  induction n as [| n IH]; intro attempt; [reflexivity |].
  cbn [failed_attempts]. unfold count in *. cbn. rewrite IH. reflexivity.
Qed.

(** [fetchOpportunities] with a usable token: [n] retryable failures
    with their backoff sleeps, then the request that settles the call. *)
Lemma fetchOpportunities_run (page : Z) (n : nat) (w w1 : World) (tok : string) :
  TokenManager.getValidToken remote w = (Returned tok, w1) ->
  1 + Z.of_nat n <= maxAttempts (this w1) ->
  (forall i : nat, (i < n)%nat ->
     retryable (reply_class
                  (search_api remote page (count is_search (trace w1) + i)))
     = true) ->
  retryable (reply_class
               (search_api remote page (count is_search (trace w1) + n)))
  = false
  \/ 1 + Z.of_nat n = maxAttempts (this w1) ->
  exists w' : World,
    Scraper.fetchOpportunities remote page w
    = (Scraper.search_outcome
         (search_api remote page (count is_search (trace w1) + n)), w') /\
    trace w' = trace w1 ++ failed_attempts (Some tok) page 0 n
                        ++ [EvSearch (Some tok) page] /\
    clock_ms w' = clock_ms w1 + backoff_time 0 n /\
    session_json w' = session_json w1 /\
    this w' = this (with_bearer tok w1).
Proof.
  intros Htok Hmax Hretry Hlast.
  rewrite (@fetchOpportunities_unfold page w w1 tok Htok).
  change (maxAttempts (this w1)) with (maxAttempts (this (with_bearer tok w1))).
  rewrite (@fetch_attempts_run page n 1 (with_bearer tok w1));
    try assumption; try lia.
  eexists. split; [reflexivity |].
  cbn [trace clock_ms session_json this log after_failed_attempts with_bearer
       bearerToken].
  rewrite <- app_assoc. repeat split.
Qed.

Lemma trace_counts (w1 w' : World) (tok : string) (page : Z) (n : nat) :
  trace w' = trace w1 ++ failed_attempts (Some tok) page 0 n
                      ++ [EvSearch (Some tok) page] ->
  sleeps (trace w')
  = sleeps (trace w1)
    ++ List.map (fun i => backoffBaseMs * 2 ^ Z.of_nat i) (seq 0 n) /\
  count is_search (trace w') = (count is_search (trace w1) + n + 1)%nat.
Proof.
  intro Htr. rewrite Htr. split.
  - rewrite !sleeps_app, sleeps_failed_attempts. cbn [sleeps flat_map app].
    rewrite app_nil_r. reflexivity.
  - rewrite !count_app, count_search_failed_attempts. cbn. lia.
Qed.

(** C5. A request with retry budget [maxRetries] (the scraper's
    [maxAttempts - 1]) retries retryable failures (5xx, timeout,
    connection error) with backoff sleeps of [backoffBaseMs * 2^attempt],
    attempts counted from 0, until a reply settles it; when every attempt
    fails that way it makes [maxRetries + 1] attempts and throws the last
    failure, so three 503 replies with [maxRetries = 2] give exactly
    three attempts; a fatal failure (400, 401, parse error) is thrown at
    once, after one attempt and no sleep. *)
Theorem fetchOpportunities_retries_with_backoff :
  forall (w w1 : World) (tok : string) (page : Z),
    TokenManager.getValidToken remote w = (Returned tok, w1) ->
    let maxRetries := maxAttempts (this w1) - 1 in
    let reply := fun i : nat =>
      search_api remote page (count is_search (trace w1) + i) in
    0 <= maxRetries ->
    (forall n : nat,
       Z.of_nat n <= maxRetries ->
       (forall i : nat, (i < n)%nat -> retryable (reply_class (reply i)) = true) ->
       retryable (reply_class (reply n)) = false ->
       exists w' : World,
         Scraper.fetchOpportunities remote page w
         = (Scraper.search_outcome (reply n), w') /\
         trace w' = trace w1 ++ failed_attempts (Some tok) page 0 n
                             ++ [EvSearch (Some tok) page] /\
         sleeps (trace w')
         = sleeps (trace w1)
           ++ List.map (fun i => backoffBaseMs * 2 ^ Z.of_nat i) (seq 0 n) /\
         count is_search (trace w') = (count is_search (trace w1) + n + 1)%nat)
    /\
    ((forall i : nat, (i <= Z.to_nat maxRetries)%nat ->
        retryable (reply_class (reply i)) = true) ->
     exists (e : JsError) (w' : World),
       Scraper.fetchOpportunities remote page w = (Thrown e, w') /\
       Scraper.search_outcome (reply (Z.to_nat maxRetries)) = Thrown e /\
       sleeps (trace w')
       = sleeps (trace w1)
         ++ List.map (fun i => backoffBaseMs * 2 ^ Z.of_nat i)
                     (seq 0 (Z.to_nat maxRetries)) /\
       count is_search (trace w')
       = (count is_search (trace w1) + Z.to_nat maxRetries + 1)%nat)
    /\
    (maxRetries = 2 ->
     (forall i : nat, (i < 3)%nat ->
        exists data json, reply i = Replied 503 data json) ->
     exists (e : JsError) (w' : World),
       Scraper.fetchOpportunities remote page w = (Thrown e, w') /\
       Scraper.search_outcome (reply 2%nat) = Thrown e /\
       err_statusCode e = Some 503 /\
       trace w' = trace w1 ++ [EvSearch (Some tok) page; EvSleep 1000;
                               EvSearch (Some tok) page; EvSleep 2000;
                               EvSearch (Some tok) page])
    /\
    (match reply_class (reply 0%nat) with
     | FatalClient | FatalAuth | FatalParse => True
     | _ => False
     end ->
     exists (e : JsError) (w' : World),
       Scraper.fetchOpportunities remote page w = (Thrown e, w') /\
       Scraper.search_outcome (reply 0%nat) = Thrown e /\
       trace w' = trace w1 ++ [EvSearch (Some tok) page] /\
       clock_ms w' = clock_ms w1).
Proof.
  intros w w1 tok page Htok maxRetries reply Hbudget.
  subst maxRetries. split; [| split; [| split]].
  - intros n Hn Hretry Hfinal.
    destruct (@fetchOpportunities_run page n w w1 tok Htok ltac:(lia) Hretry
                (or_introl Hfinal)) as [w' [Hrun [Htr _]]].
    exists w'. split; [exact Hrun |]. split; [exact Htr |].
    apply (@trace_counts _ _ _ _ _ Htr).
  - intro Hall.
    remember (Z.to_nat (maxAttempts (this w1) - 1)) as m eqn:Hm.
    assert (Hm' : Z.of_nat m = maxAttempts (this w1) - 1) by lia.
    destruct (@fetchOpportunities_run page m w w1 tok Htok ltac:(lia)
                ltac:(intros i Hi; apply Hall; lia)
                ltac:(right; lia)) as [w' [Hrun [Htr _]]].
    destruct (@search_outcome_retryable _ (Hall m (Nat.le_refl m)))
      as [e [Hout _]].
    exists e, w'. fold (reply m) in Hrun. rewrite Hout in Hrun.
    split; [exact Hrun |]. split; [exact Hout |].
    apply (@trace_counts _ _ _ _ _ Htr).
  - intros H2 H503.
    assert (Hall : forall i : nat, (i < 3)%nat ->
                     retryable (reply_class (reply i)) = true).
    { intros i Hi. destruct (H503 i Hi) as [data [json ->]]. reflexivity. }
    destruct (@fetchOpportunities_run page 2 w w1 tok Htok ltac:(lia)
                ltac:(intros i Hi; apply Hall; lia)
                ltac:(right; lia)) as [w' [Hrun [Htr _]]].
    fold (reply 2%nat) in Hrun.
    destruct (H503 2%nat ltac:(lia)) as [data [json Hrep]].
    rewrite Hrep in Hrun |- *. cbn in Hrun |- *.
    eexists. exists w'. split; [exact Hrun |]. split; [reflexivity |].
    split; [reflexivity | exact Htr].
  - intro Hfatal.
    assert (Hfinal : retryable (reply_class (reply 0%nat)) = false)
      by (destruct (reply_class (reply 0%nat)); tauto).
    destruct (@fetchOpportunities_run page 0 w w1 tok Htok ltac:(lia)
                ltac:(intros i Hi; lia)
                (or_introl Hfinal)) as [w' [Hrun [Htr [Hclk _]]]].
    fold (reply 0%nat) in Hrun.
    destruct (@search_outcome_final _ Hfinal) as [[v Hv] | [e [He _]]].
    + exfalso. revert Hfatal Hv. unfold Scraper.search_outcome, reply_class.
      destruct (reply 0%nat) as [st data json | |]; try tauto.
      destruct (st =? 200); [destruct json; try tauto; discriminate |].
      destruct (st =? 401); [discriminate |]. discriminate.
    + exists e, w'. rewrite He in Hrun. cbn in Htr, Hclk.
      split; [exact Hrun |]. split; [exact He |]. split; [exact Htr | lia].
Qed.

(** A 401 reply makes [requestOpportunities] throw a
    [TokenExpiredError]. *)
Lemma search_outcome_401 (reply : HttpReply SearchResponse) :
  reply_class reply = FatalAuth ->
  exists e : JsError,
    Scraper.search_outcome reply = Thrown e /\
    instanceof_TokenExpiredError e = true.
Proof.
  destruct reply as [st data json | |]; cbn; try discriminate.
  destruct (st =? 200); [destruct json; discriminate |].
  destruct (st =? 401); [intros _; eexists; split; reflexivity |].
  destruct (st =? 400); [discriminate |].
  destruct ((500 <=? st) && (st <? 600)); discriminate.
Qed.

(** C6. Whatever the retry budget, a 401 reply ends the retry loop at
    once: when it answers the first attempt, exactly one request is made,
    nothing is slept, and the [TokenExpiredError] (an [AuthExpired]
    failure) is thrown; when it answers a later attempt, no request
    follows it. *)
Theorem fetchOpportunities_401_is_never_retried :
  forall (w w1 : World) (tok : string) (page : Z),
    TokenManager.getValidToken remote w = (Returned tok, w1) ->
    1 <= maxAttempts (this w1) ->
    let reply := fun i : nat =>
      search_api remote page (count is_search (trace w1) + i) in
    (reply_class (reply 0%nat) = FatalAuth ->
     exists (e : JsError) (w' : World),
       Scraper.fetchOpportunities remote page w = (Thrown e, w') /\
       instanceof_TokenExpiredError e = true /\
       AuthExpired e /\
       trace w' = trace w1 ++ [EvSearch (Some tok) page] /\
       clock_ms w' = clock_ms w1)
    /\
    (forall n : nat,
       Z.of_nat n < maxAttempts (this w1) ->
       (forall i : nat, (i < n)%nat -> retryable (reply_class (reply i)) = true) ->
       reply_class (reply n) = FatalAuth ->
       exists (e : JsError) (w' : World),
         Scraper.fetchOpportunities remote page w = (Thrown e, w') /\
         instanceof_TokenExpiredError e = true /\
         AuthExpired e /\
         count is_search (trace w') = (count is_search (trace w1) + n + 1)%nat).
Proof.
  intros w w1 tok page Htok Hmax reply.
  assert (Hgen : forall n : nat,
             Z.of_nat n < maxAttempts (this w1) ->
             (forall i : nat, (i < n)%nat ->
                retryable (reply_class (reply i)) = true) ->
             reply_class (reply n) = FatalAuth ->
             exists (e : JsError) (w' : World),
               Scraper.fetchOpportunities remote page w = (Thrown e, w') /\
               instanceof_TokenExpiredError e = true /\
               AuthExpired e /\
               trace w' = trace w1 ++ failed_attempts (Some tok) page 0 n
                                   ++ [EvSearch (Some tok) page] /\
               clock_ms w' = clock_ms w1 + backoff_time 0 n).
  { intros n Hn Hretry H401.
    assert (Hfinal : retryable (reply_class (reply n)) = false)
      by (rewrite H401; reflexivity).
    destruct (@fetchOpportunities_run page n w w1 tok Htok ltac:(lia) Hretry
                (or_introl Hfinal)) as [w' [Hrun [Htr [Hclk _]]]].
    destruct (@search_outcome_401 _ H401) as [e [He Hinst]].
    fold (reply n) in Hrun. rewrite He in Hrun.
    exists e, w'. split; [exact Hrun |]. split; [exact Hinst |].
    split; [| split; assumption].
    unfold AuthExpired, requiresManualReauth.
    unfold instanceof_TokenExpiredError in Hinst.
    destruct (err_class e); congruence. }
  split.
  - intro H401.
    destruct (Hgen 0%nat ltac:(lia) ltac:(intros i Hi; lia) H401)
      as [e [w' [Hrun [Hinst [Hauth [Htr Hclk]]]]]].
    exists e, w'. cbn in Htr, Hclk. repeat split; try assumption. lia.
  - intros n Hn Hretry H401.
    destruct (Hgen n Hn Hretry H401) as [e [w' [Hrun [Hinst [Hauth [Htr _]]]]]].
    exists e, w'. repeat split; try assumption.
    apply (@trace_counts _ _ _ _ _ Htr).
Qed.

End ExecutorProperties.

(** C5 on three 503 replies with the scraper's budget of two retries. *)
Lemma fetchOpportunities_three_503 :
  exists (e : JsError) (w' : World),
    Scraper.fetchOpportunities (RT := demo_runtime) unavailable_remote 1 fresh_world
    = (Thrown e, w') /\
    Scraper.search_outcome
      (search_api unavailable_remote 1 2%nat) = Thrown e /\
    err_statusCode e = Some 503 /\
    trace w' = [EvSearch (Some token_5000) 1; EvSleep 1000;
                EvSearch (Some token_5000) 1; EvSleep 2000;
                EvSearch (Some token_5000) 1].
Proof.
  assert (Htok : TokenManager.getValidToken (RT := demo_runtime)
                   unavailable_remote fresh_world
                 = (Returned token_5000, fresh_world)) by reflexivity.
  assert (Hbudget : 0 <= maxAttempts (this fresh_world) - 1)
    by (vm_compute; discriminate).
  destruct (@fetchOpportunities_retries_with_backoff demo_runtime
              unavailable_remote fresh_world fresh_world token_5000 1
              Htok Hbudget) as [_ [_ [H503 _]]].
  apply H503.
  - reflexivity.
  - intros i _. eexists. eexists. reflexivity.
Defined.

(** C6 on a 401 reply to the first attempt. *)
Lemma fetchOpportunities_401_once :
  exists (e : JsError) (w' : World),
    Scraper.fetchOpportunities (RT := demo_runtime) unauthorized_remote 1 fresh_world
    = (Thrown e, w') /\
    instanceof_TokenExpiredError e = true /\
    AuthExpired e /\
    trace w' = [EvSearch (Some token_5000) 1] /\
    clock_ms w' = 1000000.
Proof.
  assert (Htok : TokenManager.getValidToken (RT := demo_runtime)
                   unauthorized_remote fresh_world
                 = (Returned token_5000, fresh_world)) by reflexivity.
  assert (Hmax : 1 <= maxAttempts (this fresh_world))
    by (vm_compute; discriminate).
  destruct (@fetchOpportunities_401_is_never_retried demo_runtime
              unauthorized_remote fresh_world fresh_world token_5000 1
              Htok Hmax) as [Hfirst _].
  apply Hfirst. reflexivity.
Defined.

(** ** The crawl controller *)

Section CrawlProperties.

Context {RT : Runtime} (remote : Remote).

Lemma usable_earlier (s : Session) (t t' : Z) :
  t <= t' -> usable s t' = true -> usable s t = true.
Proof.
  intro Hle. unfold usable.
  destruct (option_map value (access_cookie s)) as [tok |]; [| discriminate].
  unfold TokenManager.secondsRemaining.
  destruct (Js.or_num _ _) as [e |]; [| discriminate].
  destruct (Js.truthy_num e); [| discriminate].
  rewrite !andb_true_iff, !gtb_spec. intros [Htok Hlt]. split; [exact Htok |].
  assert (Hdiv : (inject_Z (t / 1000) <= inject_Z (t' / 1000))%Q).
  { rewrite <- Zle_Qle. apply Z.div_le_mono; lia. }
  unfold TokenManager.ACCESS_MIN_VALIDITY_SECONDS in *. lra.
Qed.

(** A page fetch with a usable token and a server that answers 200
    with the body [b]: one request, no sleep, and the parsed body is
    returned, [null] for a body [null]. *)
Lemma fetchOpportunities_ok (page : Z) (w : World) (s : Session) (c : Cookie)
    (data : string) (b : option SearchResponse) :
  session_json w = Stored s ->
  access_cookie s = Some c ->
  usable s (clock_ms w) = true ->
  1 <= maxAttempts (this w) ->
  search_api remote page (count is_search (trace w))
  = Replied 200 data (body_json b) ->
  Scraper.fetchOpportunities remote page w
  = (Returned b,
     log (EvSearch (Some (value c)) page) (with_bearer (value c) w)).
Proof.
  intros Hs Hc Hu Hmax Hrep.
  assert (Htok : TokenManager.getValidToken remote w = (Returned (value c), w)).
  { apply (@getValidToken_fast_path RT remote w s c Hs Hc Hu). }
  rewrite (@fetchOpportunities_unfold RT remote page w w (value c) Htok).
  rewrite for_range_cons by exact Hmax.
  rewrite fetch_attempts_last.
  - cbn [trace with_bearer this bearerToken]. rewrite Hrep.
    destruct b; reflexivity.
  - left. cbn [trace with_bearer]. rewrite Hrep. destruct b; reflexivity.
Qed.

(** What the prints and the file writes of [scrape] do when nothing is
    wrong with the listings and the disk. *)
Lemma print_sample_printable (o : Opportunity) (w : World) :
  printable o -> Scraper.print_sample o w = (Returned tt, w).
Proof.
  intros [[s Hs] Hc].
  unfold Scraper.print_sample, bind, Scraper.substring_of,
    Scraper.optional_substring_of.
  rewrite Hs. unfold ret.
  destruct (fechaCierre_field o); [reflexivity | reflexivity | congruence].
Qed.

Lemma for_each_returns {A : Type} (f : A -> M unit) (l : list A) (w : World) :
  Forall (fun x => f x w = (Returned tt, w)) l ->
  Scraper.for_each f l w = (Returned tt, w).
Proof.
  induction 1 as [| x l Hx _ IH]; [reflexivity |].
  cbn [Scraper.for_each]. unfold bind. rewrite Hx. exact IH.
Qed.

Lemma summary_prints (l : list Opportunity) (w : World) :
  Forall printable l ->
  Scraper.for_each
    (fun opp => Scraper.optional_substring_of "opp.fechaCierre"
                  (fechaCierre_field opp)) l w
  = (Returned tt, w).
Proof.
  intro H. apply for_each_returns.
  eapply Forall_impl; [| exact H]. cbn. intros o [_ Hc].
  unfold Scraper.optional_substring_of, ret.
  destruct (fechaCierre_field o); [reflexivity | reflexivity | congruence].
Qed.

Lemma top_ten_prints (l : list Opportunity) (w : World) :
  Forall printable l ->
  Scraper.for_each
    (fun opp => Scraper.substring_of "opp.nombre" (nombre opp))
    (firstn 10 l) w
  = (Returned tt, w).
Proof.
  intro H. apply for_each_returns.
  apply Forall_forall. intros o Ho.
  assert (Hin : In o l).
  { rewrite <- (firstn_skipn 10 l). apply in_or_app. left. exact Ho. }
  clear Ho. rename Hin into Ho.
  rewrite Forall_forall in H. destruct (H o Ho) as [[s Hs] _].
  unfold Scraper.substring_of. rewrite Hs. reflexivity.
Qed.

Lemma writeFileSync_accepted (file : ResultFile) (w : World) :
  disk_accepts_writes -> Scraper.writeFileSync file w = (Returned tt, w).
Proof. intro H. unfold Scraper.writeFileSync. rewrite H. reflexivity. Qed.

(** One iteration of the page loop, once the page has been fetched and
    its listings can be printed: the loop ends there exactly when
    [stops_crawl] holds, and otherwise goes on one second later; either
    way the items of the page are appended. *)
Lemma crawl_pages_step (page : Z) (later : list Z) (acc : list Opportunity)
    (w w1 : World) (r : SearchResponse) :
  Scraper.fetchOpportunities remote page w = (Returned (Some r), w1) ->
  Forall printable (items r) ->
  Scraper.crawl_pages remote (page :: later) acc w
  = if stops_crawl page r
    then (Returned (acc ++ items r), w1)
    else Scraper.crawl_pages remote later (acc ++ items r)
           (snd (sleep 1000 w1)).
Proof.
  intros Hfetch Hprint. cbn [Scraper.crawl_pages].
  rewrite (bind_Returned _ _ _ Hfetch).
  unfold stops_crawl, lacks_shape, items, reached_page_count in *.
  destruct (payload r) as [p |]; cbn [orb];
    [| unfold ret; rewrite app_nil_r; reflexivity].
  destruct (resultados p) as [opps |]; cbn [orb];
    [| unfold ret; rewrite app_nil_r; reflexivity].
  destruct opps as [| o opps].
  - cbn. unfold ret. rewrite app_nil_r. reflexivity.
  - cbn [List.length Nat.eqb orb].
    assert (Hsample :
              (if page =? 1 then Scraper.print_sample o else ret tt) w1
              = (Returned tt, w1)).
    { destruct (page =? 1); [| reflexivity].
      apply print_sample_printable. inversion Hprint. assumption. }
    rewrite (bind_Returned _ _ _ Hsample).
    destruct (pageCount p) as [pc |].
    + destruct (pc <=? page); reflexivity.
    + reflexivity.
Qed.

(** The page loop from [page] on, with a token that stays usable and a
    server that answers every request for a page [p] with the body
    [body p]: the pages up to the first one on which [stops_crawl] holds
    or whose body is [null], or up to [maxPages], are requested once
    each, in order; the loop ends with the items of these pages, in that
    order, or throws on the body [null]. *)
Lemma crawl_pages_run (s : Session) (c : Cookie) (maxPages : Z)
    (body : Z -> option SearchResponse) :
  (forall (page : Z) (k : nat),
     exists data : string,
       search_api remote page k = Replied 200 data (body_json (body page))) ->
  (forall (page : Z) (r : SearchResponse),
     body page = Some r -> Forall printable (items r)) ->
  forall (n : nat) (page : Z) (acc : list Opportunity) (w : World),
    session_json w = Stored s ->
    access_cookie s = Some c ->
    usable s (clock_ms w + 1000 * Z.of_nat n) = true ->
    1 <= maxAttempts (this w) ->
    page + Z.of_nat n <= maxPages ->
    (forall i : nat, (i < n)%nat ->
       exists r : SearchResponse,
         body (page + Z.of_nat i) = Some r /\
         stops_crawl (page + Z.of_nat i) r = false) ->
    (forall r : SearchResponse,
       body (page + Z.of_nat n) = Some r ->
       stops_crawl (page + Z.of_nat n) r = true
       \/ page + Z.of_nat n = maxPages) ->
    exists w' : World,
      Scraper.crawl_pages remote (for_range page maxPages) acc w
      = (match body (page + Z.of_nat n) with
         | Some _ =>
             Returned (acc ++ flat_map (fun p => items_of (body p))
                                       (for_range page (page + Z.of_nat n)))
         | None =>
             Thrown (TypeError
                       "Cannot read properties of null (reading 'payload')")
         end, w')
      /\ searched_pages (trace w')
         = searched_pages (trace w) ++ for_range page (page + Z.of_nat n)
      /\ session_json w' = session_json w
      /\ clock_ms w <= clock_ms w'.
Proof.
  intros Hsrv Hprint n.
  induction n as [| n IH]; intros page acc w Hs Hc Hu Hmax Hle Hgo Hstop.
  - rewrite Z.add_0_r in *.
    destruct (Hsrv page (count is_search (trace w))) as [data Hrep].
    pose proof (@fetchOpportunities_ok page w s c data (body page)
                  Hs Hc Hu Hmax Hrep) as Hfetch.
    rewrite (@for_range_cons page maxPages) by lia.
    rewrite (@for_range_cons page page) by lia.
    rewrite (@for_range_nil (page + 1) page) by lia.
    destruct (body page) as [r |] eqn:Hb.
    + rewrite (@crawl_pages_step page _ acc w _ r Hfetch (Hprint page r Hb)).
      cbn [flat_map]. rewrite Hb. cbn [items_of]. rewrite app_nil_r.
      destruct (stops_crawl page r) eqn:Estop.
      * eexists. split; [reflexivity |].
        cbn [trace log with_bearer session_json clock_ms].
        rewrite searched_pages_app. split; [reflexivity | split; [reflexivity | lia]].
      * destruct (Hstop r eq_refl) as [Hstop' | Hlast]; [congruence |].
        rewrite (@for_range_nil (page + 1) maxPages) by lia.
        cbn [Scraper.crawl_pages]. unfold ret.
        eexists. split; [reflexivity |].
        cbn [snd sleep trace log with_bearer session_json clock_ms].
        rewrite !searched_pages_app. cbn. rewrite app_nil_r.
        split; [reflexivity | split; [reflexivity | lia]].
    + cbn [Scraper.crawl_pages]. rewrite (bind_Returned _ _ _ Hfetch).
      eexists. split; [reflexivity |].
      cbn [trace log with_bearer session_json clock_ms].
      rewrite searched_pages_app. split; [reflexivity | split; [reflexivity | lia]].
  - destruct (Hsrv page (count is_search (trace w))) as [data Hrep].
    assert (Hu0 : usable s (clock_ms w) = true)
      by (apply (@usable_earlier s (clock_ms w)
             (clock_ms w + 1000 * Z.of_nat (S n))); [lia | exact Hu]).
    pose proof (@fetchOpportunities_ok page w s c data (body page)
                  Hs Hc Hu0 Hmax Hrep) as Hfetch.
    destruct (Hgo 0%nat ltac:(lia)) as [r [Hb Hgo0]].
    rewrite Z.add_0_r in Hb, Hgo0. rewrite Hb in Hfetch.
    rewrite (@for_range_cons page maxPages) by lia.
    rewrite (@crawl_pages_step page _ acc w _ r Hfetch (Hprint page r Hb)).
    rewrite Hgo0.
    set (w2 := snd (sleep 1000 _)).
    destruct (IH (page + 1) (acc ++ items r) w2)
      as [w' [Hrun [Htr [Hsess Hclock]]]].
    + exact Hs.
    + exact Hc.
    + subst w2. cbn [snd sleep clock_ms log with_bearer].
      replace (clock_ms w + 1000 + 1000 * Z.of_nat n)
        with (clock_ms w + 1000 * Z.of_nat (S n)) by lia.
      exact Hu.
    + exact Hmax.
    + lia.
    + intros i Hi.
      replace (page + 1 + Z.of_nat i) with (page + Z.of_nat (S i)) by lia.
      apply Hgo. lia.
    + replace (page + 1 + Z.of_nat n) with (page + Z.of_nat (S n)) by lia.
      exact Hstop.
    + replace (page + 1 + Z.of_nat n) with (page + Z.of_nat (S n)) in * by lia.
      exists w'. split; [| split; [| split]].
      * rewrite Hrun.
        rewrite (@for_range_cons page (page + Z.of_nat (S n))) by lia.
        cbn [flat_map]. rewrite Hb. cbn [items_of]. rewrite <- app_assoc.
        reflexivity.
      * rewrite Htr. subst w2. cbn [snd sleep trace log with_bearer].
        rewrite !searched_pages_app. cbn [searched_pages flat_map app].
        rewrite (@for_range_cons page (page + Z.of_nat (S n))) by lia.
        rewrite <- !app_assoc. reflexivity.
      * rewrite Hsess. subst w2. reflexivity.
      * subst w2. cbn [snd sleep clock_ms log with_bearer] in Hclock. lia.
Qed.

Lemma flat_map_all_printable (body : Z -> option SearchResponse)
    (pages : list Z) :
  (forall (page : Z) (r : SearchResponse),
     body page = Some r -> Forall printable (items r)) ->
  Forall printable (flat_map (fun p => items_of (body p)) pages).
Proof.
  intro Hprint. induction pages as [| p pages IH]; [constructor |].
  cbn [flat_map]. apply Forall_app. split; [| exact IH].
  destruct (body p) as [r |] eqn:Hb; [| constructor].
  exact (Hprint p r Hb).
Qed.

(** C7. What [scrape] does with a token that stays usable, a disk that
    takes the files, listings that can be printed and a server that
    answers each request for a page [p] with a 200 whose body is
    [body p].  It requests the pages 1, 2, ... once each, in order, up to
    the first page [n] whose body lacks [payload] or [resultados], has no
    items, or whose number has reached the reported page count, or whose
    body is [null], and at most up to [maxPages].  When the body of page
    [n] is an object the run returns the items of the pages in the order
    the server returned them.  When it is [null] the run does not end as
    it does for a missing [payload]: it throws an error that is not an
    authentication error, for which the command line exits with
    code 1. *)
Theorem scrape_requests_pages_until_stop :
  forall (w : World) (s : Session) (c : Cookie) (maxPages : Z)
         (body : Z -> option SearchResponse) (n : Z),
    session_json w = Stored s ->
    access_cookie s = Some c ->
    has_min_validity (later (1000 * maxPages) w) ->
    1 <= maxAttempts (this w) ->
    disk_accepts_writes ->
    (forall (page : Z) (k : nat),
       exists data : string,
         search_api remote page k = Replied 200 data (body_json (body page))) ->
    (forall (page : Z) (r : SearchResponse),
       body page = Some r -> Forall printable (items r)) ->
    1 <= n <= maxPages ->
    (forall page : Z, 1 <= page < n ->
       exists r : SearchResponse,
         body page = Some r /\ stops_crawl page r = false) ->
    (forall r : SearchResponse,
       body n = Some r -> stops_crawl n r = true \/ n = maxPages) ->
    exists w' : World,
      searched_pages (trace w') = searched_pages (trace w) ++ for_range 1 n /\
      match body n with
      | Some _ =>
          Scraper.scrape remote maxPages false w
          = (Returned (flat_map (fun page => items_of (body page))
                                (for_range 1 n)), w')
      | None =>
          exists e : JsError,
            Scraper.scrape remote maxPages false w = (Thrown e, w') /\
            requiresManualReauth e = false /\
            Scraper.exit_code (fst (Scraper.scrape remote maxPages false w)) = 1
      end.
Proof.
  intros w s c maxPages body n Hs Hc Hv Hmax Hdisk Hsrv Hprint Hn Hgo Hstop.
  assert (Hu : usable s (clock_ms w + 1000 * maxPages) = true).
  { apply (usable_iff_has_min_validity (later (1000 * maxPages) w) Hs). exact Hv. }
  assert (Hu0 : usable s (clock_ms w) = true)
    by (apply (@usable_earlier s (clock_ms w)
             (clock_ms w + 1000 * maxPages)); [lia | exact Hu]).
  pose proof (@getValidToken_fast_path RT remote w s c Hs Hc Hu0) as Htok.
  destruct (@crawl_pages_run s c maxPages body Hsrv Hprint (Z.to_nat (n - 1)) 1 []
              (with_bearer (value c) w)) as [w' [Hrun [Htr _]]].
  - exact Hs.
  - exact Hc.
  - cbn [clock_ms with_bearer].
    apply (@usable_earlier s (clock_ms w + 1000 * Z.of_nat (Z.to_nat (n - 1)))
             (clock_ms w + 1000 * maxPages)); [lia | exact Hu].
  - exact Hmax.
  - lia.
  - intros i Hi. apply Hgo. lia.
  - replace (1 + Z.of_nat (Z.to_nat (n - 1))) with n by lia. exact Hstop.
  - replace (1 + Z.of_nat (Z.to_nat (n - 1))) with n in * by lia.
    cbn [app] in Hrun.
    assert (Hscrape :
              Scraper.scrape remote maxPages false w
              = (match body n with
                 | Some _ =>
                     Returned (flat_map (fun page => items_of (body page))
                                        (for_range 1 n))
                 | None =>
                     Thrown (TypeError
                               "Cannot read properties of null (reading 'payload')")
                 end, w')).
    { unfold Scraper.scrape, Scraper.ensureToken.
      unfold bind at 1. unfold bind at 1. rewrite Htok.
      unfold bind at 1, Scraper.set_bearerToken, ret.
      fold (with_bearer (value c) w).
      unfold bind at 1. rewrite Hrun.
      destruct (body n) as [r |] eqn:Hb; [| reflexivity].
      pose proof (flat_map_all_printable body (for_range 1 n) Hprint) as Hall.
      unfold Scraper.write_results, bind. cbv beta.
      rewrite (writeFileSync_accepted DataFile w' Hdisk).
      rewrite (summary_prints w' Hall).
      rewrite (writeFileSync_accepted SummaryFile w' Hdisk).
      unfold ret. rewrite (top_ten_prints w' Hall).
      reflexivity. }
    exists w'. split; [exact Htr |]. rewrite Hscrape.
    destruct (body n); [reflexivity |].
    eexists. split; [reflexivity |]. split; reflexivity.
Qed.

End CrawlProperties.

(** C7 on a crawl with [maxPages = 10] of a server that reports three
    pages: exactly the pages 1, 2 and 3 are requested. *)
Lemma scrape_three_of_ten_pages :
  exists w' : World,
    searched_pages (trace w') = [1; 2; 3] /\
    Scraper.scrape (RT := demo_runtime) paged_remote 10 false fresh_world
    = (Returned [demo_page_item 1; demo_page_item 2; demo_page_item 3], w').
Proof.
  apply (@scrape_requests_pages_until_stop demo_runtime paged_remote fresh_world
           (mkSession [demo_cookie "access_token_ccr" token_5000 (Some (-1)%Q);
                       demo_cookie "refresh_token" "r1" (Some (-1)%Q)])
           (demo_cookie "access_token_ccr" token_5000 (Some (-1)%Q))
           10 (fun page => Some (demo_page page)) 3).
  - reflexivity.
  - reflexivity.
  - split; [reflexivity |]. exists 3990%Q. split; reflexivity.
  - vm_compute. discriminate.
  - intros file t. reflexivity.
  - intros page k. eexists. reflexivity.
  - intros page r Hr. injection Hr as <-. constructor; [| constructor].
    split; [eexists; reflexivity | discriminate].
  - lia.
  - intros page Hp. eexists. split; [reflexivity |].
    assert (Hcases : page = 1 \/ page = 2) by lia.
    destruct Hcases as [-> | ->]; reflexivity.
  - intros r Hr. injection Hr as <-. left. reflexivity.
Defined.

(** C7 fails on a body [null]: the server answers page 1 with a page of
    items and page 2 with a 200 whose body is [null], a response without
    the payload shape.  The run does not end with the items of page 1: it
    throws after the request for page 2, and the command line exits with
    code 1. *)
Lemma scrape_throws_on_null_body :
  let run := Scraper.scrape (RT := demo_runtime) null_page_remote 10 false
               fresh_world in
  (exists data : string,
     search_api null_page_remote 2 1 = Replied 200 data ParsedNull) /\
  fst run
  = Thrown (TypeError "Cannot read properties of null (reading 'payload')") /\
  Scraper.exit_code (fst run) = 1 /\
  searched_pages (trace (snd run)) = [1; 2].
Proof.
  cbv zeta. split; [eexists; reflexivity |].
  split; [reflexivity |]. split; reflexivity.
Qed.

(** A listing without [nombre] as first listing of page 1 ends the run
    the same way: the sample print throws, and the command line exits
    with code 1 after the one request. *)
Lemma scrape_throws_on_listing_without_nombre :
  let run := Scraper.scrape (RT := demo_runtime) unnamed_listing_remote 10 false
               fresh_world in
  (exists e : JsError, fst run = Thrown e) /\
  Scraper.exit_code (fst run) = 1 /\
  searched_pages (trace (snd run)) = [1].
Proof.
  cbv zeta. split; [eexists; reflexivity |]. split; reflexivity.
Qed.

(** ** The request executor of the enricher *)

Section DetailExecutorProperties.

Context (remote : Remote).

Variable code bearer : string.
Variable timeoutMs maxRetries : Z.

Lemma detail_outcome_retryable (reply : HttpReply DetailResponse) :
  retryable (reply_class reply) = true ->
  exists e : JsError,
    Enricher.detail_outcome code timeoutMs reply = Thrown e /\
    instanceof_TokenExpiredError e = false /\
    Enricher.statusCode_is e 400 = false /\
    Enricher.statusCode_is e 401 = false /\
    Enricher.isRetryable e = true.
Proof.
  destruct reply as [st data json | | c why]; cbn.
  - destruct (Z.eqb_spec st 200) as [-> | H200].
    + destruct json; discriminate.
    + destruct (Z.eqb_spec st 401) as [-> | H401]; [discriminate |].
      destruct (Z.eqb_spec st 400) as [-> | H400]; [discriminate |].
      destruct ((500 <=? st) && (st <? 600)) eqn:E; [| discriminate].
      intros _. eexists. split; [reflexivity |].
      unfold Enricher.statusCode_is, Enricher.isRetryable, Enricher.is_5xx. cbn.
      rewrite E. repeat split; apply Z.eqb_neq; assumption.
  - intros _. eexists. repeat split.
  - intros _. eexists. repeat split.
Qed.

Lemma detail_outcome_final (reply : HttpReply DetailResponse) :
  retryable (reply_class reply) = false ->
  (exists v, Enricher.detail_outcome code timeoutMs reply = Returned v) \/
  (exists e : JsError,
     Enricher.detail_outcome code timeoutMs reply = Thrown e /\
     (instanceof_TokenExpiredError e = true \/
      Enricher.statusCode_is e 400 = true \/
      Enricher.isRetryable e = false)).
Proof.
  destruct reply as [st data json | | c why]; cbn; try discriminate.
  destruct (Z.eqb_spec st 200) as [-> | H200].
  - intros _. destruct json; [right | left | left]; eexists; try reflexivity.
    split; [reflexivity |]. right. right. reflexivity.
  - destruct (Z.eqb_spec st 401) as [-> | H401].
    + intros _. right. eexists. split; [reflexivity |]. left. reflexivity.
    + destruct (Z.eqb_spec st 400) as [-> | H400].
      * intros _. right. eexists. split; [reflexivity |]. right. left. reflexivity.
      * destruct ((500 <=? st) && (st <? 600)) eqn:E; [discriminate |].
        intros _. right. eexists. split; [reflexivity |]. right. right.
        unfold Enricher.isRetryable, Enricher.is_5xx. cbn. rewrite E. reflexivity.
Qed.

Lemma detail_attempts_last (attempt : Z) (later : list Z) (w : World) :
  retryable (reply_class
               (detail_api remote code (count (is_detail_of code) (trace w))))
  = false
  \/ attempt = maxRetries ->
  Enricher.detail_attempts remote code bearer timeoutMs maxRetries
    (attempt :: later) w
  = (Enricher.detail_outcome code timeoutMs
       (detail_api remote code (count (is_detail_of code) (trace w))),
     log (EvDetail bearer code) w).
Proof.
  intro Hlast. cbn [Enricher.detail_attempts].
  unfold try_catch, Enricher.requestDetail.
  destruct (Enricher.detail_outcome _ _ _) as [v | e] eqn:Hout; [reflexivity |].
  destruct (instanceof_TokenExpiredError e) eqn:Hinst; [reflexivity |].
  destruct (Enricher.statusCode_is e 400 || Enricher.statusCode_is e 401) eqn:H40x;
    [reflexivity |].
  destruct Hlast as [Hfinal | Hmax].
  - destruct (detail_outcome_final _ Hfinal) as [[v Hv] | [e' [He' Hcase]]];
      [congruence |].
    rewrite Hout in He'. injection He' as <-.
    apply orb_false_iff in H40x. destruct H40x as [H400 _].
    destruct Hcase as [H | [H | H]]; try congruence.
    rewrite H. reflexivity.
  - rewrite Hmax, Z.eqb_refl, orb_true_r. reflexivity.
Qed.

Lemma count_detail_logged (w : World) :
  count (is_detail_of code) (trace w ++ [EvDetail bearer code])
  = S (count (is_detail_of code) (trace w)).
Proof.
  rewrite count_app. unfold count at 2. cbn. rewrite String.eqb_refl. cbn. lia.
Qed.

(** The retry loop of [requestDetailWithRetry]: [n] retryable failures,
    attempt [i] followed by a sleep of [backoffBaseMs * 2^i], then the
    request whose outcome is the result. *)
Lemma detail_attempts_run (n : nat) :
  forall (attempt : Z) (w : World),
    0 <= attempt ->
    attempt + Z.of_nat n <= maxRetries ->
    (forall i : nat, (i < n)%nat ->
       retryable (reply_class
                    (detail_api remote code
                       (count (is_detail_of code) (trace w) + i)))
       = true) ->
    retryable (reply_class
                 (detail_api remote code
                    (count (is_detail_of code) (trace w) + n)))
    = false
    \/ attempt + Z.of_nat n = maxRetries ->
    Enricher.detail_attempts remote code bearer timeoutMs maxRetries
      (for_range attempt maxRetries) w
    = (Enricher.detail_outcome code timeoutMs
         (detail_api remote code (count (is_detail_of code) (trace w) + n)),
       log (EvDetail bearer code)
           (after_failed_detail_attempts bearer code attempt n w)).
Proof.
  induction n as [| n IH]; intros attempt w Ha Hmax Hretry Hlast.
  - rewrite (@for_range_cons attempt maxRetries) by lia.
    unfold after_failed_detail_attempts. cbn [backoff_time failed_detail_attempts].
    rewrite Z.add_0_r, app_nil_r, Nat.add_0_r in *.
    replace (mkWorld (clock_ms w) (session_json w) (this w) (trace w)) with w
      by (destruct w; reflexivity).
    apply detail_attempts_last.
    destruct Hlast as [H | H]; [left; exact H | right; lia].
  - rewrite (@for_range_cons attempt maxRetries) by lia.
    cbn [Enricher.detail_attempts]. unfold try_catch, Enricher.requestDetail.
    pose proof (Hretry 0%nat ltac:(lia)) as H0. rewrite Nat.add_0_r in H0.
    destruct (detail_outcome_retryable _ H0)
      as [e [Hout [Hinst [H400 [H401 Hre]]]]].
    rewrite Hout, Hinst, H400, H401, Hre. cbn [negb orb].
    destruct (Z.eqb_spec attempt maxRetries) as [Heq | _]; [lia |].
    unfold bind at 1, Enricher.delay, sleep.
    cbn [this clock_ms session_json trace log].
    set (w2 := mkWorld _ _ _ _).
    assert (Hcount : count (is_detail_of code) (trace w2)
                     = S (count (is_detail_of code) (trace w))).
    { subst w2. cbn [trace]. rewrite count_app, count_detail_logged.
      unfold count at 2. cbn. lia. }
    rewrite (IH (attempt + 1) w2); try lia.
    + rewrite Hcount.
      replace (S (count (is_detail_of code) (trace w)) + n)%nat
        with (count (is_detail_of code) (trace w) + S n)%nat by lia.
      f_equal. unfold after_failed_detail_attempts, log. subst w2.
      cbn [clock_ms session_json this trace failed_detail_attempts backoff_time].
      unfold backoffBaseMs. f_equal; [lia |].
      rewrite <- !app_assoc. cbn [app].
      replace (2 ^ attempt * 1000) with (1000 * 2 ^ attempt) by lia.
      reflexivity.
    + intros i Hi. rewrite Hcount.
      replace (S (count (is_detail_of code) (trace w)) + i)%nat
        with (count (is_detail_of code) (trace w) + S i)%nat by lia.
      apply Hretry. lia.
    + rewrite Hcount.
      replace (S (count (is_detail_of code) (trace w)) + n)%nat
        with (count (is_detail_of code) (trace w) + S n)%nat by lia.
      destruct Hlast as [H | H]; [left; exact H | right; lia].
Qed.

(** The executor of the enricher follows the same policy as the one of
    the scraper, with [maxRetries] as its own parameter: after [n]
    retryable failures within the budget, the next reply settles the
    request if it is not retryable or if the budget is used up. *)
Theorem requestDetailWithRetry_retries_with_backoff :
  forall (n : nat) (w : World),
    0 <= maxRetries ->
    Z.of_nat n <= maxRetries ->
    (forall i : nat, (i < n)%nat ->
       retryable (reply_class
                    (detail_api remote code
                       (count (is_detail_of code) (trace w) + i)))
       = true) ->
    retryable (reply_class
                 (detail_api remote code
                    (count (is_detail_of code) (trace w) + n)))
    = false
    \/ Z.of_nat n = maxRetries ->
    exists w' : World,
      Enricher.requestDetailWithRetry remote code bearer timeoutMs maxRetries w
      = (Enricher.detail_outcome code timeoutMs
           (detail_api remote code (count (is_detail_of code) (trace w) + n)),
         w') /\
      trace w' = trace w ++ failed_detail_attempts bearer code 0 n
                         ++ [EvDetail bearer code] /\
      clock_ms w' = clock_ms w + backoff_time 0 n.
Proof.
  intros n w Hr Hn Hretry Hlast.
  unfold Enricher.requestDetailWithRetry.
  rewrite (@detail_attempts_run n 0 w); try assumption; try lia.
  eexists. split; [reflexivity |].
  cbn [trace clock_ms log after_failed_detail_attempts].
  rewrite <- app_assoc. split; reflexivity.
Qed.

End DetailExecutorProperties.

(** ** The enrichment batcher *)

Section EnrichmentProperties.

Context {RT : Runtime} (remote : Remote).

Variable bearer : string.
Variable timeoutMs maxRetries : Z.

(** [enrichSingle] never rejects. *)
Lemma enrichSingle_returns (opportunity : Opportunity) (w : World) :
  exists (v : option Enricher.Enriched) (w' : World),
    Enricher.enrichSingle remote opportunity bearer timeoutMs maxRetries w
    = (Returned v, w').
Proof.
  unfold Enricher.enrichSingle, try_catch.
  match goal with
  | |- context [match ?c w with _ => _ end] => destruct (c w) as [[v | e] w']
  end.
  - exists v, w'. reflexivity.
  - exists None, w'. reflexivity.
Qed.

(** A window of the batcher does what processing its items one by one
    does. *)
Lemma window_as_each (batch : list Opportunity) :
  forall (acc : list Enricher.Enriched) (w : World),
  exists (settled : list (Settled (option Enricher.Enriched))) (w' : World),
    allSettled
      (List.map (fun opportunity =>
                   Enricher.enrichSingle remote opportunity bearer timeoutMs
                                         maxRetries) batch) w
    = (Returned settled, w') /\
    enrich_each remote batch bearer timeoutMs maxRetries acc w
    = (Returned (acc ++ Enricher.fulfilled_values settled), w').
Proof.
  induction batch as [| o rest IH]; intros acc w.
  - exists [], w. cbn. unfold ret. rewrite app_nil_r. split; reflexivity.
  - destruct (enrichSingle_returns o w) as [v [w1 Hv]].
    destruct (IH (acc ++ match v with Some e => [e] | None => [] end) w1)
      as [settled [w' [Hall Heach]]].
    exists (Fulfilled v :: settled), w'. split.
    + cbn [List.map allSettled]. unfold bind at 1, try_catch, bind at 1.
      rewrite Hv. unfold ret at 1. unfold bind. rewrite Hall. reflexivity.
    + cbn [enrich_each]. rewrite (bind_Returned _ _ _ Hv), Heach.
      rewrite <- app_assoc. destruct v; reflexivity.
Qed.

Lemma enrich_each_returns (todo : list Opportunity) :
  forall (acc : list Enricher.Enriched) (w : World),
  exists (l : list Enricher.Enriched) (w' : World),
    enrich_each remote todo bearer timeoutMs maxRetries acc w = (Returned l, w').
Proof.
  intros acc w. destruct (window_as_each todo acc w) as [settled [w' [_ H]]].
  eexists. eexists. exact H.
Qed.

Lemma enrich_each_app (l1 l2 : list Opportunity) :
  forall (acc : list Enricher.Enriched) (w : World),
    enrich_each remote (l1 ++ l2) bearer timeoutMs maxRetries acc w
    = bind (enrich_each remote l1 bearer timeoutMs maxRetries acc)
           (fun acc' => enrich_each remote l2 bearer timeoutMs maxRetries acc') w.
Proof.
  induction l1 as [| o l1 IH]; intros acc w; [reflexivity |].
  cbn [app enrich_each].
  destruct (enrichSingle_returns o w) as [v [w1 Hv]].
  rewrite (bind_Returned _ _ _ Hv). rewrite IH.
  unfold bind at 2. rewrite (bind_Returned _ _ _ Hv). reflexivity.
Qed.

Lemma for_steps_0 (step : nat) : (0 < step)%nat -> for_steps 0 step = [].
Proof.
  intro H. unfold for_steps.
  rewrite Nat.div_small by lia. reflexivity.
Qed.

Lemma for_steps_cons (len step : nat) :
  (0 < step)%nat -> (0 < len)%nat ->
  for_steps len step
  = 0%nat :: List.map (fun s => (s + step)%nat) (for_steps (len - step) step).
Proof.
  intros Hstep Hlen. unfold for_steps.
  assert (Hdiv : ((len + step - 1) / step
                  = S ((len - step + step - 1) / step))%nat).
  { replace (len + step - 1)%nat with ((len - 1) + 1 * step)%nat by lia.
    rewrite Nat.div_add by lia.
    destruct (Nat.le_gt_cases step len) as [Hge | Hlt].
    - replace (len - step + step - 1)%nat with (len - 1)%nat by lia. lia.
    - replace (len - step + step - 1)%nat with (step - 1)%nat by lia.
      rewrite !Nat.div_small by lia. reflexivity. }
  rewrite Hdiv. cbn [seq List.map]. f_equal.
  rewrite <- seq_shift, !map_map. apply map_ext. intro k. lia.
Qed.

(** Windows that start [off] items further are the windows of the list
    without its first [off] items. *)
Lemma enrich_windows_shift (filtered : list Opportunity) (concurrency off : nat)
    (starts : list nat) :
  forall (acc : list Enricher.Enriched) (w : World),
    Enricher.enrich_windows remote filtered concurrency bearer timeoutMs
      maxRetries (List.map (fun s => (s + off)%nat) starts) acc w
    = Enricher.enrich_windows remote (skipn off filtered) concurrency bearer
        timeoutMs maxRetries starts acc w.
Proof.
  induction starts as [| start later IH]; intros acc w; [reflexivity |].
  cbn [List.map Enricher.enrich_windows]. unfold Js.slice.
  rewrite skipn_skipn.
  replace (start + off + concurrency - (start + off))%nat
    with (start + concurrency - start)%nat by lia.
  unfold bind.
  destruct (allSettled _ w) as [[settled | e] w']; [apply IH | reflexivity].
Qed.

(** The windows of the batcher process every eligible item, in input
    order, whatever happens to the items before it. *)
Lemma enrich_windows_as_each (concurrency : nat) :
  (0 < concurrency)%nat ->
  forall (n : nat) (filtered : list Opportunity)
         (acc : list Enricher.Enriched) (w : World),
    (List.length filtered <= n)%nat ->
    Enricher.enrich_windows remote filtered concurrency bearer timeoutMs
      maxRetries (for_steps (List.length filtered) concurrency) acc w
    = enrich_each remote filtered bearer timeoutMs maxRetries acc w.
Proof.
  intros Hc n. induction n as [| n IH]; intros filtered acc w Hlen.
  - destruct filtered; [| cbn in Hlen; lia].
    cbn [List.length]. rewrite for_steps_0 by exact Hc. reflexivity.
  - destruct filtered as [| o rest] eqn:Hf.
    + cbn [List.length]. rewrite for_steps_0 by exact Hc. reflexivity.
    + rewrite <- Hf in *.
      assert (Hpos : (0 < List.length filtered)%nat) by (rewrite Hf; cbn; lia).
      rewrite for_steps_cons by assumption.
      cbn [Enricher.enrich_windows]. unfold Js.slice.
      replace (0 + concurrency - 0)%nat with concurrency by lia.
      cbn [skipn].
      destruct (window_as_each (firstn concurrency filtered) acc w)
        as [settled [w' [Hall Heach]]].
      rewrite (bind_Returned _ _ _ Hall).
      rewrite enrich_windows_shift.
      replace (List.length filtered - concurrency)%nat
        with (List.length (skipn concurrency filtered))
        by (rewrite length_skipn; reflexivity).
      rewrite IH by (rewrite length_skipn; lia).
      rewrite <- (firstn_skipn concurrency filtered) at 2.
      rewrite enrich_each_app. rewrite (bind_Returned _ _ _ Heach).
      reflexivity.
Qed.

End EnrichmentProperties.

Section EnrichmentRun.

Context {RT : Runtime} (remote : Remote).

(** A 401 reply makes [requestDetail] throw a [TokenExpiredError]. *)
Lemma detail_outcome_401 (code : string) (timeoutMs : Z)
    (reply : HttpReply DetailResponse) :
  reply_class reply = FatalAuth ->
  exists e : JsError,
    Enricher.detail_outcome code timeoutMs reply = Thrown e /\
    instanceof_TokenExpiredError e = true.
Proof.
  destruct reply as [st data json | |]; cbn; try discriminate.
  destruct (st =? 200); [destruct json; discriminate |].
  destruct (st =? 401); [intros _; eexists; split; reflexivity |].
  destruct (st =? 400); [discriminate |].
  destruct ((500 <=? st) && (st <? 600)); discriminate.
Qed.

(** [enrichOpportunities] is: nothing when no item is eligible; otherwise
    one call of [getValidToken], then every eligible item in turn. *)
Lemma enrichOpportunities_unfold (opportunities : list Opportunity)
    (options : Enricher.Options) (w : World) :
  Enricher.enrichOpportunities remote opportunities options w
  = match List.filter (fun opp => Enricher.shouldEnrich opp (clock_ms w))
                      opportunities with
    | [] => (Returned [], w)
    | filtered =>
        bind (TokenManager.getValidToken remote)
             (fun bearer =>
                enrich_each remote filtered bearer (effective_timeoutMs options)
                            (effective_maxRetries options) []) w
    end.
Proof.
  unfold Enricher.enrichOpportunities.
  destruct opportunities as [| o rest] eqn:Hopps; [reflexivity |].
  rewrite <- Hopps. clear Hopps.
  unfold bind at 1, Date_now.
  fold (effective_concurrency options). fold (effective_timeoutMs options).
  fold (effective_maxRetries options).
  destruct (List.filter _ opportunities) as [| f filtered] eqn:Hf; [reflexivity |].
  unfold bind.
  destruct (TokenManager.getValidToken remote w) as [[tok | e] w1]; [| reflexivity].
  apply enrich_windows_as_each with (n := List.length (f :: filtered)).
  - unfold effective_concurrency.
    destruct (Enricher.opt_concurrency options) as [c |]; [| lia].
    destruct (Z.ltb_spec 0 c); lia.
  - apply Nat.le_refl.
Qed.

(** C1. What the code does where the claim has it abort.  When the
    detail fetch of an item fails with a 401, [requestDetail] builds a
    [TokenExpiredError] and [requestDetailWithRetry] rethrows it at once,
    without a retry; but the [catch] of [enrichSingle] catches it like
    any other error: the item is dropped and nothing is thrown.  The
    batcher goes on: once [getValidToken] has returned, the run returns
    what processing every eligible item in turn gives.  The only failure
    that aborts an enrichment run is a failure of [getValidToken] before
    the first window. *)
Theorem enrichment_drops_item_on_AuthExpired_and_goes_on :
  forall (opportunities : list Opportunity) (options : Enricher.Options)
         (w : World),
    let filtered :=
      List.filter (fun opp => Enricher.shouldEnrich opp (clock_ms w))
                  opportunities in
    (forall (opp : Opportunity) (bearer : string) (timeoutMs maxRetries : Z)
            (w0 : World),
       0 <= maxRetries ->
       reply_class (detail_api remote (codigo opp)
                      (count (is_detail_of (codigo opp)) (trace w0)))
       = FatalAuth ->
       (exists e : JsError,
          Enricher.requestDetailWithRetry remote (codigo opp) bearer timeoutMs
                                          maxRetries w0
          = (Thrown e, log (EvDetail bearer (codigo opp)) w0) /\
          instanceof_TokenExpiredError e = true /\ AuthExpired e) /\
       Enricher.enrichSingle remote opp bearer timeoutMs maxRetries w0
       = (Returned None, log (EvDetail bearer (codigo opp)) w0))
    /\
    (forall (bearer : string) (w1 : World),
       TokenManager.getValidToken remote w = (Returned bearer, w1) ->
       exists (l : list Enricher.Enriched) (w' : World),
         Enricher.enrichOpportunities remote opportunities options w
         = (Returned l, w') /\
         (filtered <> [] ->
          enrich_each remote filtered bearer (effective_timeoutMs options)
                      (effective_maxRetries options) [] w1
          = (Returned l, w')))
    /\
    (forall (e : JsError) (w' : World),
       Enricher.enrichOpportunities remote opportunities options w
       = (Thrown e, w') ->
       filtered <> [] /\
       TokenManager.getValidToken remote w = (Thrown e, w')).
Proof.
  intros opportunities options w filtered. split; [| split].
  - intros opp bearer timeoutMs maxRetries w0 Hr H401.
    destruct (@detail_outcome_401 (codigo opp) timeoutMs _ H401)
      as [e [Hout Hinst]].
    assert (Hretry :
              Enricher.requestDetailWithRetry remote (codigo opp) bearer
                timeoutMs maxRetries w0
              = (Thrown e, log (EvDetail bearer (codigo opp)) w0)).
    { unfold Enricher.requestDetailWithRetry.
      rewrite (@for_range_cons 0 maxRetries) by exact Hr.
      cbn [Enricher.detail_attempts].
      unfold try_catch, Enricher.requestDetail. rewrite Hout, Hinst.
      reflexivity. }
    split.
    + exists e. split; [exact Hretry |]. split; [exact Hinst |].
      unfold AuthExpired, requiresManualReauth.
      unfold instanceof_TokenExpiredError in Hinst.
      destruct (err_class e); congruence.
    + unfold Enricher.enrichSingle, try_catch.
      rewrite (bind_Thrown _ _ _ Hretry). reflexivity.
  - intros bearer w1 Htok.
    rewrite enrichOpportunities_unfold. fold filtered.
    destruct filtered as [| f rest] eqn:Hf.
    + exists [], w. split; [reflexivity |]. congruence.
    + rewrite (bind_Returned _ _ _ Htok).
      destruct (@enrich_each_returns remote bearer (effective_timeoutMs options)
                  (effective_maxRetries options) (f :: rest) [] w1)
        as [l [w' Hl]].
      exists l, w'. split; [exact Hl |]. intros _. exact Hl.
  - intros e w' Hrun.
    rewrite enrichOpportunities_unfold in Hrun. fold filtered in Hrun.
    destruct filtered as [| f rest] eqn:Hf; [discriminate |].
    split; [discriminate |].
    unfold bind in Hrun.
    destruct (TokenManager.getValidToken remote w) as [[tok | e1] w1] eqn:Htok.
    + destruct (@enrich_each_returns remote tok (effective_timeoutMs options)
                  (effective_maxRetries options) (f :: rest) [] w1)
        as [l [w2 Hl]].
      rewrite Hl in Hrun. discriminate.
    + injection Hrun as -> ->. reflexivity.
Qed.

End EnrichmentRun.

(** C1 as stated fails: the detail fetch of the first of two eligible
    items fails with a 401, which [requestDetail] turns into a
    [TokenExpiredError]; the run is not aborted: it drops the item, goes
    on to fetch the second one and returns it. *)
Lemma enrichOpportunities_continues_after_401 :
  let run := Enricher.enrichOpportunities (RT := demo_runtime) detail_401_remote
               [listing_A; listing_B] Enricher.no_options fresh_world in
  (exists e : JsError,
     fst (Enricher.requestDetail detail_401_remote (codigo listing_A)
            token_5000 15000 fresh_world) = Thrown e /\
     AuthExpired e /\ instanceof_TokenExpiredError e = true) /\
  fst run = Returned [Enricher.mapDetail listing_B demo_detail] /\
  trace (snd run) = [EvDetail token_5000 (codigo listing_A);
                     EvDetail token_5000 (codigo listing_B)].
Proof.
  cbv zeta. split; [| split].
  - eexists. split; [reflexivity |]. split; reflexivity.
  - reflexivity.
  - reflexivity.
Qed.

(** ** The eligibility predicate *)

Section EligibilityProperties.

Context {RT : Runtime}.

Lemma Number_is_zero_iff (x : option Q) :
  Enricher.Number_is_zero x = true <-> exists q : Q, x = Some q /\ (q == 0)%Q.
Proof.
  unfold Enricher.Number_is_zero. destruct x as [q |].
  - rewrite Qeq_bool_iff. split.
    + intro H. exists q. split; [reflexivity | exact H].
    + intros [q' [Hq H]]. injection Hq as ->. exact H.
  - split; [discriminate |]. intros [q [Hq _]]. discriminate.
Qed.

(** C8. At a fixed current time, [shouldEnrich] accepts a listing if and
    only if its own-offer count is 0, its total-offer count is 0, its
    closing timestamp parses, and the parsed closing time minus the
    current time lies in the closed interval from 0 to 72 hours; a
    listing whose date does not parse, whose closing is past, or whose
    closing is more than 72 hours away is rejected. *)
Theorem shouldEnrich_iff_no_offers_and_closes_within_72h :
  forall (opp : Opportunity) (nowMs : Z),
    (Enricher.shouldEnrich opp nowMs = true <->
     (exists own : Q, misOfertas opp = Some own /\ (own == 0)%Q) /\
     (exists total : Q, numeroOfertas opp = Some total /\ (total == 0)%Q) /\
     (exists closing : Z,
        Enricher.parseClosingDate (fechaCierre opp) = Some closing /\
        0 <= closing - nowMs <= 72 * 60 * 60 * 1000))
    /\
    (Enricher.parseClosingDate (fechaCierre opp) = None ->
     Enricher.shouldEnrich opp nowMs = false)
    /\
    (forall closing : Z,
       Enricher.parseClosingDate (fechaCierre opp) = Some closing ->
       closing < nowMs \/ nowMs + 72 * 60 * 60 * 1000 < closing ->
       Enricher.shouldEnrich opp nowMs = false).
Proof.
  intros opp nowMs.
  assert (Hiff :
    Enricher.shouldEnrich opp nowMs = true <->
    (exists own : Q, misOfertas opp = Some own /\ (own == 0)%Q) /\
    (exists total : Q, numeroOfertas opp = Some total /\ (total == 0)%Q) /\
    (exists closing : Z,
       Enricher.parseClosingDate (fechaCierre opp) = Some closing /\
       0 <= closing - nowMs <= 72 * 60 * 60 * 1000)).
  { unfold Enricher.shouldEnrich.
    rewrite <- !Number_is_zero_iff.
    destruct (Enricher.Number_is_zero (misOfertas opp));
      destruct (Enricher.Number_is_zero (numeroOfertas opp)); cbn [andb negb];
      try (split; [discriminate | intros [H1 [H2 _]]; discriminate]).
    destruct (Enricher.parseClosingDate (fechaCierre opp)) as [closing |].
    - rewrite andb_true_iff, Z.leb_le, Z.leb_le. split.
      + intro H. repeat split; try reflexivity.
        exists closing. split; [reflexivity | lia].
      + intros [_ [_ [closing' [Hc H]]]]. injection Hc as ->. lia.
    - split; [discriminate |]. intros [_ [_ [closing' [Hc _]]]]. discriminate. }
  split; [exact Hiff |]. split.
  - intro Hnone.
    destruct (Enricher.shouldEnrich opp nowMs) eqn:E; [| reflexivity].
    destruct (proj1 Hiff eq_refl) as [_ [_ [closing [Hc _]]]]. congruence.
  - intros closing Hc Hout.
    destruct (Enricher.shouldEnrich opp nowMs) eqn:E; [| reflexivity].
    destruct (proj1 Hiff eq_refl) as [_ [_ [closing' [Hc' Hin]]]].
    rewrite Hc in Hc'. injection Hc' as <-. lia.
Qed.

End EligibilityProperties.

(** The eligibility examples, at the clock of [demo_world]: no offers
    and closing in 50 hours is eligible; closing in 80 hours, closed an
    hour ago, and one own offer are not; a date in the day/month/year
    form that [new Date] refuses is parsed by the fallback; a text that is
    no date is rejected. *)
Lemma shouldEnrich_examples :
  Enricher.shouldEnrich (RT := demo_runtime)
    (demo_opportunity "c" "1970-01-03T02:16:40Z" 0 0) 1000000 = true /\
  Enricher.shouldEnrich (RT := demo_runtime)
    (demo_opportunity "c" "1970-01-04T08:16:40Z" 0 0) 1000000 = false /\
  Enricher.shouldEnrich (RT := demo_runtime)
    (demo_opportunity "c" "1969-12-31T23:16:40Z" 0 0) 1000000 = false /\
  Enricher.shouldEnrich (RT := demo_runtime)
    (demo_opportunity "c" "1970-01-01T10:16:40Z" 1 0) 1000000 = false /\
  Enricher.shouldEnrich (RT := demo_runtime)
    (demo_opportunity "c" "25/01/1970 10:16:40" 0 0) 2000000000 = true /\
  Enricher.shouldEnrich (RT := demo_runtime)
    (demo_opportunity "c" "pronto" 0 0) 1000000 = false.
Proof. repeat split; reflexivity. Qed.

(** ** The session health classifier *)

Section HealthProperties.

Context {RT : Runtime} (remote : Remote).

Variable WARN_HOURS CRIT_HOURS : Q.

Lemma Math_min_is_minimum (others : list Q) :
  forall first : Q,
    is_minimum (SessionMonitor.Math_min first others) (first :: others).
Proof.
  unfold SessionMonitor.Math_min.
  induction others as [| y others IH]; intro first.
  - cbn. split.
    + intros x [<- | []]. apply Qle_refl.
    + exists first. split; [left; reflexivity | reflexivity].
  - cbn [fold_left]. destruct (IH (Qmin first y)) as [Hle [x [Hin Heq]]].
    split.
    + intros z [<- | [<- | Hz]].
      * apply Qle_trans with (Qmin first y);
          [apply Hle; left; reflexivity | apply Q.le_min_l].
      * apply Qle_trans with (Qmin first y);
          [apply Hle; left; reflexivity | apply Q.le_min_r].
      * apply Hle. right. exact Hz.
    + destruct Hin as [<- | Hin].
      * destruct (Q.min_spec first y) as [[_ Hm] | [_ Hm]].
        -- exists first. split; [left; reflexivity |].
           rewrite Heq. exact Hm.
        -- exists y. split; [right; left; reflexivity |].
           rewrite Heq. exact Hm.
      * exists x. split; [right; right; exact Hin | exact Heq].
Qed.

(** [probeApi] resolves always; the probe is fine exactly when there is a
    token and the reply has status 200. *)
Lemma probeApi_run (tok : option string) (w : World) :
  exists (p : SessionMonitor.Probe) (w' : World),
    SessionMonitor.probeApi remote tok w = (Returned p, w') /\
    (SessionMonitor.ok p = true <->
     exists (t : string) (data : string) (json : Parse SearchResponse),
       tok = Some t /\ t <> EmptyString /\
       search_api remote 1 (count is_search (trace w)) = Replied 200 data json).
Proof.
  unfold SessionMonitor.probeApi.
  destruct tok as [t |].
  - destruct t as [| a t'].
    + eexists. eexists. split; [reflexivity |]. cbn. split; [discriminate |].
      intros [t [data [json [Ht [Hne _]]]]]. injection Ht as <-. congruence.
    + cbn [Js.truthy_string negb].
      destruct (search_api remote 1 _) as [st data json | | c why];
        (eexists; eexists; split; [reflexivity |]); cbn.
      * rewrite Z.eqb_eq. split.
        -- intros ->. exists (String a t'), data, json.
           repeat split. discriminate.
        -- intros [t [d [j [_ [_ H]]]]]. injection H as -> _ _. reflexivity.
      * split; [discriminate |]. intros [t [d [j [_ [_ H]]]]]. discriminate.
      * split; [discriminate |]. intros [t [d [j [_ [_ H]]]]]. discriminate.
  - eexists. eexists. split; [reflexivity |]. cbn. split; [discriminate |].
    intros [t [data [json [Ht _]]]]. discriminate.
Qed.

Lemma in_known_of (l : list (option Q)) (x : Q) :
  In x (SessionMonitor.known_of l) <-> In (Some x) l.
Proof.
  unfold SessionMonitor.known_of. rewrite in_flat_map. split.
  - intros [[q |] [Hin Hx]]; [| destruct Hx].
    destruct Hx as [<- | []]. exact Hin.
  - intro Hin. exists (Some x). split; [exact Hin | left; reflexivity].
Qed.

Lemma no_signal_known_of (l : list (option Q)) :
  no_signal l -> SessionMonitor.known_of l = [].
Proof.
  intro Hno. destruct (SessionMonitor.known_of l) as [| x rest] eqn:Hk;
    [reflexivity |].
  exfalso. apply (Hno x). apply in_known_of. rewrite Hk. left. reflexivity.
Qed.

(** The minimum that [classify] computes is the minimum of the
    parseable signals. *)
Lemma minimum_signal_known_of (l : list (option Q)) (m : Q) :
  minimum_signal m l ->
  exists (first : Q) (others : list Q),
    SessionMonitor.known_of l = first :: others /\
    (SessionMonitor.Math_min first others == m)%Q.
Proof.
  intros [Hle [x [Hx Hmx]]].
  destruct (SessionMonitor.known_of l) as [| first others] eqn:Hk.
  { apply in_known_of in Hx. rewrite Hk in Hx. destruct Hx. }
  exists first, others. split; [reflexivity |].
  destruct (Math_min_is_minimum others first) as [Hle0 [y [Hy Hm0y]]].
  apply Qle_antisym.
  - rewrite Hmx. apply Hle0. rewrite <- Hk. apply in_known_of. exact Hx.
  - rewrite Hm0y. apply Hle. apply in_known_of. rewrite Hk. exact Hy.
Qed.

Lemma leb_compat (x y t : Q) : (x == y)%Q -> Js.leb x t = Js.leb y t.
Proof.
  intro Hxy. destruct (Js.leb y t) eqn:E.
  - apply leb_spec. apply leb_spec in E. rewrite Hxy. exact E.
  - apply leb_false. apply leb_false in E. rewrite Hxy. exact E.
Qed.

(** The token the probe sends is the value of the first record that has
    one of the two names of the access token. *)
Lemma find_first_access_value (cs : list Cookie) :
  match Js.find (fun c => String.eqb (name c) "access_token_ccr"
                          || String.eqb (name c) "access_token") cs with
  | Some c => first_access_value cs (value c)
  | None => True
  end.
Proof.
  unfold Js.find. induction cs as [| c cs IH]; [exact I |].
  cbn [List.find].
  destruct (String.eqb (name c) "access_token_ccr"
            || String.eqb (name c) "access_token") eqn:Hc.
  - exists [], c, cs. split; [reflexivity |].
    split; [intros b [] |]. split; [| reflexivity].
    apply orb_true_iff in Hc. destruct Hc as [H | H];
      apply String.eqb_eq in H; [left | right]; exact H.
  - destruct (List.find _ cs) as [c' |]; [| exact I].
    destruct IH as [before [c0 [after [Hcs [Hbefore [Hacc Hval]]]]]].
    exists (c :: before), c0, after. split; [rewrite Hcs; reflexivity |].
    split; [| split; assumption].
    intros b [<- | Hb]; [| apply Hbefore; exact Hb].
    apply orb_false_iff in Hc. destruct Hc as [H1 H2].
    apply String.eqb_neq in H1, H2. intros [H | H]; contradiction.
Qed.

(** C9. [classify] returns CRITICAL (code 2) when the minimum of the
    parseable signals is at most 0 or at most [CRIT_HOURS], WARN
    (code 1) when it is otherwise at most [WARN_HOURS], and OK (code 0)
    otherwise; when no signal is parseable the verdict is WARN (code 1).
    In [main], when the probe is enabled and fails (no token to send,
    a status other than 200, a timeout or a connection error) the
    verdict is CRITICAL (code 2) whatever the signals say. *)
Theorem classify_thresholds_and_probe_override :
  forall hoursLeftList : list (option Q),
    (no_signal hoursLeftList ->
     SessionMonitor.level (SessionMonitor.classify WARN_HOURS CRIT_HOURS hoursLeftList)
     = SessionMonitor.WARN /\
     SessionMonitor.code (SessionMonitor.classify WARN_HOURS CRIT_HOURS hoursLeftList)
     = 1)
    /\
    (forall minHours : Q,
       minimum_signal minHours hoursLeftList ->
       let verdict := SessionMonitor.classify WARN_HOURS CRIT_HOURS hoursLeftList in
       ((minHours <= 0 \/ minHours <= CRIT_HOURS)%Q ->
        SessionMonitor.level verdict = SessionMonitor.CRITICAL /\
        SessionMonitor.code verdict = 2) /\
       (~ (minHours <= 0 \/ minHours <= CRIT_HOURS)%Q ->
        (minHours <= WARN_HOURS)%Q ->
        SessionMonitor.level verdict = SessionMonitor.WARN /\
        SessionMonitor.code verdict = 1) /\
       (~ (minHours <= 0 \/ minHours <= CRIT_HOURS)%Q ->
        ~ (minHours <= WARN_HOURS)%Q ->
        SessionMonitor.level verdict = SessionMonitor.OK /\
        SessionMonitor.code verdict = 0))
    /\
    (forall (w : World) (s : Session),
       session_json w = Stored s ->
       probe_fails remote (cookies s) (trace w) ->
       exists (verdict : SessionMonitor.Verdict) (w' : World),
         SessionMonitor.main remote WARN_HOURS CRIT_HOURS true w
         = (Returned verdict, w') /\
         SessionMonitor.level verdict = SessionMonitor.CRITICAL /\
         SessionMonitor.code verdict = 2).
Proof.
  intro hoursLeftList. split; [| split].
  - intro Hnone. unfold SessionMonitor.classify.
    rewrite (no_signal_known_of Hnone). split; reflexivity.
  - intros minHours Hmin.
    destruct (minimum_signal_known_of Hmin) as [first [others [Hknown Hm]]].
    cbv zeta. unfold SessionMonitor.classify. rewrite Hknown. cbv zeta.
    rewrite !(leb_compat _ Hm).
    destruct (Js.leb minHours 0) eqn:E0.
    + apply leb_spec in E0.
      split; [| split]; intros; first [split; reflexivity | exfalso; tauto].
    + apply leb_false in E0. apply Qlt_not_le in E0.
      destruct (Js.leb minHours CRIT_HOURS) eqn:Ec.
      * apply leb_spec in Ec.
        split; [| split]; intros; first [split; reflexivity | exfalso; tauto].
      * apply leb_false in Ec. apply Qlt_not_le in Ec.
        destruct (Js.leb minHours WARN_HOURS) eqn:Ew.
        -- apply leb_spec in Ew.
           split; [| split]; intros; first [split; reflexivity | exfalso; tauto].
        -- apply leb_false in Ew. apply Qlt_not_le in Ew.
           split; [| split]; intros; first [split; reflexivity | exfalso; tauto].
  - intros w s Hs Hfail.
    unfold SessionMonitor.main. rewrite Hs. cbv zeta.
    pose proof (find_first_access_value (cookies s)) as Hfind.
    unfold SessionMonitor.probeApi.
    destruct (Js.find _ (cookies s)) as [c |]; cbn [option_map].
    + destruct (value c) as [| a tok'] eqn:Hval.
      * cbn [Js.truthy_string negb SessionMonitor.ok].
        eexists. eexists. split; [reflexivity |]. split; reflexivity.
      * cbn [Js.truthy_string negb].
        destruct (search_api remote 1 (count is_search (trace w)))
          as [st data json | | code why] eqn:Hreply.
        -- cbn [SessionMonitor.ok].
           destruct (Z.eqb_spec st 200) as [-> | Hst].
           ++ exfalso. destruct Hfail as [Hno | Hno].
              ** specialize (Hno _ Hfind). discriminate.
              ** apply (Hno data json). exact Hreply.
           ++ cbn [negb]. eexists. eexists.
              split; [reflexivity |]. split; reflexivity.
        -- cbn [SessionMonitor.ok negb]. eexists. eexists.
           split; [reflexivity |]. split; reflexivity.
        -- cbn [SessionMonitor.ok negb]. eexists. eexists.
           split; [reflexivity |]. split; reflexivity.
    + cbn [SessionMonitor.ok negb]. eexists. eexists.
      split; [reflexivity |]. split; reflexivity.
Qed.

End HealthProperties.

(** The health examples with the default thresholds: 5 hours is
    CRITICAL, 10 hours WARN, 48 hours OK, no parseable signal WARN,
    48 hours followed by 1 hour CRITICAL; a
    bundle with 48 hours left is OK without the probe and CRITICAL with a
    probe that gets a 401. *)
Lemma classify_examples :
  let classify := SessionMonitor.classify SessionMonitor.default_WARN_HOURS
                    SessionMonitor.default_CRIT_HOURS in
  SessionMonitor.level (classify [Some 5%Q; None; Some 30%Q])
  = SessionMonitor.CRITICAL /\
  SessionMonitor.level (classify [None; Some 10%Q; Some 30%Q])
  = SessionMonitor.WARN /\
  SessionMonitor.level (classify [Some 48%Q; Some 50%Q; None])
  = SessionMonitor.OK /\
  SessionMonitor.level (classify [None; None; None]) = SessionMonitor.WARN /\
  SessionMonitor.level (classify [Some 48%Q; Some 1%Q])
  = SessionMonitor.CRITICAL /\
  (exists h : Q,
     fst (SessionMonitor.main (RT := demo_runtime) unauthorized_remote
            SessionMonitor.default_WARN_HOURS SessionMonitor.default_CRIT_HOURS
            false healthy_world)
     = Returned (SessionMonitor.mkVerdict SessionMonitor.OK 0
                   (SessionMonitor.Healthy h)) /\ (h == 48)%Q) /\
  fst (SessionMonitor.main (RT := demo_runtime) unauthorized_remote
         SessionMonitor.default_WARN_HOURS SessionMonitor.default_CRIT_HOURS
         true healthy_world)
  = Returned (SessionMonitor.mkVerdict SessionMonitor.CRITICAL 2
                (SessionMonitor.ProbeFailed 401)).
Proof.
  cbv zeta. repeat split; try reflexivity.
  eexists. split; [vm_compute; reflexivity | reflexivity].
Qed.

(** C1 on the first listing of that run: its 401 is caught after one
    request. *)
Lemma enrichSingle_drops_listing_A :
  Enricher.enrichSingle detail_401_remote listing_A token_5000 15000 3 fresh_world
  = (Returned None, log (EvDetail token_5000 (codigo listing_A)) fresh_world).
Proof.
  destruct (@enrichment_drops_item_on_AuthExpired_and_goes_on demo_runtime
              detail_401_remote [listing_A; listing_B] Enricher.no_options
              fresh_world) as [Hdrop _].
  destruct (Hdrop listing_A token_5000 15000 3 fresh_world) as [_ Hsingle].
  - lia.
  - reflexivity.
  - exact Hsingle.
Defined.

(** A run of [scrape] with enrichment against a detail endpoint that
    answers 401 to every request: each of the two detail fetches throws
    a [TokenExpiredError], for which the command line would exit with
    code 2; both are swallowed, both listings are asked for, and the run
    returns, so that the command line exits with code 0. *)
Lemma scrape_with_enrichment_swallows_401 :
  let run := Scraper.scrape (RT := demo_runtime) expired_detail_remote 10 true
               fresh_world in
  (forall code : string,
     exists e : JsError,
       fst (Enricher.requestDetailWithRetry expired_detail_remote code
              token_5000 15000 3 fresh_world) = Thrown e /\
       Scraper.exit_code (Thrown (A := unit) e) = 2) /\
  fst run = Returned [listing_A; listing_B] /\
  Scraper.exit_code (fst run) = 0 /\
  trace (snd run) = [EvSearch (Some token_5000) 1;
                     EvDetail token_5000 (codigo listing_A);
                     EvDetail token_5000 (codigo listing_B)].
Proof.
  cbv zeta. split; [| split; [| split]]; try reflexivity.
  intro code. eexists. split; reflexivity.
Qed.

(** C8 on a listing without offers that closes 50 hours after the
    clock. *)
Lemma shouldEnrich_accepts_listing_A :
  Enricher.shouldEnrich (RT := demo_runtime) listing_A 1000000 = true.
Proof.
  apply (proj1 (@shouldEnrich_iff_no_offers_and_closes_within_72h demo_runtime
                  listing_A 1000000)).
  split; [| split].
  - exists 0%Q. split; reflexivity.
  - exists 0%Q. split; reflexivity.
  - exists 181000000. split; [reflexivity | lia].
Defined.

(** C9 on signals of 30, unknown and 5 hours with the default
    thresholds: the minimum is the last signal. *)
Lemma classify_five_hours_is_critical :
  SessionMonitor.level
    (SessionMonitor.classify SessionMonitor.default_WARN_HOURS
       SessionMonitor.default_CRIT_HOURS [Some 30%Q; None; Some 5%Q])
  = SessionMonitor.CRITICAL.
Proof.
  destruct (@classify_thresholds_and_probe_override demo_runtime
              unauthorized_remote SessionMonitor.default_WARN_HOURS
              SessionMonitor.default_CRIT_HOURS [Some 30%Q; None; Some 5%Q])
    as [_ [Hmin _]].
  destruct (Hmin 5%Q) as [Hcrit _].
  - split.
    + intros x [Hx | [Hx | [Hx | []]]]; try discriminate;
        injection Hx as <-; discriminate.
    + exists 5%Q. split; [right; right; left; reflexivity | reflexivity].
  - apply Hcrit. right. discriminate.
Defined.

(** Two 503 replies followed by a 200: three requests, with sleeps of
    [backoffBaseMs * 2^0] and [backoffBaseMs * 2^1] between them, and the
    body of the 200 is returned. *)
Lemma fetchOpportunities_two_503_then_200 :
  let run := Scraper.fetchOpportunities (RT := demo_runtime) flaky_remote 1
               fresh_world in
  fst run = Returned (Some (demo_page 1)) /\
  trace (snd run) = [EvSearch (Some token_5000) 1; EvSleep 1000;
                     EvSearch (Some token_5000) 1; EvSleep 2000;
                     EvSearch (Some token_5000) 1] /\
  clock_ms (snd run) = clock_ms fresh_world + 3000.
Proof. cbv zeta. repeat split; reflexivity. Qed.

(** Twelve eligible items with a concurrency of 5 make three windows, of
    5, 5 and 2 items. *)
Lemma twelve_items_make_three_windows (filtered : list Opportunity) :
  List.length filtered = 12%nat ->
  for_steps (List.length filtered) 5 = [0; 5; 10]%nat /\
  List.map (fun start => List.length (Js.slice start (start + 5) filtered))
           (for_steps (List.length filtered) 5)
  = [5; 5; 2]%nat.
Proof.
  intro Hlen. rewrite Hlen. split; [reflexivity |].
  do 12 (destruct filtered as [| ? filtered]; [discriminate |]).
  destruct filtered; [reflexivity | discriminate].
Qed.

(* ===================================================================== *)
(** * Further properties of the code                                      *)
(* ===================================================================== *)

(** ** token-manager.js *)

Section TokenManagerFurther.

Context {RT : Runtime} (remote : Remote).



(** *** Upserts *)

Lemma findCookie_upsert_other_eq (cs : list Cookie) (n n' v : string)
    (e : option Q) (t : option Cookie) :
  n' <> n ->
  TokenManager.findCookie (TokenManager.upsertCookie cs n v e t) [n']
  = TokenManager.findCookie cs [n'].
Proof.
  rewrite !findCookie_single.
  intros Hne. unfold TokenManager.upsertCookie, Js.find.
  destruct (List.find (fun cookie => String.eqb (name cookie) n) cs) as [c0 |] eqn:F.
  - apply find_update_existing_other. exact Hne.
  - rewrite find_append.
    destruct (List.find (fun cookie => String.eqb (name cookie) n') cs)
      as [c |]; [reflexivity |].
    cbn. destruct (String.eqb_spec n n'); [congruence | reflexivity].
Qed.

Lemma update_existing_names (cs : list Cookie) (n v : string) (exp : option Q) :
  List.map name (TokenManager.update_existing cs n v exp) = List.map name cs.
Proof.
  induction cs as [| c cs IH]; cbn; [reflexivity |].
  destruct (String.eqb (name c) n); cbn; [reflexivity | f_equal; exact IH].
Qed.

Lemma update_existing_twice (cs : list Cookie) (n v : string) (exp : option Q) :
  TokenManager.update_existing (TokenManager.update_existing cs n v exp) n v exp
  = TokenManager.update_existing cs n v exp.
Proof.
  induction cs as [| c cs IH]; cbn; [reflexivity |].
  destruct (String.eqb (name c) n) eqn:E; cbn; rewrite E.
  - f_equal. f_equal. destruct exp; reflexivity.
  - f_equal. exact IH.
Qed.

Lemma update_existing_absent (cs : list Cookie) (n v : string) (exp : option Q) :
  List.find (fun cookie => String.eqb (name cookie) n) cs = None ->
  TokenManager.update_existing cs n v exp = cs.
Proof.
  induction cs as [| c cs IH]; cbn; [reflexivity |].
  destruct (String.eqb (name c) n); [discriminate |].
  intro H. f_equal. apply IH. exact H.
Qed.

Lemma update_existing_app (cs cs' : list Cookie) (n v : string) (exp : option Q) :
  List.find (fun cookie => String.eqb (name cookie) n) cs = None ->
  TokenManager.update_existing (cs ++ cs') n v exp
  = cs ++ TokenManager.update_existing cs' n v exp.
Proof.
  induction cs as [| c cs IH]; cbn; [reflexivity |].
  destruct (String.eqb (name c) n); [discriminate |].
  intro H. f_equal. apply IH. exact H.
Qed.

(** X2. [upsertCookie] keeps every record in place and adds at most one:
    the names of the array are unchanged when a record of that name
    exists, and the new name is appended otherwise; a lookup of the name
    then finds the new value, lookups of other names are unaffected, and
    doing the same upsert again changes nothing. *)
Theorem upsertCookie_adds_at_most_one_record :
  forall (cs : list Cookie) (n v : string) (e : option Q) (t : option Cookie),
    let cs' := TokenManager.upsertCookie cs n v e t in
    List.map name cs'
    = List.map name cs
      ++ match TokenManager.findCookie cs [n] with
         | Some _ => []
         | None => [n]
         end
    /\ (exists c : Cookie,
          TokenManager.findCookie cs' [n] = Some c /\ value c = v)
    /\ (forall n' : string,
          n' <> n ->
          TokenManager.findCookie cs' [n'] = TokenManager.findCookie cs [n'])
    /\ TokenManager.upsertCookie cs' n v e t = cs'.
Proof.
  intros cs n v e t cs'. subst cs'. split; [| split; [| split]].
  - rewrite findCookie_single. unfold TokenManager.upsertCookie, Js.find.
    destruct (List.find _ cs) as [c |].
    + rewrite update_existing_names, app_nil_r. reflexivity.
    + rewrite map_app. reflexivity.
  - apply findCookie_upsert_same.
  - intros n' Hne. apply findCookie_upsert_other_eq. exact Hne.
  - destruct (findCookie_upsert_same cs n v e t) as [c [Hc _]].
    rewrite findCookie_single in Hc.
    unfold TokenManager.upsertCookie at 1. unfold Js.find. rewrite Hc.
    unfold TokenManager.upsertCookie, Js.find.
    destruct (List.find (fun cookie => String.eqb (name cookie) n) cs)
      as [c0 |] eqn:F.
    + apply update_existing_twice.
    + rewrite update_existing_app by exact F. f_equal.
      cbn. rewrite String.eqb_refl. f_equal. f_equal.
      destruct (TokenManager.normalizeEpochSeconds e); reflexivity.
Qed.

(** What [persistRefreshedTokens] writes: both access-token records hold
    the new token, the refresh-token record holds the rotated token or
    keeps its value, and no other record is touched. *)
Lemma persistRefreshedTokens_bundle (s : Session) (p : TokenPayload)
    (rc : Cookie) (w : World) :
  refresh_cookie s = Some rc ->
  exists cs' : list Cookie,
    TokenManager.persistRefreshedTokens s p rc w
    = (Returned tt,
       mkWorld (clock_ms w) (Stored (mkSession cs')) (this w) (trace w))
    /\ (exists c, TokenManager.findCookie cs' ["access_token_ccr"] = Some c /\
                  value c = match access_token p with
                            | Some t => t | None => EmptyString end)
    /\ (exists c, TokenManager.findCookie cs' ["access_token"] = Some c /\
                  value c = match access_token p with
                            | Some t => t | None => EmptyString end)
    /\ (exists c, TokenManager.findCookie cs' ["refresh_token"] = Some c /\
                  value c = TokenManager.rotated_refresh_token p rc)
    /\ (forall n : string,
          n <> "access_token_ccr" -> n <> "access_token" ->
          n <> "refresh_token" ->
          TokenManager.findCookie cs' [n]
          = TokenManager.findCookie (cookies s) [n]).
Proof.
  intro Hrc.
  unfold TokenManager.persistRefreshedTokens, bind, Date_now, write_session.
  cbv zeta.
  match goal with
  | |- context [TokenManager.upsertCookie
                  (TokenManager.upsertCookie
                     (TokenManager.upsertCookie ?cs0 ?n1 ?v1 ?e1 ?t1) ?n2 ?v2 ?e2 ?t2)
                  ?n3 ?v3 ?e3 ?t3] =>
      set (cs1 := TokenManager.upsertCookie cs0 n1 v1 e1 t1);
      set (cs2 := TokenManager.upsertCookie cs1 n2 v2 e2 t2);
      set (cs3 := TokenManager.upsertCookie cs2 n3 v3 e3 t3);
      destruct (findCookie_upsert_same cs0 n1 v1 e1 t1) as [c1 [Hc1 Hv1]];
      destruct (findCookie_upsert_same cs1 n2 v2 e2 t2) as [c2 [Hc2 Hv2]];
      destruct (findCookie_upsert_same cs2 n3 v3 e3 t3) as [c3 [Hc3 Hv3]]
  end.
  exists cs3. split; [reflexivity |].
  split; [| split; [| split]].
  - exists c1. split; [| exact Hv1].
    subst cs3 cs2.
    rewrite !findCookie_upsert_other_eq by discriminate. exact Hc1.
  - exists c2. split; [| exact Hv2].
    subst cs3. rewrite findCookie_upsert_other_eq by discriminate. exact Hc2.
  - exists c3. split; [exact Hc3 | exact Hv3].
  - intros n H1 H2 H3. subst cs3 cs2 cs1.
    rewrite !findCookie_upsert_other_eq by assumption. reflexivity.
Qed.

(** X3. A successful refresh: when the stored token is not usable, a
    refresh token is stored and the token endpoint answers 200 with an
    [access_token], [getValidToken] sends one refresh request carrying
    the stored refresh token, returns the new token, and persists a
    bundle in which both access-token records hold it, the refresh-token
    record holds the token the server rotated in (or keeps its value when
    the reply has none), and every other record is as before. *)
Theorem getValidToken_refresh_updates_bundle :
  forall (w : World) (s : Session) (rc : Cookie) (data : string)
         (p : TokenPayload) (tok : string),
    session_json w = Stored s ->
    ~ has_min_validity w ->
    refresh_cookie s = Some rc ->
    value rc <> EmptyString ->
    token_endpoint remote (value rc) (count is_refresh (trace w))
    = Replied 200 data (Parsed p) ->
    access_token p = Some tok ->
    tok <> EmptyString ->
    exists cs' : list Cookie,
      TokenManager.getValidToken remote w
      = (Returned tok,
         mkWorld (clock_ms w) (Stored (mkSession cs')) (this w)
                 (trace w ++ [EvRefresh (value rc)]))
      /\ (exists c, TokenManager.findCookie cs' ["access_token_ccr"] = Some c /\
                    value c = tok)
      /\ (exists c, TokenManager.findCookie cs' ["access_token"] = Some c /\
                    value c = tok)
      /\ (exists c, TokenManager.findCookie cs' ["refresh_token"] = Some c /\
                    value c = match refresh_token p with
                              | Some r => if Js.truthy_string r then r
                                          else value rc
                              | None => value rc
                              end)
      /\ (forall n : string,
            n <> "access_token_ccr" -> n <> "access_token" ->
            n <> "refresh_token" ->
            TokenManager.findCookie cs' [n]
            = TokenManager.findCookie (cookies s) [n]).
Proof.
  intros w s rc data p tok Hs Hv Hrc Hval Hrep Hat Htok.
  assert (Hu : usable s (clock_ms w) = false).
  { destruct (usable s (clock_ms w)) eqn:E; [| reflexivity].
    exfalso. apply Hv. apply (usable_iff_has_min_validity w Hs). exact E. }
  rewrite (getValidToken_unfold remote w Hs), Hu, Hrc.
  assert (Ht : Js.truthy_string (value rc) = true)
    by (destruct (value rc); [congruence | reflexivity]).
  assert (Ht' : Js.truthy_string tok = true)
    by (destruct tok; [congruence | reflexivity]).
  rewrite Ht, Hrep. cbn [negb TokenManager.refresh_outcome Z.eqb Pos.eqb].
  rewrite Hat, Ht'.
  destruct (persistRefreshedTokens_bundle s p (log (EvRefresh (value rc)) w) Hrc)
    as [cs' [Hrun [H1 [H2 [H3 H4]]]]].
  rewrite (bind_Returned _ _ _ Hrun). rewrite Hat in *.
  exists cs'. split; [reflexivity |].
  split; [exact H1 |]. split; [exact H2 |]. split; [| exact H4].
  unfold TokenManager.rotated_refresh_token, Js.or_string in H3. exact H3.
Qed.

(** X4. A token that [getValidToken] returned, from the bundle or from a
    refresh, and whose embedded expiry leaves more than 300 seconds, is
    what the next call of [getValidToken] finds in the persisted bundle
    and returns, without any request and without touching the bundle. *)
Theorem getValidToken_reuses_refreshed_token :
  forall (w w1 : World) (tok : string) (e : Q),
    TokenManager.getValidToken remote w = (Returned tok, w1) ->
    TokenManager.decodeJwtExp (Some tok) = Some e ->
    ~ (e == 0)%Q ->
    (300 < e - inject_Z (clock_ms w / 1000))%Q ->
    TokenManager.getValidToken remote w1 = (Returned tok, w1).
Proof.
  intros w w1 tok e Hrun He Hnz Hlt.
  pose proof Hrun as Hrun0.
  destruct (session_json w) as [why | why | | s] eqn:Hs;
    try (unfold TokenManager.getValidToken, bind,
           TokenManager.readSessionFileOrThrow in Hrun;
         rewrite Hs in Hrun; discriminate).
  rewrite (getValidToken_unfold remote w Hs) in Hrun.
  destruct (usable s (clock_ms w)).
  { injection Hrun as _ Hw. rewrite <- Hw. rewrite <- Hw in Hrun0. exact Hrun0. }
  destruct (refresh_cookie s) as [rc |]; [| discriminate].
  destruct (negb (Js.truthy_string (value rc))); [discriminate |].
  destruct (TokenManager.refresh_outcome _) as [p | e1] eqn:Hout; [| discriminate].
  destruct (persistRefreshedTokens_run s p rc (log (EvRefresh (value rc)) w))
    as [cs' [c' [Hrun' [Hc' Hv']]]].
  rewrite (bind_Returned _ _ _ Hrun') in Hrun. unfold ret in Hrun.
  injection Hrun as Htok Hw.
  assert (Hat : access_token p = Some tok /\ Js.truthy_string tok = true).
  { unfold TokenManager.refresh_outcome in Hout.
    repeat match type of Hout with
           | context [match ?x with _ => _ end] => destruct x eqn:?
           end; try discriminate.
    injection Hout as <-.
    match goal with
    | H : access_token _ = Some _ |- _ => rewrite H in Htok |- *
    end.
    subst tok. split; [reflexivity | assumption]. }
  destruct Hat as [Hat Htruthy]. rewrite Hat in Hv'.
  subst w1. clear Htok. rewrite <- Hv' in He, Htruthy |- *.
  apply (@getValidToken_fast_path RT remote _ (mkSession cs') c');
    [reflexivity | exact Hc' |].
  cbn [clock_ms log]. unfold usable. rewrite Hc'. cbn [option_map].
  rewrite He. unfold Js.or_num, Js.truthy_num.
  destruct (Qeq_bool e 0) eqn:E.
  - exfalso. apply Hnz. apply Qeq_bool_iff. exact E.
  - cbn [negb]. unfold TokenManager.secondsRemaining, Js.truthy_num.
    rewrite E. cbn [negb]. rewrite Htruthy. cbn [andb].
    apply gtb_spec. exact Hlt.
Qed.

(** X5. The derived token state is consistent: an expired token is also
    expiring soon; the two flags are unknown exactly when the remaining
    time is; a token is present exactly when the record has a non-empty
    value; and a non-zero expiry embedded in the token is the expiry
    reported, whatever the record's own [expires] says. *)
Theorem buildTokenState_is_consistent :
  forall (cName v : option string) (cookieExpires : option Q) (now_ms : Z),
    let st := TokenManager.buildTokenState cName v cookieExpires now_ms in
    (TokenManager.isExpired st = Some true ->
     TokenManager.isExpiringSoon st = Some true)
    /\ (TokenManager.isExpired st = None
        <-> TokenManager.ts_secondsRemaining st = None)
    /\ (TokenManager.isExpiringSoon st = None
        <-> TokenManager.ts_secondsRemaining st = None)
    /\ (TokenManager.present st = true
        <-> exists t : string, v = Some t /\ t <> EmptyString)
    /\ (forall e : Q,
          TokenManager.decodeJwtExp v = Some e -> ~ (e == 0)%Q ->
          TokenManager.expiresAtEpochSeconds st = Some e /\
          TokenManager.ts_secondsRemaining st
          = Some (e - inject_Z (now_ms / 1000))%Q).
Proof.
  intros cName v cookieExpires now_ms st. subst st.
  unfold TokenManager.buildTokenState.
  cbn [TokenManager.isExpired TokenManager.isExpiringSoon
       TokenManager.ts_secondsRemaining TokenManager.present
       TokenManager.expiresAtEpochSeconds].
  split; [| split; [| split; [| split]]].
  - destruct (TokenManager.secondsRemaining _ _) as [r |]; cbn; [| discriminate].
    intro H. injection H as H. apply leb_spec in H. f_equal.
    apply leb_spec. unfold TokenManager.ACCESS_MIN_VALIDITY_SECONDS. lra.
  - destruct (TokenManager.secondsRemaining _ _); cbn; split; congruence.
  - destruct (TokenManager.secondsRemaining _ _); cbn; split; congruence.
  - destruct v as [t |].
    + destruct t; cbn; split; try discriminate.
      * intros [t [Ht Hne]]. injection Ht as <-. congruence.
      * intros _. eexists. split; [reflexivity | discriminate].
      * intros _. reflexivity.
    + split; [discriminate |]. intros [t [Ht _]]. discriminate.
  - intros e He Hnz. rewrite He. unfold Js.or_num, Js.truthy_num.
    destruct (Qeq_bool e 0) eqn:E.
    + exfalso. apply Hnz. apply Qeq_bool_iff. exact E.
    + cbn [negb]. unfold TokenManager.secondsRemaining, Js.truthy_num.
      rewrite E. split; reflexivity.
Qed.

(** X6. Remaining validity only shrinks as time passes: a bundle whose
    access token will still have the minimum validity [ms] milliseconds
    from now has it now. *)
Theorem token_validity_only_decreases :
  forall (w : World) (ms : Z),
    0 <= ms ->
    has_min_validity (later ms w) ->
    has_min_validity w.
Proof.
  intros w ms Hms Hv.
  destruct (session_json w) as [why | why | | s] eqn:Hs.
  - exfalso. destruct Hv as [Hp _]. revert Hp.
    unfold access_state, TokenManager.inspectToken,
      TokenManager.readSessionFileSafe, TokenManager.readSessionFileOrThrow.
    cbn [later session_json]. rewrite Hs. discriminate.
  - exfalso. destruct Hv as [Hp _]. revert Hp.
    unfold access_state, TokenManager.inspectToken,
      TokenManager.readSessionFileSafe, TokenManager.readSessionFileOrThrow.
    cbn [later session_json]. rewrite Hs. discriminate.
  - exfalso. destruct Hv as [Hp _]. revert Hp.
    unfold access_state, TokenManager.inspectToken,
      TokenManager.readSessionFileSafe, TokenManager.readSessionFileOrThrow.
    cbn [later session_json]. rewrite Hs. discriminate.
  - apply (usable_iff_has_min_validity w Hs).
    apply (@usable_earlier RT s (clock_ms w) (clock_ms w + ms)); [lia |].
    apply (usable_iff_has_min_validity (later ms w) Hs). exact Hv.
Qed.

End TokenManagerFurther.

(** ** enricher.js: the closing date *)

Lemma string_app_nil_r (s : string) : (s ++ "")%string = s.
Proof. induction s as [| c s IH]; cbn; [reflexivity | f_equal; exact IH]. Qed.

Lemma string_app_assoc (a b c : string) :
  ((a ++ b) ++ c)%string = (a ++ b ++ c)%string.
Proof. induction a as [| x a IH]; cbn; [reflexivity | f_equal; exact IH]. Qed.

Lemma digit_is_not_space (c : ascii) :
  Enricher.is_digit c = true -> Enricher.is_space c = false.
Proof.
  unfold Enricher.is_digit, Enricher.is_space.
  set (n := nat_of_ascii c).
  rewrite andb_true_iff, !Nat.leb_le. intros [H1 H2].
  apply orb_false_iff. split.
  - apply andb_false_iff. right. apply Nat.leb_gt. lia.
  - apply Nat.eqb_neq. lia.
Qed.

Lemma digits_complete (n : nat) :
  forall d rest : string,
    digit_field n d ->
    Enricher.digits n (d ++ rest) = Some (d, rest).
Proof.
  induction n as [| n IH]; intros d rest [Hlen Hall].
  - destruct d; [reflexivity | discriminate].
  - destruct d as [| c d]; [discriminate |].
    cbn in Hlen, Hall |- *. apply andb_true_iff in Hall. destruct Hall as [Hc Hd].
    rewrite Hc, (IH d rest); [reflexivity |].
    split; [congruence | exact Hd].
Qed.

Lemma digits_sound (n : nat) :
  forall s d rest : string,
    Enricher.digits n s = Some (d, rest) ->
    s = (d ++ rest)%string /\ digit_field n d.
Proof.
  induction n as [| n IH]; intros s d rest H.
  - cbn in H. injection H as <- <-. repeat split.
  - cbn in H. destruct s as [| c s]; [discriminate |].
    destruct (Enricher.is_digit c) eqn:Hc; [| discriminate].
    destruct (Enricher.digits n s) as [[ds tl] |] eqn:Hd; [| discriminate].
    injection H as <- <-.
    destruct (IH s ds tl Hd) as [-> [Hlen Hall]].
    split; [reflexivity |]. split; cbn; [congruence |].
    rewrite Hc, Hall. reflexivity.
Qed.

Lemma literal_sound (c : ascii) (s rest : string) :
  Enricher.literal c s = Some rest -> s = String c rest.
Proof.
  destruct s as [| a s]; cbn; [discriminate |].
  destruct (Ascii.eqb_spec a c) as [-> | _]; [| discriminate].
  intro H. injection H as ->. reflexivity.
Qed.

Lemma literal_complete (c : ascii) (rest : string) :
  Enricher.literal c (String c rest) = Some rest.
Proof. cbn. rewrite Ascii.eqb_refl. reflexivity. Qed.

Lemma skip_spaces_complete (ws rest : string) :
  string_forall Enricher.is_space ws = true ->
  starts_solid rest ->
  Enricher.skip_spaces (ws ++ rest) = rest.
Proof.
  induction ws as [| c ws IH]; cbn; intros Hall Hrest.
  - destruct rest as [| a rest]; [reflexivity |]. cbn in Hrest |- *.
    rewrite Hrest. reflexivity.
  - apply andb_true_iff in Hall. destruct Hall as [Hc Hws].
    rewrite Hc. apply IH; assumption.
Qed.

Lemma skip_spaces_sound (s : string) :
  exists ws : string,
    string_forall Enricher.is_space ws = true /\
    s = (ws ++ Enricher.skip_spaces s)%string /\
    starts_solid (Enricher.skip_spaces s).
Proof.
  induction s as [| c s [ws [Hall [Heq Hsolid]]]].
  - exists EmptyString. repeat split.
  - cbn. destruct (Enricher.is_space c) eqn:Hc.
    + exists (String c ws). cbn. rewrite Hc, Hall.
      split; [reflexivity |]. split; [f_equal; exact Heq | exact Hsolid].
    + exists EmptyString. cbn. repeat split. exact Hc.
Qed.

Lemma spaces1_complete (ws rest : string) :
  blank ws -> starts_solid rest ->
  Enricher.spaces1 (ws ++ rest) = Some rest.
Proof.
  intros [Hne Hall] Hrest.
  destruct ws as [| c ws]; [congruence |].
  cbn in Hall |- *. apply andb_true_iff in Hall. destruct Hall as [Hc Hws].
  rewrite Hc. f_equal. apply skip_spaces_complete; assumption.
Qed.

Lemma spaces1_sound (s rest : string) :
  Enricher.spaces1 s = Some rest ->
  exists ws : string, blank ws /\ s = (ws ++ rest)%string.
Proof.
  destruct s as [| c s]; cbn; [discriminate |].
  destruct (Enricher.is_space c) eqn:Hc; [| discriminate].
  intro H. injection H as <-.
  destruct (skip_spaces_sound s) as [ws [Hall [Heq _]]].
  exists (String c ws). split.
  - split; [discriminate |]. cbn. rewrite Hc, Hall. reflexivity.
  - cbn. f_equal. exact Heq.
Qed.

Lemma digit_field_starts_solid (n : nat) (d rest : string) :
  digit_field (S n) d -> starts_solid (d ++ rest).
Proof.
  intros [Hlen Hall]. destruct d as [| c d]; [discriminate |].
  cbn in Hall |- *. apply andb_true_iff in Hall.
  apply digit_is_not_space. apply Hall.
Qed.

Lemma match_time_unfold (s : string) :
  s <> EmptyString ->
  Enricher.match_time s
  = match Enricher.spaces1 s with
    | Some s1 =>
        match Enricher.digits 2 s1 with
        | Some (h, s2) =>
            match Enricher.literal ":" s2 with
            | Some s3 =>
                match Enricher.digits 2 s3 with
                | Some (m, s4) =>
                    match Enricher.match_seconds s4 with
                    | Some sec => Some (h, m, sec)
                    | None => None
                    end
                | None => None
                end
            | None => None
            end
        | None => None
        end
    | None => None
    end.
Proof. destruct s; [congruence | reflexivity]. Qed.

Lemma digit_field_00 : digit_field 2 "00".
Proof. split; reflexivity. Qed.

Lemma match_ddmmyyyy_iff_form (s : string) (r : Enricher.Ddmmyyyy) :
  Enricher.match_ddmmyyyy s = Some r <-> ddmmyyyy_form s r.
Proof.
  split.
  - unfold Enricher.match_ddmmyyyy. intro H.
    destruct (Enricher.digits 2 s) as [[d s1] |] eqn:H1; [| discriminate].
    destruct (Enricher.literal "/" s1) as [s2 |] eqn:H2; [| discriminate].
    destruct (Enricher.digits 2 s2) as [[m s3] |] eqn:H3; [| discriminate].
    destruct (Enricher.literal "/" s3) as [s4 |] eqn:H4; [| discriminate].
    destruct (Enricher.digits 4 s4) as [[y s5] |] eqn:H5; [| discriminate].
    destruct (Enricher.match_time s5) as [[[h mi] sec] |] eqn:H6; [| discriminate].
    injection H as <-.
    apply digits_sound in H1, H3, H5.
    apply literal_sound in H2, H4.
    destruct H1 as [-> Hd]. destruct H3 as [-> Hm]. destruct H5 as [-> Hy].
    subst s1 s3.
    unfold ddmmyyyy_form. cbn [Enricher.dd Enricher.mm Enricher.yyyy
                               Enricher.hh Enricher.min Enricher.ss].
    unfold Enricher.match_time in H6.
    destruct s5 as [| c5 s5'] eqn:Hs5.
    + injection H6 as <- <- <-.
      repeat (split; [first [assumption | apply digit_field_00] |]).
      left. rewrite string_app_nil_r. repeat split.
    + rewrite <- Hs5 in *. clear Hs5.
      destruct (Enricher.spaces1 s5) as [t1 |] eqn:T1; [| discriminate].
      destruct (Enricher.digits 2 t1) as [[h' t2] |] eqn:T2; [| discriminate].
      destruct (Enricher.literal ":" t2) as [t3 |] eqn:T3; [| discriminate].
      destruct (Enricher.digits 2 t3) as [[mi' t4] |] eqn:T4; [| discriminate].
      destruct (Enricher.match_seconds t4) as [sec' |] eqn:T5; [| discriminate].
      injection H6 as <- <- <-.
      apply spaces1_sound in T1. destruct T1 as [ws [Hws ->]].
      apply digits_sound in T2, T4.
      destruct T2 as [-> Hh]. destruct T4 as [-> Hmi].
      apply literal_sound in T3. subst t2.
      unfold Enricher.match_seconds in T5.
      destruct t4 as [| c4 t4'] eqn:Ht4.
      * injection T5 as <-.
        repeat (split; [first [assumption | apply digit_field_00] |]).
        right. exists ws. split; [exact Hws |]. left.
        rewrite string_app_nil_r. split; reflexivity.
      * rewrite <- Ht4 in *. clear Ht4.
        destruct (Enricher.literal ":" t4) as [t5 |] eqn:T6; [| discriminate].
        destruct (Enricher.digits 2 t5) as [[sec'' t6] |] eqn:T7; [| discriminate].
        destruct t6; [| discriminate]. injection T5 as <-.
        apply literal_sound in T6. subst t4.
        apply digits_sound in T7. destruct T7 as [-> Hsec].
        rewrite string_app_nil_r.
        repeat (split; [assumption |]).
        right. exists ws. split; [exact Hws |]. right. reflexivity.
  - unfold ddmmyyyy_form. destruct r as [d m y h mi sec].
    cbn [Enricher.dd Enricher.mm Enricher.yyyy
         Enricher.hh Enricher.min Enricher.ss].
    intros [Hd [Hm [Hy [Hh [Hmi [Hsec Hform]]]]]].
    assert (Hdate : forall tail : string,
              Enricher.match_ddmmyyyy (d ++ "/" ++ m ++ "/" ++ y ++ tail)
              = match Enricher.match_time tail with
                | Some (h', mi', sec') =>
                    Some (Enricher.mkDdmmyyyy d m y h' mi' sec')
                | None => None
                end).
    { intro tail. unfold Enricher.match_ddmmyyyy.
      rewrite (digits_complete _ Hd). cbn [append].
      rewrite literal_complete, (digits_complete _ Hm). cbn [append].
      rewrite literal_complete, (digits_complete _ Hy). reflexivity. }
    destruct Hform as [[-> [-> [-> ->]]] | [ws [Hws Hform]]].
    + rewrite <- (string_app_nil_r y) at 1. rewrite Hdate. reflexivity.
    + assert (Htime : forall rest : string,
                Enricher.match_time (ws ++ h ++ ":" ++ mi ++ rest)
                = match Enricher.match_seconds rest with
                  | Some sec' => Some (h, mi, sec')
                  | None => None
                  end).
      { intro rest. rewrite match_time_unfold.
        - rewrite (spaces1_complete (ws := ws));
            [| exact Hws | apply (@digit_field_starts_solid 1); exact Hh].
          rewrite (digits_complete _ Hh). cbn [append].
          rewrite literal_complete, (digits_complete _ Hmi). reflexivity.
        - destruct Hws as [Hne _]. destruct ws; [congruence | discriminate]. }
      destruct Hform as [[-> ->] | ->].
      * rewrite <- (string_app_nil_r mi) at 1.
        rewrite Hdate, Htime. reflexivity.
      * rewrite Hdate, Htime. unfold Enricher.match_seconds. cbn [append].
        rewrite literal_complete.
        rewrite <- (string_app_nil_r sec) at 1.
        rewrite (digits_complete _ Hsec). reflexivity.
Qed.

(** X7. The fallback pattern of [parseClosingDate] matches exactly the
    texts of the form dd/mm/yyyy, optionally followed by whitespace and
    hh:mm or hh:mm:ss, all fields being digits of those widths and
    nothing coming before or after; the fields it yields are those of the
    text, with 00 for an absent time part. *)
Theorem match_ddmmyyyy_matches_exactly_the_date_form :
  forall (s : string) (r : Enricher.Ddmmyyyy),
    Enricher.match_ddmmyyyy s = Some r <-> ddmmyyyy_form s r.
Proof. exact match_ddmmyyyy_iff_form. Qed.

Section ClosingDateProperties.

Context {RT : Runtime}.

(** X8. [parseClosingDate] gives no date for a missing or empty text;
    a text that [new Date] accepts is taken as it parses; a text in the
    day/month/year form that [new Date] refuses is parsed again in the
    order year-month-dayThours:minutes:seconds, and a text of neither
    kind gives no date. *)
Theorem parseClosingDate_reorders_day_first_dates :
  Enricher.parseClosingDate None = None
  /\ Enricher.parseClosingDate (Some EmptyString) = None
  /\ (forall (s : string) (t : Z),
        s <> EmptyString -> Date_parse s = Some t ->
        Enricher.parseClosingDate (Some s) = Some t)
  /\ (forall (s : string) (r : Enricher.Ddmmyyyy),
        ddmmyyyy_form s r -> Date_parse s = None ->
        Enricher.parseClosingDate (Some s)
        = Date_parse (Enricher.yyyy r ++ "-" ++ Enricher.mm r ++ "-"
                      ++ Enricher.dd r ++ "T" ++ Enricher.hh r ++ ":"
                      ++ Enricher.min r ++ ":" ++ Enricher.ss r)%string)
  /\ (forall s : string,
        Date_parse s = None ->
        (forall r : Enricher.Ddmmyyyy, ~ ddmmyyyy_form s r) ->
        Enricher.parseClosingDate (Some s) = None).
Proof.
  split; [reflexivity |]. split; [reflexivity |]. split; [| split].
  - intros s t Hne Hd. unfold Enricher.parseClosingDate.
    destruct s; [congruence |]. cbn [Js.truthy_string negb]. rewrite Hd.
    reflexivity.
  - intros s r Hform Hd. unfold Enricher.parseClosingDate.
    assert (Hne : Js.truthy_string s = true).
    { destruct Hform as [[Hlen _] [_ [_ [_ [_ [_ Hs]]]]]].
      destruct (Enricher.dd r) as [| c d] eqn:Hdd; [discriminate |].
      cbv zeta in Hs.
      destruct Hs as [[-> _] | [ws [_ [[-> _] | ->]]]]; reflexivity. }
    rewrite Hne. cbn [negb]. rewrite Hd.
    apply match_ddmmyyyy_iff_form in Hform. rewrite Hform. reflexivity.
  - intros s Hd Hno. unfold Enricher.parseClosingDate.
    destruct (negb (Js.truthy_string s)); [reflexivity |]. rewrite Hd.
    destruct (Enricher.match_ddmmyyyy s) as [r |] eqn:Hm; [| reflexivity].
    exfalso. apply (Hno r). apply match_ddmmyyyy_iff_form. exact Hm.
Qed.

End ClosingDateProperties.

(** ** enricher.js: the windows *)

Lemma slice_from_0 {A : Type} (n : nat) (l : list A) :
  Js.slice 0 (0 + n) l = firstn n l.
Proof. unfold Js.slice. cbn [skipn]. f_equal. lia. Qed.

Lemma slice_shift {A : Type} (start off n : nat) (l : list A) :
  Js.slice (start + off) (start + off + n) l
  = Js.slice start (start + n) (skipn off l).
Proof.
  unfold Js.slice. rewrite skipn_skipn. f_equal; lia.
Qed.

(** X9. The windows of the batcher split the eligible items: taken in
    order they give back the list, none of them is empty and none has
    more than [concurrency] items. *)
Theorem windows_split_the_items :
  forall (concurrency : nat) (filtered : list Opportunity),
    (0 < concurrency)%nat ->
    let windows :=
      List.map (fun start => Js.slice start (start + concurrency) filtered)
               (for_steps (List.length filtered) concurrency) in
    List.concat windows = filtered
    /\ Forall (fun batch =>
                 (1 <= List.length batch <= concurrency)%nat) windows.
Proof.
  intros concurrency filtered Hc. cbv zeta.
  remember (List.length filtered) as n eqn:Hn.
  assert (Hle : (List.length filtered <= n)%nat) by lia.
  rewrite Hn. clear Hn. revert filtered Hle.
  induction n as [| n IH]; intros filtered Hle.
  - destruct filtered; [| cbn in Hle; lia].
    cbn [List.length]. rewrite for_steps_0 by exact Hc.
    split; [reflexivity | constructor].
  - destruct filtered as [| o rest] eqn:Hf.
    + cbn [List.length]. rewrite for_steps_0 by exact Hc.
      split; [reflexivity | constructor].
    + rewrite <- Hf in *.
      assert (Hpos : (0 < List.length filtered)%nat) by (rewrite Hf; cbn; lia).
      rewrite for_steps_cons by assumption.
      cbn [List.map]. rewrite map_map.
      rewrite (map_ext
                 (fun s => Js.slice (s + concurrency) (s + concurrency + concurrency)
                                    filtered)
                 (fun s => Js.slice s (s + concurrency) (skipn concurrency filtered)))
        by (intro s; apply slice_shift).
      replace (List.length filtered - concurrency)%nat
        with (List.length (skipn concurrency filtered))
        by (rewrite length_skipn; reflexivity).
      destruct (IH (skipn concurrency filtered)) as [Hcat Hall].
      { rewrite length_skipn. lia. }
      rewrite slice_from_0. split.
      * cbn [List.concat]. rewrite Hcat. apply firstn_skipn.
      * constructor; [| exact Hall].
        rewrite length_firstn. lia.
Qed.

(** ** The retry loops, whatever the server answers *)

(** Among the replies [0 .. m] there is a first one that ends a retry
    loop of budget [m]: the first that is not retryable, or reply [m]. *)
Lemma first_settling_reply (P : nat -> bool) (m : nat) :
  exists n : nat,
    (n <= m)%nat /\
    (forall i : nat, (i < n)%nat -> P i = true) /\
    (P n = false \/ n = m).
Proof.
  induction m as [| m [n [Hle [Hall Hlast]]]].
  - exists 0%nat. split; [lia |]. split; [intros i Hi; lia | right; reflexivity].
  - destruct (P n) eqn:Hn.
    + destruct Hlast as [H | ->]; [congruence |].
      exists (S m). split; [lia |]. split; [| right; reflexivity].
      intros i Hi. destruct (Nat.eq_dec i m) as [-> | Hne]; [exact Hn |].
      apply Hall. lia.
    + exists n. split; [lia |]. split; [exact Hall | left; exact Hn].
Qed.

Lemma backoff_time_closed (n : nat) :
  forall attempt : Z,
    0 <= attempt ->
    backoff_time attempt n = backoffBaseMs * 2 ^ attempt * (2 ^ Z.of_nat n - 1).
Proof.
  induction n as [| n IH]; intros attempt Ha.
  - cbn. lia.
  - cbn [backoff_time]. rewrite IH by lia.
    rewrite Nat2Z.inj_succ, Z.pow_succ_r by lia.
    replace (attempt + 1) with (Z.succ attempt) by lia.
    rewrite Z.pow_succ_r by lia. lia.
Qed.

Section RetryBounds.

Context {RT : Runtime} (remote : Remote).

(** X10. Whatever the detail endpoint answers, [requestDetailWithRetry]
    with a budget [maxRetries >= 0] ends after some [n <= maxRetries]
    retryable failures: it has made [n + 1] requests and slept
    1000 * (2^n - 1) ms in all, the outcome is that of request [n], and
    that request is not retryable unless the budget is used up.  It
    leaves the session file alone.  With a negative budget it makes no
    request and throws. *)
Theorem requestDetailWithRetry_ends_within_budget :
  forall (code bearer : string) (timeoutMs maxRetries : Z) (w : World),
    let reply (i : nat) :=
      detail_api remote code (count (is_detail_of code) (trace w) + i) in
    (0 <= maxRetries ->
     exists (n : nat) (w' : World),
       Z.of_nat n <= maxRetries /\
       Enricher.requestDetailWithRetry remote code bearer timeoutMs maxRetries w
       = (Enricher.detail_outcome code timeoutMs (reply n), w') /\
       (forall i : nat, (i < n)%nat ->
          retryable (reply_class (reply i)) = true) /\
       (retryable (reply_class (reply n)) = false \/ Z.of_nat n = maxRetries) /\
       trace w' = trace w ++ failed_detail_attempts bearer code 0 n
                          ++ [EvDetail bearer code] /\
       count (is_detail_of code) (trace w')
       = (count (is_detail_of code) (trace w) + n + 1)%nat /\
       clock_ms w' = clock_ms w + 1000 * (2 ^ Z.of_nat n - 1) /\
       session_json w' = session_json w)
    /\
    (maxRetries < 0 ->
     Enricher.requestDetailWithRetry remote code bearer timeoutMs maxRetries w
     = (Thrown (Error ("Failed to enrich " ++ code ++ " after retries.")), w)).
Proof.
  intros code bearer timeoutMs maxRetries w reply. split.
  - intro Hr.
    destruct (first_settling_reply
                (fun i => retryable (reply_class (reply i)))
                (Z.to_nat maxRetries)) as [n [Hle [Hall Hlast]]].
    assert (Hlast' : retryable (reply_class (reply n)) = false
                     \/ 0 + Z.of_nat n = maxRetries).
    { destruct Hlast as [H | H]; [left; exact H | right; lia]. }
    exists n. eexists. split; [lia |]. split.
    { unfold Enricher.requestDetailWithRetry.
      apply (@detail_attempts_run remote code bearer timeoutMs maxRetries n 0 w);
        [lia | lia | exact Hall | exact Hlast']. }
    split; [exact Hall |]. split.
    { destruct Hlast as [H | H]; [left; exact H | right; lia]. }
    cbn [trace clock_ms session_json log after_failed_detail_attempts].
    split; [rewrite <- app_assoc; reflexivity |]. split.
    { rewrite <- app_assoc, !count_app.
      assert (Hc : forall k a,
                 count (is_detail_of code) (failed_detail_attempts bearer code a k)
                 = k).
      { induction k as [| k IHk]; intro a; [reflexivity |].
        cbn [failed_detail_attempts]. unfold count in *.
        cbn [List.filter is_detail_of]. rewrite String.eqb_refl.
        cbn [List.length]. rewrite IHk. reflexivity. }
      rewrite Hc. unfold count. cbn [List.filter is_detail_of].
      rewrite String.eqb_refl. cbn. lia. }
    split; [| reflexivity].
    rewrite backoff_time_closed by lia. unfold backoffBaseMs. lia.
  - intro Hneg. unfold Enricher.requestDetailWithRetry.
    rewrite for_range_nil by lia. reflexivity.
Qed.

(** X11. Whatever the search endpoint answers, once the token is there
    [fetchOpportunities] ends after some [n < maxAttempts] retryable
    failures: it has made [n + 1] requests for the page, all with the
    token just obtained, and slept 1000 * (2^n - 1) ms in all; the
    outcome is that of request [n], which is not retryable unless it was
    attempt number [maxAttempts].  With [maxAttempts < 1] no request is
    made and the call throws. *)
Theorem fetchOpportunities_ends_within_maxAttempts :
  forall (page : Z) (w w1 : World) (tok : string),
    TokenManager.getValidToken remote w = (Returned tok, w1) ->
    let reply (i : nat) :=
      search_api remote page (count is_search (trace w1) + i) in
    (1 <= maxAttempts (this w1) ->
     exists (n : nat) (w' : World),
       Z.of_nat n < maxAttempts (this w1) /\
       Scraper.fetchOpportunities remote page w
       = (Scraper.search_outcome (reply n), w') /\
       (forall i : nat, (i < n)%nat ->
          retryable (reply_class (reply i)) = true) /\
       (retryable (reply_class (reply n)) = false
        \/ Z.of_nat n + 1 = maxAttempts (this w1)) /\
       trace w' = trace w1 ++ failed_attempts (Some tok) page 0 n
                           ++ [EvSearch (Some tok) page] /\
       count is_search (trace w') = (count is_search (trace w1) + n + 1)%nat /\
       clock_ms w' = clock_ms w1 + 1000 * (2 ^ Z.of_nat n - 1) /\
       session_json w' = session_json w1)
    /\
    (maxAttempts (this w1) < 1 ->
     Scraper.fetchOpportunities remote page w
     = (Thrown (Error "Failed to fetch opportunities after retries."),
        with_bearer tok w1)).
Proof.
  intros page w w1 tok Htok reply. split.
  - intro Hm.
    destruct (first_settling_reply
                (fun i => retryable (reply_class (reply i)))
                (Z.to_nat (maxAttempts (this w1) - 1))) as [n [Hle [Hall Hlast]]].
    assert (Hlast' : retryable (reply_class (reply n)) = false
                     \/ 1 + Z.of_nat n = maxAttempts (this w1)).
    { destruct Hlast as [H | H]; [left; exact H | right; lia]. }
    destruct (@fetchOpportunities_run RT remote page n w w1 tok Htok
                ltac:(lia) Hall Hlast')
      as [w' [Hrun [Htr [Hclock [Hsess _]]]]].
    exists n, w'. split; [lia |]. split; [exact Hrun |].
    split; [exact Hall |]. split.
    { destruct Hlast' as [H | H]; [left; exact H | right; lia]. }
    split; [exact Htr |]. split.
    { apply (@trace_counts w1 w' tok page n Htr). }
    split; [| exact Hsess].
    rewrite Hclock, backoff_time_closed by lia. unfold backoffBaseMs. lia.
  - intro Hm. rewrite (@fetchOpportunities_unfold RT remote page w w1 tok Htok).
    rewrite for_range_nil by lia. reflexivity.
Qed.

End RetryBounds.

(** ** enricher.js: what a run returns and touches *)

Lemma subsequence_refl_nil {A : Type} (l : list A) : subsequence [] l.
Proof. induction l; constructor; assumption. Qed.

Lemma detail_traffic_app (bearer : string) (codes : list string)
    (evs evs' : list Event) :
  detail_traffic bearer codes evs -> detail_traffic bearer codes evs' ->
  detail_traffic bearer codes (evs ++ evs').
Proof. unfold detail_traffic. intros H H'. apply Forall_app. split; assumption. Qed.

Lemma detail_traffic_more (bearer : string) (codes codes' : list string)
    (evs : list Event) :
  (forall c : string, In c codes -> In c codes') ->
  detail_traffic bearer codes evs -> detail_traffic bearer codes' evs.
Proof.
  unfold detail_traffic. intros Hsub H.
  eapply Forall_impl; [| exact H].
  intros ev [Hs | [c [Hc He]]]; [left; exact Hs | right].
  exists c. split; [apply Hsub; exact Hc | exact He].
Qed.

Section EnrichmentFootprint.

Context {RT : Runtime} (remote : Remote).

Variable bearer : string.
Variable timeoutMs maxRetries : Z.

Lemma detail_attempts_footprint (code : string) (attempts : list Z) :
  forall (w w' : World) (out : Outcome (option DetailResponse)),
    Enricher.detail_attempts remote code bearer timeoutMs maxRetries attempts w
    = (out, w') ->
    session_json w' = session_json w /\ this w' = this w /\
    exists evs : list Event,
      trace w' = trace w ++ evs /\ detail_traffic bearer [code] evs.
Proof.
  assert (Hreq : detail_traffic bearer [code] [EvDetail bearer code]).
  { constructor; [| constructor]. right. exists code.
    split; [left; reflexivity | reflexivity]. }
  induction attempts as [| attempt later IH]; intros w w' out Hrun.
  - injection Hrun as _ <-. split; [reflexivity |]. split; [reflexivity |].
    exists []. split; [rewrite app_nil_r; reflexivity | constructor].
  - cbn [Enricher.detail_attempts] in Hrun.
    unfold try_catch, Enricher.requestDetail in Hrun.
    assert (Hlog : forall o,
               (o, log (EvDetail bearer code) w) = (out, w') ->
               session_json w' = session_json w /\ this w' = this w /\
               exists evs : list Event,
                 trace w' = trace w ++ evs /\ detail_traffic bearer [code] evs).
    { intros o Ho. injection Ho as _ <-.
      split; [reflexivity |]. split; [reflexivity |].
      exists [EvDetail bearer code]. split; [reflexivity | exact Hreq]. }
    destruct (Enricher.detail_outcome _ _ _) as [v | e]; [exact (Hlog _ Hrun) |].
    destruct (instanceof_TokenExpiredError e); [exact (Hlog _ Hrun) |].
    destruct (Enricher.statusCode_is e 400 || Enricher.statusCode_is e 401);
      [exact (Hlog _ Hrun) |].
    destruct (negb (Enricher.isRetryable e) || (attempt =? maxRetries));
      [exact (Hlog _ Hrun) |].
    unfold bind at 1, Enricher.delay, sleep in Hrun.
    apply IH in Hrun. destruct Hrun as [Hs [Ht [evs [Htr Hevs]]]].
    cbn [session_json this trace log clock_ms] in Hs, Ht, Htr.
    split; [exact Hs |]. split; [exact Ht |].
    exists ([EvDetail bearer code] ++ [EvSleep (2 ^ attempt * 1000)] ++ evs).
    split.
    + rewrite Htr, <- !app_assoc. reflexivity.
    + apply detail_traffic_app; [exact Hreq |].
      apply detail_traffic_app; [| exact Hevs].
      constructor; [left; reflexivity | constructor].
Qed.

Lemma enrichSingle_footprint (opportunity : Opportunity) :
  forall (w w' : World) (v : option Enricher.Enriched),
    Enricher.enrichSingle remote opportunity bearer timeoutMs maxRetries w
    = (Returned v, w') ->
    (v = None \/ exists d : Detail, v = Some (Enricher.mapDetail opportunity d)) /\
    session_json w' = session_json w /\ this w' = this w /\
    exists evs : list Event,
      trace w' = trace w ++ evs /\
      detail_traffic bearer [codigo opportunity] evs.
Proof.
  intros w w' v Hrun.
  unfold Enricher.enrichSingle, try_catch, bind,
    Enricher.requestDetailWithRetry in Hrun.
  destruct (Enricher.detail_attempts remote (codigo opportunity) bearer timeoutMs
              maxRetries (for_range 0 maxRetries) w) as [out w1] eqn:Hd.
  apply detail_attempts_footprint in Hd.
  destruct out as [response | e].
  - destruct (match response with
              | Some r => detalleSolicitud r
              | None => None
              end) as [d |].
    + injection Hrun as <- <-. split; [right; exists d; reflexivity | exact Hd].
    + injection Hrun as <- <-. split; [left; reflexivity | exact Hd].
  - injection Hrun as <- <-. split; [left; reflexivity | exact Hd].
Qed.

Lemma enrich_each_footprint (todo : list Opportunity) :
  forall (acc l : list Enricher.Enriched) (w w' : World),
    enrich_each remote todo bearer timeoutMs maxRetries acc w = (Returned l, w') ->
    (exists (kept : list Opportunity) (new : list Enricher.Enriched),
       subsequence kept todo /\ l = acc ++ new /\ details_of new kept) /\
    session_json w' = session_json w /\ this w' = this w /\
    exists evs : list Event,
      trace w' = trace w ++ evs /\
      detail_traffic bearer (List.map codigo todo) evs.
Proof.
  induction todo as [| o rest IH]; intros acc l w w' Hrun.
  - injection Hrun as <- <-. split.
    + exists [], []. split; [constructor |].
      split; [rewrite app_nil_r; reflexivity | constructor].
    + split; [reflexivity |]. split; [reflexivity |].
      exists []. split; [rewrite app_nil_r; reflexivity | constructor].
  - cbn [enrich_each] in Hrun.
    destruct (@enrichSingle_returns remote bearer timeoutMs maxRetries o w)
      as [v [w1 Hv]].
    rewrite (bind_Returned _ _ _ Hv) in Hrun.
    apply enrichSingle_footprint in Hv.
    destruct Hv as [Hval [Hs1 [Ht1 [evs1 [Htr1 Hevs1]]]]].
    apply IH in Hrun.
    destruct Hrun as [[kept [new [Hsub [Hl Hdet]]]] [Hs [Ht [evs [Htr Hevs]]]]].
    split; [| split; [congruence | split; [congruence |]]].
    + destruct Hval as [-> | [d ->]].
      * exists kept, new. split; [constructor; exact Hsub |].
        split; [rewrite Hl, app_nil_r; reflexivity | exact Hdet].
      * exists (o :: kept), (Enricher.mapDetail o d :: new).
        split; [constructor; exact Hsub |].
        split; [rewrite Hl, <- app_assoc; reflexivity |].
        constructor; [exists d; reflexivity | exact Hdet].
    + exists (evs1 ++ evs). split; [rewrite Htr, Htr1, app_assoc; reflexivity |].
      apply detail_traffic_app.
      * eapply detail_traffic_more; [| exact Hevs1].
        intros c [<- | []]. left. reflexivity.
      * eapply detail_traffic_more; [| exact Hevs].
        intros c Hc. right. exact Hc.
Qed.

End EnrichmentFootprint.

Section EnrichmentRunFootprint.

Context {RT : Runtime} (remote : Remote).

(** X12. What a run of [enrichOpportunities] that returns has done.  The
    records it returns are the detail records of some of the eligible
    listings, in the order of the input, one per listing at most.  When
    nothing is eligible it returns the empty list and does nothing else:
    no token is read and no request is made.  Otherwise, after
    [getValidToken], it leaves the session file alone and makes nothing
    but backoff sleeps and detail requests, each with the token obtained
    and for the code of an eligible listing. *)
Theorem enrichOpportunities_returns_details_of_eligible_listings :
  forall (opportunities : list Opportunity) (options : Enricher.Options)
         (w w' : World) (l : list Enricher.Enriched),
    Enricher.enrichOpportunities remote opportunities options w
    = (Returned l, w') ->
    let eligible :=
      List.filter (fun opp => Enricher.shouldEnrich opp (clock_ms w))
                  opportunities in
    (exists kept : list Opportunity,
       subsequence kept eligible /\ details_of l kept) /\
    (eligible = [] -> l = [] /\ w' = w) /\
    (eligible <> [] ->
     exists (tok : string) (w1 : World) (evs : list Event),
       TokenManager.getValidToken remote w = (Returned tok, w1) /\
       session_json w' = session_json w1 /\
       trace w' = trace w1 ++ evs /\
       detail_traffic tok (List.map codigo eligible) evs).
Proof.
  intros opportunities options w w' l Hrun eligible.
  rewrite enrichOpportunities_unfold in Hrun. fold eligible in Hrun.
  destruct eligible as [| f rest] eqn:Hel.
  - injection Hrun as <- <-. split.
    + exists []. split; constructor.
    + split; [intros _; split; reflexivity | congruence].
  - unfold bind in Hrun.
    destruct (TokenManager.getValidToken remote w) as [[tok | e] w1] eqn:Htok;
      [| discriminate].
    apply enrich_each_footprint in Hrun.
    destruct Hrun as [[kept [new [Hsub [Hl Hdet]]]] [Hs [_ [evs [Htr Hevs]]]]].
    cbn [app] in Hl. subst new. split.
    + exists kept. split; assumption.
    + split; [discriminate |]. intros _.
      exists tok, w1, evs. repeat split; assumption.
Qed.

End EnrichmentRunFootprint.

(** ** scraper-final.js: the pages a run asks for *)

Lemma climbs_repeat (p : Z) (k : nat) (ps : list Z) :
  climbs p ps -> climbs p (repeat p k ++ ps).
Proof.
  intro H. induction k as [| k IH]; [exact H |].
  cbn. split; [left; reflexivity | exact IH].
Qed.

Lemma climbs_block (p : Z) (k : nat) (ps : list Z) :
  (1 <= k)%nat \/ ps = [] ->
  climbs p ps -> climbs (p - 1) (repeat p k ++ ps).
Proof.
  intros Hk H. destruct k as [| k].
  - destruct Hk as [Hk | ->]; [lia | exact I].
  - cbn. split; [right; lia | apply climbs_repeat; exact H].
Qed.

Lemma searched_pages_detail_traffic (bearer : string) (codes : list string)
    (evs : list Event) :
  detail_traffic bearer codes evs -> searched_pages evs = [].
Proof.
  induction 1 as [| ev evs Hev _ IH]; [reflexivity |].
  unfold searched_pages in *. cbn [flat_map]. rewrite IH.
  destruct Hev as [Hs | [c [_ ->]]]; [| reflexivity].
  destruct ev; try discriminate. reflexivity.
Qed.

Section CrawlFootprint.

Context {RT : Runtime} (remote : Remote).

(** [getValidToken] makes no search request and leaves the scraper
    object and the clock alone; what it throws requires manual
    re-authentication. *)
Lemma getValidToken_footprint (w w' : World) (out : Outcome string) :
  TokenManager.getValidToken remote w = (out, w') ->
  this w' = this w /\ clock_ms w' = clock_ms w /\
  (exists evs : list Event,
     trace w' = trace w ++ evs /\ searched_pages evs = []) /\
  (forall e : JsError, out = Thrown e -> AuthExpired e).
Proof.
  intro Hrun.
  assert (Hstay : forall e : JsError,
             (Thrown e, w) = (out, w') -> AuthExpired e ->
             this w' = this w /\ clock_ms w' = clock_ms w /\
             (exists evs : list Event,
                trace w' = trace w ++ evs /\ searched_pages evs = []) /\
             (forall e : JsError, out = Thrown e -> AuthExpired e)).
  { intros e He Hauth. injection He as <- <-.
    split; [reflexivity |]. split; [reflexivity |]. split.
    - exists []. split; [rewrite app_nil_r; reflexivity | reflexivity].
    - intros e' He'. injection He' as <-. exact Hauth. }
  destruct (session_json w) as [why | why | | s] eqn:Hs.
  - unfold TokenManager.getValidToken, bind,
      TokenManager.readSessionFileOrThrow in Hrun.
    rewrite Hs in Hrun. eapply Hstay; [exact Hrun | reflexivity].
  - unfold TokenManager.getValidToken, bind,
      TokenManager.readSessionFileOrThrow in Hrun.
    rewrite Hs in Hrun. eapply Hstay; [exact Hrun | reflexivity].
  - unfold TokenManager.getValidToken, bind,
      TokenManager.readSessionFileOrThrow in Hrun.
    rewrite Hs in Hrun. eapply Hstay; [exact Hrun | reflexivity].
  - rewrite (getValidToken_unfold remote w Hs) in Hrun.
    destruct (usable s (clock_ms w)).
    { injection Hrun as <- <-.
      split; [reflexivity |]. split; [reflexivity |]. split.
      - exists []. split; [rewrite app_nil_r; reflexivity | reflexivity].
      - intros e' He'. discriminate. }
    destruct (refresh_cookie s) as [rc |];
      [| eapply Hstay; [exact Hrun | reflexivity]].
    destruct (negb (Js.truthy_string (value rc)));
      [eapply Hstay; [exact Hrun | reflexivity] |].
    destruct (TokenManager.refresh_outcome _) as [p | e1] eqn:Hout.
    + destruct (persistRefreshedTokens_run s p rc
                  (log (EvRefresh (value rc)) w)) as [cs' [c' [Hp _]]].
      rewrite (bind_Returned _ _ _ Hp) in Hrun.
      injection Hrun as <- <-. cbn [this clock_ms trace log].
      split; [reflexivity |]. split; [reflexivity |]. split.
      * exists [EvRefresh (value rc)]. split; reflexivity.
      * intros e' He'. discriminate.
    + injection Hrun as <- <-. cbn [this clock_ms trace log].
      split; [reflexivity |]. split; [reflexivity |]. split.
      * exists [EvRefresh (value rc)]. split; reflexivity.
      * intros e' He'. injection He' as <-.
        apply refresh_outcome_error_class in Hout.
        unfold AuthExpired, requiresManualReauth. rewrite Hout. reflexivity.
Qed.

Lemma fetch_attempts_footprint (page : Z) (attempts : list Z) :
  forall (w w' : World) (out : Outcome (option SearchResponse)),
    Scraper.fetch_attempts remote page attempts w = (out, w') ->
    exists (evs : list Event) (k : nat),
      trace w' = trace w ++ evs /\
      searched_pages evs = repeat page k /\
      (forall v, out = Returned v -> (1 <= k)%nat).
Proof.
  induction attempts as [| attempt later IH]; intros w w' out Hrun.
  - injection Hrun as <- <-. exists [], 0%nat.
    split; [rewrite app_nil_r; reflexivity |]. split; [reflexivity |].
    intros v Hv. discriminate.
  - cbn [Scraper.fetch_attempts] in Hrun.
    unfold try_catch, Scraper.requestOpportunities in Hrun.
    assert (Hlog : forall o,
               (o, log (EvSearch (bearerToken (this w)) page) w) = (out, w') ->
               exists (evs : list Event) (k : nat),
                 trace w' = trace w ++ evs /\
                 searched_pages evs = repeat page k /\
                 (forall v, out = Returned v -> (1 <= k)%nat)).
    { intros o Ho. injection Ho as _ <-.
      exists [EvSearch (bearerToken (this w)) page], 1%nat.
      split; [reflexivity |]. split; [reflexivity |]. intros; lia. }
    destruct (Scraper.search_outcome _) as [v | e]; [exact (Hlog _ Hrun) |].
    destruct (instanceof_TokenExpiredError e); [exact (Hlog _ Hrun) |].
    destruct (Enricher.statusCode_is e 400); [exact (Hlog _ Hrun) |].
    unfold bind at 1, Scraper.get_this in Hrun.
    cbn [this log] in Hrun.
    destruct (negb (Enricher.isRetryable e) || (attempt =? maxAttempts (this w)));
      [exact (Hlog _ Hrun) |].
    unfold bind at 1, sleep in Hrun.
    apply IH in Hrun. destruct Hrun as [evs [k [Htr [Hps Hk]]]].
    cbn [trace log] in Htr.
    exists ([EvSearch (bearerToken (this w)) page]
            ++ [EvSleep (2 ^ (attempt - 1) * 1000)] ++ evs), (S k).
    split; [rewrite Htr, <- !app_assoc; reflexivity |].
    split; [| intros; lia].
    rewrite !searched_pages_app, Hps. reflexivity.
Qed.

Lemma fetchOpportunities_footprint (page : Z) (w w' : World)
    (out : Outcome (option SearchResponse)) :
  Scraper.fetchOpportunities remote page w = (out, w') ->
  exists (evs : list Event) (k : nat),
    trace w' = trace w ++ evs /\
    searched_pages evs = repeat page k /\
    (forall v, out = Returned v -> (1 <= k)%nat).
Proof.
  intro Hrun.
  destruct (TokenManager.getValidToken remote w) as [[tok | e] w1] eqn:Htok.
  - rewrite (@fetchOpportunities_unfold RT remote page w w1 tok Htok) in Hrun.
    apply getValidToken_footprint in Htok.
    destruct Htok as [_ [_ [[evs0 [Htr0 Hps0]] _]]].
    apply fetch_attempts_footprint in Hrun.
    destruct Hrun as [evs [k [Htr [Hps Hk]]]]. cbn [trace with_bearer] in Htr.
    exists (evs0 ++ evs), k.
    split; [rewrite Htr, Htr0, app_assoc; reflexivity |].
    split; [rewrite searched_pages_app, Hps0, Hps; reflexivity | exact Hk].
  - unfold Scraper.fetchOpportunities, Scraper.ensureToken in Hrun.
    unfold bind at 1 in Hrun. unfold bind at 1 in Hrun. rewrite Htok in Hrun.
    injection Hrun as <- <-.
    apply getValidToken_footprint in Htok.
    destruct Htok as [_ [_ [[evs0 [Htr0 Hps0]] _]]].
    exists evs0, 0%nat. split; [exact Htr0 |]. split; [exact Hps0 |].
    intros v Hv. discriminate.
Qed.

(** The prints and the file writes change nothing of the world. *)
Lemma substring_of_silent (expr : string) (v : TextField) (w w' : World)
    (out : Outcome unit) :
  Scraper.substring_of expr v w = (out, w') -> w' = w.
Proof. destruct v; intro H; injection H as _ <-; reflexivity. Qed.

Lemma optional_substring_of_silent (expr : string) (v : TextField)
    (w w' : World) (out : Outcome unit) :
  Scraper.optional_substring_of expr v w = (out, w') -> w' = w.
Proof. destruct v; intro H; injection H as _ <-; reflexivity. Qed.

Lemma bind_silent {A B : Type} (c : M A) (k : A -> M B) :
  (forall w w' out, c w = (out, w') -> w' = w) ->
  (forall a w w' out, k a w = (out, w') -> w' = w) ->
  forall w w' out, bind c k w = (out, w') -> w' = w.
Proof.
  intros Hc Hk w w' out H. unfold bind in H.
  destruct (c w) as [[a | e] w1] eqn:Hcw; apply Hc in Hcw; subst w1.
  - apply (Hk a w w' out H).
  - injection H as _ <-. reflexivity.
Qed.

Lemma print_sample_silent (o : Opportunity) (w w' : World) (out : Outcome unit) :
  Scraper.print_sample o w = (out, w') -> w' = w.
Proof.
  apply bind_silent.
  - intros w0 w0' out0. apply substring_of_silent.
  - intros _ w0 w0' out0. apply optional_substring_of_silent.
Qed.

Lemma for_each_silent {A : Type} (f : A -> M unit) (l : list A) :
  (forall x w w' out, f x w = (out, w') -> w' = w) ->
  forall w w' out, Scraper.for_each f l w = (out, w') -> w' = w.
Proof.
  intro Hf. induction l as [| x l IH]; intros w w' out H.
  - injection H as _ <-. reflexivity.
  - cbn [Scraper.for_each] in H. revert w w' out H. apply bind_silent.
    + apply Hf.
    + intros _. exact IH.
Qed.

Lemma writeFileSync_silent (file : ResultFile) (w w' : World)
    (out : Outcome unit) :
  Scraper.writeFileSync file w = (out, w') -> w' = w.
Proof.
  unfold Scraper.writeFileSync.
  destruct (writeFileSync_error file (clock_ms w)); intro H;
    injection H as _ <-; reflexivity.
Qed.

Lemma crawl_pages_footprint (n : nat) :
  forall (lo hi : Z) (acc : list Opportunity) (w w' : World)
         (out : Outcome (list Opportunity)),
    hi - lo + 1 <= Z.of_nat n ->
    Scraper.crawl_pages remote (for_range lo hi) acc w = (out, w') ->
    exists evs : list Event,
      trace w' = trace w ++ evs /\
      climbs (lo - 1) (searched_pages evs) /\
      Forall (fun p => lo <= p <= hi) (searched_pages evs).
Proof.
  induction n as [| n IH]; intros lo hi acc w w' out Hn Hrun.
  - rewrite for_range_nil in Hrun by lia. injection Hrun as <- <-.
    exists []. split; [rewrite app_nil_r; reflexivity |].
    split; [exact I | constructor].
  - destruct (Z_lt_le_dec hi lo) as [Hlt | Hle].
    { rewrite for_range_nil in Hrun by lia. injection Hrun as <- <-.
      exists []. split; [rewrite app_nil_r; reflexivity |].
      split; [exact I | constructor]. }
    rewrite (@for_range_cons lo hi) in Hrun by exact Hle.
    cbn [Scraper.crawl_pages] in Hrun. unfold bind at 1 in Hrun.
    destruct (Scraper.fetchOpportunities remote lo w) as [fout w1] eqn:Hfetch.
    apply fetchOpportunities_footprint in Hfetch.
    destruct Hfetch as [evs1 [k [Htr1 [Hps1 Hk]]]].
    assert (Hstop : forall o,
               (o, w1) = (out, w') ->
               exists evs : list Event,
                 trace w' = trace w ++ evs /\
                 climbs (lo - 1) (searched_pages evs) /\
                 Forall (fun p => lo <= p <= hi) (searched_pages evs)).
    { intros o Ho. injection Ho as _ <-. exists evs1.
      split; [exact Htr1 |]. rewrite Hps1. split.
      - rewrite <- (app_nil_r (repeat lo k)).
        apply climbs_block; [right; reflexivity | exact I].
      - apply Forall_forall. intros p Hp. apply repeat_spec in Hp. lia. }
    destruct fout as [response | e]; [| exact (Hstop _ Hrun)].
    destruct response as [r |]; [| exact (Hstop _ Hrun)].
    destruct (payload r) as [p |]; [| exact (Hstop _ Hrun)].
    destruct (resultados p) as [opps |]; [| exact (Hstop _ Hrun)].
    destruct (List.length opps =? 0)%nat; [exact (Hstop _ Hrun) |].
    unfold bind at 1 in Hrun.
    destruct ((if lo =? 1
               then match opps with
                    | first :: _ => Scraper.print_sample first
                    | [] => ret tt
                    end
               else ret tt) w1) as [sout ws] eqn:Hsample.
    assert (Hws : ws = w1).
    { destruct (lo =? 1); [destruct opps |].
      - injection Hsample as _ <-. reflexivity.
      - apply print_sample_silent in Hsample. exact Hsample.
      - injection Hsample as _ <-. reflexivity. }
    subst ws.
    destruct sout as [[] | e]; [| exact (Hstop _ Hrun)].
    destruct (match pageCount p with
              | Some n0 => n0 <=? lo
              | None => false
              end); [exact (Hstop _ Hrun) |].
    unfold bind at 1, sleep in Hrun.
    apply IH in Hrun; [| lia].
    destruct Hrun as [evs2 [Htr2 [Hcl2 Hin2]]]. cbn [trace] in Htr2.
    exists (evs1 ++ [EvSleep 1000] ++ evs2).
    split; [rewrite Htr2, Htr1, <- !app_assoc; reflexivity |].
    rewrite !searched_pages_app, Hps1. cbn [searched_pages flat_map app].
    replace (lo + 1 - 1) with lo in Hcl2 by lia. split.
    + apply climbs_block; [left; apply (Hk (Some r)); reflexivity | exact Hcl2].
    + apply Forall_app. split.
      * apply Forall_forall. intros q Hq. apply repeat_spec in Hq. lia.
      * eapply Forall_impl; [| exact Hin2]. cbn. intros q Hq. lia.
Qed.

Lemma enrichOpportunities_searches_nothing (opportunities : list Opportunity)
    (options : Enricher.Options) (w w' : World)
    (out : Outcome (list Enricher.Enriched)) :
  Enricher.enrichOpportunities remote opportunities options w = (out, w') ->
  exists evs : list Event,
    trace w' = trace w ++ evs /\ searched_pages evs = [].
Proof.
  intro Hrun. rewrite enrichOpportunities_unfold in Hrun.
  destruct (List.filter _ opportunities) as [| f rest].
  - injection Hrun as _ <-. exists [].
    split; [rewrite app_nil_r; reflexivity | reflexivity].
  - unfold bind in Hrun.
    destruct (TokenManager.getValidToken remote w) as [[tok | e] w1] eqn:Htok;
      apply getValidToken_footprint in Htok;
      destruct Htok as [_ [_ [[evs0 [Htr0 Hps0]] _]]].
    + destruct out as [l | e].
      * apply enrich_each_footprint in Hrun.
        destruct Hrun as [_ [_ [_ [evs [Htr Hevs]]]]].
        exists (evs0 ++ evs).
        split; [rewrite Htr, Htr0, app_assoc; reflexivity |].
        rewrite searched_pages_app, Hps0.
        apply (searched_pages_detail_traffic Hevs).
      * destruct (@enrich_each_returns remote tok (effective_timeoutMs options)
                    (effective_maxRetries options) (f :: rest) [] w1)
          as [l [w2 Hl]].
        rewrite Hl in Hrun. discriminate.
    + injection Hrun as _ <-. exists evs0. split; assumption.
Qed.

Lemma write_results_searches_nothing (enrich : bool) (all : list Opportunity)
    (w w' : World) (out : Outcome (list Opportunity)) :
  Scraper.write_results remote enrich all w = (out, w') ->
  exists evs : list Event,
    trace w' = trace w ++ evs /\ searched_pages evs = [].
Proof.
  intro Hrun. unfold Scraper.write_results in Hrun.
  assert (Hnone : forall w0 : World,
             w0 = w' ->
             exists evs : list Event,
               trace w' = trace w0 ++ evs /\ searched_pages evs = []).
  { intros w0 ->. exists []. split; [rewrite app_nil_r |]; reflexivity. }
  unfold bind at 1 in Hrun.
  destruct (Scraper.writeFileSync DataFile w) as [[[] | e] w1] eqn:H1;
    apply writeFileSync_silent in H1; subst w1;
    [| injection Hrun as _ <-; apply Hnone; reflexivity].
  unfold bind at 1 in Hrun.
  destruct (Scraper.for_each _ all w) as [[[] | e] w1] eqn:H2;
    (apply for_each_silent in H2;
     [| intros x w0 w0' out0; apply optional_substring_of_silent]); subst w1;
    [| injection Hrun as _ <-; apply Hnone; reflexivity].
  unfold bind at 1 in Hrun.
  destruct (Scraper.writeFileSync SummaryFile w) as [[[] | e] w1] eqn:H3;
    apply writeFileSync_silent in H3; subst w1;
    [| injection Hrun as _ <-; apply Hnone; reflexivity].
  unfold bind at 1 in Hrun.
  assert (Htail : forall w2 : World,
             (exists evs : list Event,
                trace w2 = trace w ++ evs /\ searched_pages evs = []) ->
             bind (Scraper.for_each
                     (fun opp => Scraper.substring_of "opp.nombre" (nombre opp))
                     (firstn 10 all))
                  (fun _ => ret all) w2 = (out, w') ->
             exists evs : list Event,
               trace w' = trace w ++ evs /\ searched_pages evs = []).
  { intros w2 Hw2 Ht.
    assert (Hsame : w' = w2).
    { revert Ht. apply bind_silent.
      - apply for_each_silent. intros x w0 w0' out0. apply substring_of_silent.
      - intros _ w0 w0' out0 H. injection H as _ <-. reflexivity. }
    subst w'. exact Hw2. }
  destruct enrich.
  - unfold bind at 1 in Hrun.
    destruct (Enricher.enrichOpportunities remote all Enricher.no_options w)
      as [eout w1] eqn:Hen.
    apply enrichOpportunities_searches_nothing in Hen.
    destruct eout as [enriched | e];
      [| injection Hrun as _ <-; exact Hen].
    destruct (List.length enriched =? 0)%nat.
    + unfold ret at 1 in Hrun. exact (Htail w1 Hen Hrun).
    + destruct (Scraper.writeFileSync EnrichedFile w1) as [[[] | e] w2] eqn:H4;
        apply writeFileSync_silent in H4; subst w2.
      * exact (Htail w1 Hen Hrun).
      * injection Hrun as _ <-. exact Hen.
  - unfold ret at 1 in Hrun. apply (Htail w); [| exact Hrun].
    exists []. split; [rewrite app_nil_r |]; reflexivity.
Qed.

(** X13. Whatever the servers answer and however a run of [scrape] ends,
    the search requests it has made are for pages between 1 and
    [maxPages], the first of them for page 1, and each of them for the
    page of the request before it (a retry) or for the next page: no
    page is skipped and none is asked again once the next one was. *)
Theorem scrape_asks_pages_in_order_up_to_maxPages :
  forall (maxPages : Z) (enrich : bool) (w w' : World)
         (out : Outcome (list Opportunity)),
    Scraper.scrape remote maxPages enrich w = (out, w') ->
    exists evs : list Event,
      trace w' = trace w ++ evs /\
      climbs 0 (searched_pages evs) /\
      Forall (fun p => 1 <= p <= maxPages) (searched_pages evs).
Proof.
  intros maxPages enrich w w' out Hrun.
  unfold Scraper.scrape, Scraper.ensureToken in Hrun.
  unfold bind at 1 in Hrun. unfold bind at 1 in Hrun.
  destruct (TokenManager.getValidToken remote w) as [[tok | e] w1] eqn:Htok;
    apply getValidToken_footprint in Htok;
    destruct Htok as [_ [_ [[evs0 [Htr0 Hps0]] _]]].
  - unfold bind at 1, Scraper.set_bearerToken, ret in Hrun.
    unfold bind at 1 in Hrun.
    destruct (Scraper.crawl_pages remote (for_range 1 maxPages) [] _)
      as [cout w2] eqn:Hcrawl.
    apply (@crawl_pages_footprint (Z.to_nat maxPages)) in Hcrawl; [| lia].
    destruct Hcrawl as [evs1 [Htr1 [Hcl Hin]]]. cbn [trace] in Htr1.
    assert (Hdone : forall evs2 : list Event,
               trace w' = trace w2 ++ evs2 -> searched_pages evs2 = [] ->
               exists evs : list Event,
                 trace w' = trace w ++ evs /\
                 climbs 0 (searched_pages evs) /\
                 Forall (fun p => 1 <= p <= maxPages) (searched_pages evs)).
    { intros evs2 Htr2 Hps2. exists (evs0 ++ evs1 ++ evs2).
      split; [rewrite Htr2, Htr1, Htr0, <- !app_assoc; reflexivity |].
      rewrite !searched_pages_app, Hps0, Hps2, app_nil_r. cbn [app].
      split; assumption. }
    destruct cout as [all | e].
    + apply write_results_searches_nothing in Hrun.
      destruct Hrun as [evs2 [Htr2 Hps2]]. exact (Hdone evs2 Htr2 Hps2).
    + injection Hrun as _ <-. apply (Hdone []); [| reflexivity].
      rewrite app_nil_r. reflexivity.
  - injection Hrun as _ <-. exists evs0. rewrite Hps0.
    split; [exact Htr0 |]. split; [exact I | constructor].
Qed.


End CrawlFootprint.

(** ** session-monitor.js *)

Section MonitorFurther.

Context {RT : Runtime} (remote : Remote).

Variable WARN_HOURS CRIT_HOURS : Q.

Lemma classify_by_minimum (l : list (option Q)) (first : Q) (others : list Q) :
  SessionMonitor.known_of l = first :: others ->
  exists m : Q,
    is_minimum m (first :: others) /\
    severity (SessionMonitor.level
                (SessionMonitor.classify WARN_HOURS CRIT_HOURS l))
    = if Js.leb m 0 then 2%nat
      else if Js.leb m CRIT_HOURS then 2%nat
      else if Js.leb m WARN_HOURS then 1%nat else 0%nat.
Proof.
  intro Hk. exists (SessionMonitor.Math_min first others).
  split; [apply Math_min_is_minimum |].
  unfold SessionMonitor.classify. rewrite Hk. cbv zeta.
  destruct (Js.leb _ 0); [reflexivity |].
  destruct (Js.leb _ CRIT_HOURS); [reflexivity |].
  destruct (Js.leb _ WARN_HOURS); reflexivity.
Qed.

(** X15. The verdict of [classify] never gets better when signals are
    added or lowered: if at least one signal of a list is parseable and
    each parseable signal of it has in a second list a parseable signal
    that is not higher, the level for the second list is at least as
    severe.  In particular the level does not depend on the order of the
    signals. *)
Theorem classify_level_is_monotone :
  forall l l' : list (option Q),
    (exists x : Q, In (Some x) l) ->
    (forall x : Q, In (Some x) l ->
       exists y : Q, In (Some y) l' /\ (y <= x)%Q) ->
    (severity (SessionMonitor.level
                 (SessionMonitor.classify WARN_HOURS CRIT_HOURS l))
     <= severity (SessionMonitor.level
                    (SessionMonitor.classify WARN_HOURS CRIT_HOURS l')))%nat.
Proof.
  intros l l' [x0 Hx0] Hlow.
  destruct (SessionMonitor.known_of l) as [| f o] eqn:Hk.
  { apply in_known_of in Hx0. rewrite Hk in Hx0. destruct Hx0. }
  destruct (SessionMonitor.known_of l') as [| f' o'] eqn:Hk'.
  { destruct (Hlow x0 Hx0) as [y [Hy _]].
    apply in_known_of in Hy. rewrite Hk' in Hy. destruct Hy. }
  destruct (classify_by_minimum l Hk) as [m [[Hle [x [Hx Hmx]]] ->]].
  destruct (classify_by_minimum l' Hk') as [m' [[Hle' _] ->]].
  assert (Hmm : (m' <= m)%Q).
  { rewrite <- Hk in Hx. apply in_known_of in Hx.
    destruct (Hlow x Hx) as [y [Hy Hyx]].
    apply Qle_trans with y.
    - apply Hle'. rewrite <- Hk'. apply in_known_of. exact Hy.
    - rewrite Hmx. exact Hyx. }
  destruct (Js.leb m' 0) eqn:E0'.
  { destruct (Js.leb m 0); [lia |].
    destruct (Js.leb m CRIT_HOURS); [lia |].
    destruct (Js.leb m WARN_HOURS); lia. }
  apply leb_false in E0'.
  destruct (Js.leb m 0) eqn:E0; [apply leb_spec in E0; lra |].
  destruct (Js.leb m' CRIT_HOURS) eqn:Ec'.
  { destruct (Js.leb m CRIT_HOURS); [lia |].
    destruct (Js.leb m WARN_HOURS); lia. }
  apply leb_false in Ec'.
  destruct (Js.leb m CRIT_HOURS) eqn:Ec; [apply leb_spec in Ec; lra |].
  destruct (Js.leb m' WARN_HOURS) eqn:Ew'.
  { destruct (Js.leb m WARN_HOURS); lia. }
  apply leb_false in Ew'.
  destruct (Js.leb m WARN_HOURS) eqn:Ew; [apply leb_spec in Ew; lra | lia].
Qed.




End MonitorFurther.

(** ** The command line of scraper-final.js and the helpers of server.js *)

Lemma startsWith_inv (p s : string) :
  Cli.startsWith p s = true -> exists t : string, s = (p ++ t)%string.
Proof.
  revert s. induction p as [| a p IH]; intros s H.
  - exists s. reflexivity.
  - destruct s as [| b s]; [discriminate |]. cbn in H.
    apply andb_true_iff in H. destruct H as [Hab Hp].
    apply Ascii.eqb_eq in Hab. subst b.
    destruct (IH s Hp) as [t ->]. exists t. reflexivity.
Qed.

Lemma startsWith_app (p t : string) : Cli.startsWith p (p ++ t) = true.
Proof.
  induction p as [| a p IH]; [reflexivity |].
  cbn. rewrite Ascii.eqb_refl. exact IH.
Qed.

(** The first piece of a split is the text up to the first separator. *)
Lemma split_first (c : ascii) (s : string) :
  exists (first : string) (others : list string),
    Js.split c s = first :: others /\
    (s = first \/ exists r : string, s = (first ++ String c r)%string).
Proof.
  induction s as [| a rest [first [others [Hsplit Hshape]]]].
  - exists EmptyString, []. split; [reflexivity | left; reflexivity].
  - cbn [Js.split]. destruct (Ascii.eqb a c) eqn:Hac.
    + apply Ascii.eqb_eq in Hac. subst a.
      exists EmptyString, (Js.split c rest).
      split; [reflexivity | right; exists rest; reflexivity].
    + rewrite Hsplit. exists (String a first), others.
      split; [reflexivity |].
      destruct Hshape as [-> | [r ->]]; [left; reflexivity |].
      right. exists r. reflexivity.
Qed.

Lemma checked_value_of_split (arg n tail : string) (lo hi v : Z) :
  Js.split "=" arg = n :: Js.split "=" tail ->
  Cli.checked_value arg lo hi = Some v ->
  lo <= v <= hi /\
  exists raw rest : string,
    tail = (raw ++ rest)%string /\
    Cli.is_digits raw = true /\
    (rest = EmptyString \/ exists r : string, rest = String "=" r) /\
    v = Cli.Number_of_digits raw.
Proof.
  intros Hsplit Hv. unfold Cli.checked_value in Hv. rewrite Hsplit in Hv.
  destruct (split_first "=" tail) as [raw [others [Htail Hshape]]].
  rewrite Htail in Hv. cbv zeta in Hv.
  destruct (Cli.is_digits raw) eqn:Hd; [| discriminate].
  destruct (lo <=? Cli.Number_of_digits raw) eqn:Hlo; [| discriminate].
  destruct (Cli.Number_of_digits raw <=? hi) eqn:Hhi; [| discriminate].
  cbn in Hv. injection Hv as <-.
  apply Z.leb_le in Hlo, Hhi. split; [lia |].
  destruct Hshape as [-> | [r ->]].
  - exists raw, EmptyString. rewrite string_app_nil_r.
    repeat split; [exact Hd | left; reflexivity].
  - exists raw, (String "=" r).
    repeat split; [exact Hd | right; exists r; reflexivity].
Qed.

Lemma checked_pages (arg : string) (lo hi v : Z) :
  Cli.startsWith "--pages=" arg = true ->
  Cli.checked_value arg lo hi = Some v ->
  lo <= v <= hi /\ reads_argument "--pages=" arg v.
Proof.
  intros Hp Hv. apply startsWith_inv in Hp. destruct Hp as [tail ->].
  destruct (@checked_value_of_split ("--pages=" ++ tail) "--pages" tail lo hi v
              eq_refl Hv) as [Hb [raw [rest [-> H]]]].
  split; [exact Hb |]. exists raw, rest. split; [reflexivity | exact H].
Qed.

Lemma checked_days (arg : string) (lo hi v : Z) :
  Cli.startsWith "--days=" arg = true ->
  Cli.checked_value arg lo hi = Some v ->
  lo <= v <= hi /\ reads_argument "--days=" arg v.
Proof.
  intros Hp Hv. apply startsWith_inv in Hp. destruct Hp as [tail ->].
  destruct (@checked_value_of_split ("--days=" ++ tail) "--days" tail lo hi v
              eq_refl Hv) as [Hb [raw [rest [-> H]]]].
  split; [exact Hb |]. exists raw, rest. split; [reflexivity | exact H].
Qed.

Lemma find_holds {A : Type} (p : A -> bool) (l : list A) (a : A) :
  Js.find p l = Some a -> p a = true.
Proof. intro H. apply find_some in H. apply H. Qed.

(** X17. When the command line starts a run, the options of the run are
    within bounds: between 1 and 50 pages, between 1 and 90 days, region
    13 or none.  The pages are 10 when no argument starts with
    [--pages=], and otherwise what the first such argument says, read
    from the digits that follow [--pages=] up to the end of the argument
    or to a further [=]; the same holds for [--days=], with 7 for an
    absent argument. *)
Theorem cli_main_runs_within_bounds :
  forall (args : list string) (o : Cli.Options),
    Cli.main args = Cli.Run o ->
    within_bounds o /\
    match Js.find (Cli.startsWith "--pages=") args with
    | Some pagesArg => reads_argument "--pages=" pagesArg (Cli.maxPages o)
    | None => Cli.maxPages o = 10
    end /\
    match Js.find (Cli.startsWith "--days=") args with
    | Some daysArg => reads_argument "--days=" daysArg (Cli.daysBack o)
    | None => Cli.daysBack o = 7
    end.
Proof.
  intros args o Hrun. unfold Cli.main in Hrun. cbv zeta in Hrun.
  assert (Hregion :
            forall r : option Z,
              r = (if existsb (String.eqb "--region-metropolitana") args
                   then Some 13 else None) ->
              r = None \/ r = Some 13).
  { intros r ->. destruct (existsb _ args); [right | left]; reflexivity. }
  destruct (Js.find (Cli.startsWith "--pages=") args) as [pagesArg |] eqn:Hp;
    destruct (Js.find (Cli.startsWith "--days=") args) as [daysArg |] eqn:Hd.
  - destruct (Cli.checked_value pagesArg 1 50) as [pv |] eqn:Hpv; [| discriminate].
    destruct (Cli.checked_value daysArg 1 90) as [dv |] eqn:Hdv; [| discriminate].
    injection Hrun as <-. unfold within_bounds.
    cbn [Cli.maxPages Cli.daysBack Cli.region].
    destruct (checked_pages _ _ _ (find_holds _ _ Hp) Hpv) as [Hb1 Hr1].
    destruct (checked_days _ _ _ (find_holds _ _ Hd) Hdv) as [Hb2 Hr2].
    split; [| split; assumption].
    split; [exact Hb1 |]. split; [exact Hb2 |]. apply Hregion. reflexivity.
  - destruct (Cli.checked_value pagesArg 1 50) as [pv |] eqn:Hpv; [| discriminate].
    injection Hrun as <-. unfold within_bounds.
    cbn [Cli.maxPages Cli.daysBack Cli.region].
    destruct (checked_pages _ _ _ (find_holds _ _ Hp) Hpv) as [Hb1 Hr1].
    split; [| split; [assumption | reflexivity]].
    split; [exact Hb1 |]. split; [lia |]. apply Hregion. reflexivity.
  - destruct (Cli.checked_value daysArg 1 90) as [dv |] eqn:Hdv; [| discriminate].
    injection Hrun as <-. unfold within_bounds.
    cbn [Cli.maxPages Cli.daysBack Cli.region].
    destruct (checked_days _ _ _ (find_holds _ _ Hd) Hdv) as [Hb2 Hr2].
    split; [| split; [reflexivity | assumption]].
    split; [lia |]. split; [exact Hb2 |]. apply Hregion. reflexivity.
  - injection Hrun as <-. unfold within_bounds.
    cbn [Cli.maxPages Cli.daysBack Cli.region].
    split; [| split; reflexivity].
    split; [lia |]. split; [lia |]. apply Hregion. reflexivity.
Qed.

Lemma leading_digits_all (s : string) :
  Cli.all_digits s = true -> Server.leading_digits s = s.
Proof.
  induction s as [| c s IH]; [reflexivity |]. cbn.
  intro H. apply andb_true_iff in H. destruct H as [Hc Hs].
  rewrite Hc, (IH Hs). reflexivity.
Qed.

Lemma digit_is_no_sign (c : ascii) :
  Enricher.is_digit c = true ->
  Ascii.eqb c "-" = false /\ Ascii.eqb c "+" = false.
Proof.
  intro H. split.
  - destruct (Ascii.eqb_spec c "-") as [-> |]; [discriminate | reflexivity].
  - destruct (Ascii.eqb_spec c "+") as [-> |]; [discriminate | reflexivity].
Qed.

Lemma parseInt_digits (raw : string) :
  Cli.is_digits raw = true ->
  Server.parseInt raw = Some (Cli.Number_of_digits raw).
Proof.
  unfold Cli.is_digits. intro H. apply andb_true_iff in H.
  destruct H as [Hne Hall].
  destruct raw as [| c rest]; [discriminate |].
  pose proof Hall as Hall'. cbn in Hall'. apply andb_true_iff in Hall'.
  destruct Hall' as [Hc _].
  unfold Server.parseInt. cbn [Enricher.skip_spaces].
  rewrite (digit_is_not_space _ Hc).
  destruct (digit_is_no_sign _ Hc) as [-> ->].
  rewrite (leading_digits_all _ Hall). cbn [Js.truthy_string].
  f_equal. lia.
Qed.

Lemma toBoundedInt_bounds (value : option string) (d lo hi : Z) :
  lo <= d <= hi -> lo <= Server.toBoundedInt value d lo hi <= hi.
Proof.
  intro Hd. unfold Server.toBoundedInt.
  destruct (Server.parseInt _) as [p |]; [| exact Hd].
  destruct (Z.ltb_spec p lo); [exact Hd |].
  destruct (Z.ltb_spec hi p); [exact Hd |]. cbn. lia.
Qed.

(** X18. The options the web form starts a run with are within the
    bounds of the command line, whatever the query holds: [toBoundedInt]
    gives a value between [min] and [max] whenever the default is.  On a
    value the command line accepts it gives the same number; an absent
    parameter gives the default. *)
Theorem run_options_are_within_bounds :
  (forall query : Server.Query, within_bounds (Server.run_options query))
  /\ (forall (value : option string) (d lo hi : Z),
        lo <= d <= hi -> lo <= Server.toBoundedInt value d lo hi <= hi)
  /\ (forall (raw : string) (d lo hi : Z),
        Cli.is_digits raw = true ->
        lo <= Cli.Number_of_digits raw <= hi ->
        Server.toBoundedInt (Some raw) d lo hi = Cli.Number_of_digits raw)
  /\ (forall d lo hi : Z, Server.toBoundedInt None d lo hi = d).
Proof.
  split; [| split; [| split]].
  - intro query. unfold within_bounds, Server.run_options.
    cbn [Cli.maxPages Cli.daysBack Cli.region].
    split; [apply toBoundedInt_bounds; lia |].
    split; [apply toBoundedInt_bounds; lia |].
    destruct (Server.toBoolean _ false); [right | left]; reflexivity.
  - exact toBoundedInt_bounds.
  - intros raw d lo hi Hd Hb.
    unfold Server.toBoundedInt. cbn [Server.String_of].
    rewrite (parseInt_digits _ Hd).
    destruct (Z.ltb_spec (Cli.Number_of_digits raw) lo); [lia |].
    destruct (Z.ltb_spec hi (Cli.Number_of_digits raw)); [lia |]. reflexivity.
  - intros d lo hi. reflexivity.
Qed.

Ltac by_ascii_cases c :=
  destruct c as [[] [] [] [] [] [] [] []]; try reflexivity; try discriminate.

Lemma all_chars_app (p : ascii -> bool) (s t : string) :
  Server.all_chars p (s ++ t) = Server.all_chars p s && Server.all_chars p t.
Proof.
  induction s as [| c s IH]; [reflexivity |].
  cbn. rewrite IH, andb_assoc. reflexivity.
Qed.

Lemma all_chars_impl (p q : ascii -> bool) (s : string) :
  (forall c : ascii, p c = true -> q c = true) ->
  Server.all_chars p s = true -> Server.all_chars q s = true.
Proof.
  intro Hpq. induction s as [| c s IH]; [reflexivity |].
  cbn. rewrite !andb_true_iff. intros [Hc Hs].
  split; [apply Hpq; exact Hc | apply IH; exact Hs].
Qed.

Lemma string_length_app (s t : string) :
  String.length (s ++ t) = (String.length s + String.length t)%nat.
Proof. induction s as [| c s IH]; [reflexivity |]. cbn. rewrite IH. reflexivity. Qed.

Lemma formatSseMessage_spec (n : nat) :
  forall message : string,
    (String.length message <= n)%nat ->
    Server.all_chars (is_not Server.LF) (Server.formatSseMessage message) = true /\
    (String.length (Server.formatSseMessage message)
     <= String.length message)%nat /\
    (Server.all_chars (is_not Server.LF) message = true ->
     Server.formatSseMessage message = message).
Proof.
  induction n as [| n IH]; intros message Hlen.
  - destruct message; [| cbn in Hlen; lia].
    split; [reflexivity |]. split; [apply Nat.le_refl | reflexivity].
  - destruct message as [| c rest].
    { split; [reflexivity |]. split; [apply Nat.le_refl | reflexivity]. }
    cbn [String.length] in Hlen.
    destruct (IH rest ltac:(lia)) as [Hno [Hle Hid]].
    cbn [Server.formatSseMessage].
    destruct (Ascii.eqb c Server.LF) eqn:Elf.
    { split; [exact Hno |]. split; [cbn; lia |].
      cbn [Server.all_chars]. unfold is_not at 1. rewrite Elf. discriminate. }
    assert (Hkeep :
              Server.all_chars (is_not Server.LF)
                (String c (Server.formatSseMessage rest)) = true /\
              (String.length (String c (Server.formatSseMessage rest))
               <= String.length (String c rest))%nat /\
              (Server.all_chars (is_not Server.LF) (String c rest) = true ->
               String c (Server.formatSseMessage rest) = String c rest)).
    { cbn [Server.all_chars String.length]. unfold is_not at 1 3.
      rewrite Elf. cbn [negb andb].
      split; [exact Hno |]. split; [lia |].
      intro H. rewrite (Hid H). reflexivity. }
    destruct (Ascii.eqb c Server.CR) eqn:Ecr; [| exact Hkeep].
    destruct rest as [| d rest']; [| destruct (Ascii.eqb d Server.LF) eqn:Edlf].
    + split; [cbn [Server.all_chars]; unfold is_not; rewrite Elf; reflexivity |].
      split; [apply Nat.le_refl | reflexivity].
    + cbn [String.length] in Hlen.
      destruct (IH rest' ltac:(lia)) as [Hno' [Hle' _]].
      split; [exact Hno' |]. split; [cbn; lia |].
      cbn [Server.all_chars]. unfold is_not at 2. rewrite Edlf.
      cbn [negb andb]. rewrite andb_false_r. discriminate.
    + exact Hkeep.
Qed.

(** X19. A message formatted by [formatSseMessage] holds no line feed.
    Formatting never makes a message longer and leaves a message without
    line feed as it is: in particular a carriage return that no line
    feed follows stays in the message. *)
Theorem formatSseMessage_leaves_no_line_feed :
  forall message : string,
    Server.all_chars (is_not Server.LF) (Server.formatSseMessage message) = true /\
    (String.length (Server.formatSseMessage message)
     <= String.length message)%nat /\
    (Server.all_chars (is_not Server.LF) message = true ->
     Server.formatSseMessage message = message) /\
    (forall before after : string,
       message = (before ++ String Server.CR after)%string ->
       Server.all_chars (is_not Server.LF) message = true ->
       Server.formatSseMessage message
       = (before ++ String Server.CR after)%string).
Proof.
  intro message.
  destruct (@formatSseMessage_spec (String.length message) message
              (Nat.le_refl _)) as [Hno [Hle Hid]].
  split; [exact Hno |]. split; [exact Hle |]. split; [exact Hid |].
  intros before after Hm Hlf. rewrite (Hid Hlf). exact Hm.
Qed.

(** *** File names *)

Lemma after_prefix_inv (p s rest : string) :
  Server.after_prefix p s = Some rest -> s = (p ++ rest)%string.
Proof.
  revert s. induction p as [| a p IH]; intros s H.
  - cbn in H. injection H as ->. reflexivity.
  - destruct s as [| b s]; [discriminate |]. cbn in H.
    destruct (Ascii.eqb_spec a b) as [-> |]; [| discriminate].
    rewrite (IH s H). reflexivity.
Qed.

Lemma after_prefix_app (p rest : string) :
  Server.after_prefix p (p ++ rest) = Some rest.
Proof.
  induction p as [| a p IH]; [reflexivity |].
  cbn. rewrite Ascii.eqb_refl. exact IH.
Qed.

Lemma endsWith_unfold (suffix s : string) :
  Server.endsWith suffix s
  = String.eqb s suffix
    || match s with
       | String _ rest => Server.endsWith suffix rest
       | EmptyString => false
       end.
Proof. destruct s; reflexivity. Qed.

Lemma endsWith_inv (suffix s : string) :
  Server.endsWith suffix s = true ->
  exists mid : string, s = (mid ++ suffix)%string.
Proof.
  induction s as [| c s IH]; rewrite endsWith_unfold; intro H;
    apply orb_true_iff in H; destruct H as [H | H].
  - apply String.eqb_eq in H. exists EmptyString. exact H.
  - discriminate.
  - apply String.eqb_eq in H. exists EmptyString. exact H.
  - destruct (IH H) as [mid ->]. exists (String c mid). reflexivity.
Qed.

Lemma endsWith_app (suffix mid : string) :
  Server.endsWith suffix (mid ++ suffix) = true.
Proof.
  induction mid as [| c mid IH]; rewrite endsWith_unfold.
  - cbn [append]. rewrite String.eqb_refl. reflexivity.
  - cbn [append]. rewrite IH. apply orb_true_r.
Qed.

Lemma name_char_is_dot_char (c : ascii) :
  Server.is_name_char c = true -> Server.is_dot_char c = true.
Proof. by_ascii_cases c. Qed.

Lemma name_char_is_no_slash (c : ascii) :
  Server.is_name_char c = true -> is_not "/" c = true.
Proof. by_ascii_cases c. Qed.

Lemma valid_filename_parts (filename : string) :
  Server.is_valid_filename filename = true ->
  Server.is_listed filename = true /\
  exists mid : string,
    mid <> EmptyString /\ Server.all_chars Server.is_name_char mid = true /\
    filename = ("compra-agil-" ++ mid ++ ".json")%string.
Proof.
  unfold Server.is_valid_filename, Server.is_listed.
  destruct (Server.after_prefix _ filename) as [rest |] eqn:Hp; [| discriminate].
  rewrite !andb_true_iff. intros [[Hend Hall] Hlen].
  split.
  - split; [exact Hend |].
    apply (all_chars_impl _ _ _ name_char_is_dot_char Hall).
  - apply after_prefix_inv in Hp. destruct (endsWith_inv _ _ Hend) as [mid ->].
    exists mid. rewrite all_chars_app, andb_true_iff in Hall.
    split; [| split; [apply Hall | exact Hp]].
    intros ->. cbn in Hlen. discriminate.
Qed.

Lemma valid_filename_intro (mid : string) :
  mid <> EmptyString ->
  Server.all_chars Server.is_name_char mid = true ->
  Server.is_valid_filename ("compra-agil-" ++ mid ++ ".json") = true.
Proof.
  intros Hne Hall. unfold Server.is_valid_filename.
  rewrite after_prefix_app, endsWith_app, all_chars_app, Hall.
  cbn [andb]. rewrite string_length_app.
  destruct mid as [| a mid]; [congruence |].
  apply andb_true_iff. split; [reflexivity |].
  apply Nat.ltb_lt. cbn. lia.
Qed.

(** X20. A file name that [/api/results/file/:filename] accepts is made
    of letters, digits, [.], [_] and [-] only, so that it holds no path
    separator; it is [compra-agil-], a non-empty middle part and
    [.json]; and [/api/results/files] lists every file of such a name. *)
Theorem valid_filename_is_a_plain_listed_name :
  forall filename : string,
    Server.is_valid_filename filename = true ->
    Server.all_chars Server.is_name_char filename = true /\
    Server.all_chars (is_not "/") filename = true /\
    Server.is_listed filename = true /\
    exists mid : string,
      mid <> EmptyString /\
      filename = ("compra-agil-" ++ mid ++ ".json")%string.
Proof.
  intros filename Hv.
  destruct (valid_filename_parts _ Hv) as [Hl [mid [Hne [Hall ->]]]].
  assert (Hname : Server.all_chars Server.is_name_char
                    ("compra-agil-" ++ mid ++ ".json") = true).
  { rewrite !all_chars_app, Hall. reflexivity. }
  split; [exact Hname |].
  split; [apply (all_chars_impl _ _ _ name_char_is_no_slash Hname) |].
  split; [exact Hl |]. exists mid. split; [exact Hne | reflexivity].
Qed.

(** *** The files of a run, as the server sees them *)

Lemma all_chars_replace_all (p q : ascii -> bool) (a b : ascii) (s : string) :
  (forall c : ascii, p c = true -> q (if Ascii.eqb c a then b else c) = true) ->
  Server.all_chars p s = true ->
  Server.all_chars q (Cli.replace_all a b s) = true.
Proof.
  intro Hpq. induction s as [| c s IH]; [reflexivity |].
  cbn. rewrite !andb_true_iff. intros [Hc Hs].
  split; [apply Hpq; exact Hc | apply IH; exact Hs].
Qed.

Lemma all_chars_replace_first (q : ascii -> bool) (a b : ascii) (s : string) :
  q b = true ->
  Server.all_chars q s = true ->
  Server.all_chars q (Cli.replace_first a b s) = true.
Proof.
  intro Hb. induction s as [| c s IH]; [reflexivity |].
  cbn. rewrite andb_true_iff. intros [Hc Hs].
  destruct (Ascii.eqb c a); cbn [Server.all_chars]; apply andb_true_iff.
  - split; [exact Hb | exact Hs].
  - split; [exact Hc | apply IH; exact Hs].
Qed.

Lemma all_chars_split_first (q : ascii -> bool) (c : ascii) (s : string) :
  Server.all_chars q s = true ->
  match Js.split c s with
  | first :: _ =>
      Server.all_chars q first = true /\ Server.all_chars (is_not c) first = true
  | [] => True
  end.
Proof.
  induction s as [| a rest IH]; intro H.
  - split; reflexivity.
  - cbn in H. apply andb_true_iff in H. destruct H as [Ha Hrest].
    cbn [Js.split]. destruct (Ascii.eqb a c) eqn:Hac.
    + split; reflexivity.
    + specialize (IH Hrest). destruct (Js.split c rest) as [| first others].
      * cbn. unfold is_not. rewrite Ha, Hac. split; reflexivity.
      * destruct IH as [H1 H2]. cbn. unfold is_not at 1.
        rewrite Ha, Hac, H1, H2. split; reflexivity.
Qed.

(** The time stamp of a file name is made of digits, [-], [_], [T] and
    [Z]. *)
Lemma timestamp_chars (iso : string) :
  Server.all_chars is_iso_char iso = true ->
  Server.all_chars is_stamp_char (Cli.timestamp iso) = true.
Proof.
  intro Hiso. unfold Cli.timestamp.
  set (q := fun c : ascii => is_stamp_char c || Ascii.eqb c ".").
  assert (H1 : Server.all_chars q (Cli.replace_all ":" "-" iso) = true).
  { apply (@all_chars_replace_all is_iso_char q); [| exact Hiso].
    intro c. unfold q. by_ascii_cases c. }
  assert (H2 : Server.all_chars q
                 (Cli.replace_first "T" "_" (Cli.replace_all ":" "-" iso)) = true).
  { apply all_chars_replace_first; [reflexivity | exact H1]. }
  pose proof (all_chars_split_first q "." _ H2) as H3.
  destruct (Js.split "." _) as [| first others]; [reflexivity |].
  destruct H3 as [Hq Hdot].
  clear - Hq Hdot. induction first as [| c first IH]; [reflexivity |].
  cbn in Hq, Hdot |- *. apply andb_true_iff in Hq, Hdot.
  destruct Hq as [Hc Hq]. destruct Hdot as [Hd Hdot].
  rewrite (IH Hq Hdot), andb_true_r.
  unfold q in Hc. unfold is_not in Hd.
  destruct (Ascii.eqb c "."); [discriminate |].
  rewrite orb_false_r in Hc. exact Hc.
Qed.

Lemma stamp_char_is_name_char (c : ascii) :
  is_stamp_char c = true -> Server.is_name_char c = true.
Proof. by_ascii_cases c. Qed.

Lemma includes_unfold (sub s : string) :
  Server.includes sub s
  = Cli.startsWith sub s
    || match s with
       | String _ rest => Server.includes sub rest
       | EmptyString => false
       end.
Proof. destruct s; reflexivity. Qed.

Lemma includes_app (sub p t : string) :
  Server.includes sub (p ++ (sub ++ t)) = true.
Proof.
  induction p as [| c p IH]; rewrite includes_unfold.
  - cbn [append]. rewrite startsWith_app. reflexivity.
  - cbn [append]. rewrite IH. apply orb_true_r.
Qed.

Lemma includes_dash_false (x : ascii) (tail s : string) :
  dash_never_before x s = true ->
  Server.includes (String "-" (String x tail)) s = false.
Proof.
  induction s as [| a rest IH]; intro H; rewrite includes_unfold.
  - reflexivity.
  - cbn [dash_never_before] in H. apply andb_true_iff in H.
    destruct H as [Hhere Hrest]. rewrite (IH Hrest), orb_false_r.
    cbn [Cli.startsWith]. rewrite (Ascii.eqb_sym "-"%char a).
    destruct (Ascii.eqb a "-"); [| reflexivity]. cbn [andb negb] in *.
    destruct rest as [| b rest']; [reflexivity |].
    cbn [Cli.startsWith]. rewrite (Ascii.eqb_sym x b).
    destruct (Ascii.eqb b x); [discriminate | reflexivity].
Qed.

Lemma dash_never_before_overlap (x c : ascii) (p t : string) :
  dash_never_before x (p ++ String c EmptyString) = true ->
  dash_never_before x (String c t) = true ->
  dash_never_before x (p ++ String c t) = true.
Proof.
  intros Hp Ht. induction p as [| a p IH]; [exact Ht |].
  cbn [append dash_never_before] in Hp |- *.
  apply andb_true_iff in Hp. destruct Hp as [Hhere Hrest].
  rewrite (IH Hrest), andb_true_r.
  destruct p; exact Hhere.
Qed.

Lemma dash_never_before_stamp (x : ascii) (ts : string) :
  is_stamp_char x = false -> Ascii.eqb "." x = false ->
  dash_never_before x ".json" = true ->
  Server.all_chars is_stamp_char ts = true ->
  forall c : ascii, dash_never_before x (String c (ts ++ ".json")) = true.
Proof.
  intros Hx Hdot Hjson. induction ts as [| d ts IH]; intros Hts c.
  - cbn [append]. cbn [dash_never_before] in Hjson |- *.
    rewrite Hdot, andb_false_r. exact Hjson.
  - cbn in Hts. apply andb_true_iff in Hts. destruct Hts as [Hd Hts].
    cbn [append]. cbn [dash_never_before]. fold (dash_never_before x).
    assert (Hdx : Ascii.eqb d x = false).
    { destruct (Ascii.eqb_spec d x) as [-> |]; [congruence | reflexivity]. }
    rewrite Hdx, andb_false_r. cbn [negb andb].
    exact (IH Hts d).
Qed.

(** A file name that ends in [-], a time stamp and [.json], after a
    part [p] in which no [-] comes before [x], has no [-] before [x]. *)
Lemma no_dash_before_in_name (x : ascii) (p ts : string) :
  is_stamp_char x = false -> Ascii.eqb "." x = false ->
  dash_never_before x ".json" = true ->
  dash_never_before x (p ++ "-") = true ->
  Server.all_chars is_stamp_char ts = true ->
  dash_never_before x (p ++ String "-" (ts ++ ".json")) = true.
Proof.
  intros Hx Hdot Hjson Hp Hts.
  apply dash_never_before_overlap; [exact Hp |].
  apply dash_never_before_stamp; assumption.
Qed.

Lemma region_13_suffix : Cli.regionSuffix (Some 13) = "-region13".
Proof. reflexivity. Qed.

Section ResultFiles.

Variable ts : string.
Hypothesis ts_chars : Server.all_chars is_stamp_char ts = true.
Hypothesis ts_not_empty : ts <> EmptyString.

Lemma name_is_valid (m : string) :
  Server.all_chars Server.is_name_char m = true ->
  Server.is_valid_filename ("compra-agil-" ++ (m ++ ts) ++ ".json") = true.
Proof.
  intro Hm. apply valid_filename_intro.
  - destruct m; [exact ts_not_empty | discriminate].
  - rewrite all_chars_app, Hm.
    apply (all_chars_impl _ _ _ stamp_char_is_name_char ts_chars).
Qed.

Lemma name_lacks (x : ascii) (tail p : string) :
  is_stamp_char x = false -> Ascii.eqb "." x = false ->
  dash_never_before x ".json" = true ->
  dash_never_before x (p ++ "-") = true ->
  Server.includes (String "-" (String x tail)) (p ++ String "-" (ts ++ ".json"))
  = false.
Proof.
  intros Hx Hdot Hjson Hp. apply includes_dash_false.
  apply no_dash_before_in_name; assumption.
Qed.

(** The names of the three files for a suffix [sfx] made of the region
    and rubros parts. *)
Lemma files_of_suffix (sfx : string) :
  sfx = EmptyString \/ sfx = "-region13" \/ sfx = "-misrubros"
  \/ sfx = "-region13-misrubros" ->
  let full := ("compra-agil" ++ sfx ++ "-" ++ ts ++ ".json")%string in
  let summary := ("compra-agil-summary" ++ sfx ++ "-" ++ ts ++ ".json")%string in
  let enriched := ("compra-agil-enriched" ++ sfx ++ "-" ++ ts ++ ".json")%string in
  (Server.is_valid_filename full = true /\
   Server.classifyResultType full = Server.full) /\
  (Server.is_valid_filename summary = true /\
   Server.classifyResultType summary = Server.summary) /\
  (Server.is_valid_filename enriched = true /\
   Server.classifyResultType enriched = Server.enriched).
Proof.
  intros Hsfx. cbv zeta. unfold Server.classifyResultType.
  assert (Hvalid : forall kind : string,
             kind = EmptyString \/ kind = "-summary" \/ kind = "-enriched" ->
             Server.is_valid_filename
               ("compra-agil" ++ kind ++ sfx ++ "-" ++ ts ++ ".json") = true).
  { intros kind Hkind.
    destruct Hkind as [-> | [-> | ->]];
      destruct Hsfx as [-> | [-> | [-> | ->]]];
      match goal with
      | |- Server.is_valid_filename
             ("compra-agil" ++ ?k ++ ?s ++ "-" ++ ts ++ ".json")%string = true =>
          let m := eval cbv in
            (match (k ++ s ++ "-")%string with
             | String _ r => r | EmptyString => EmptyString end) in
          replace ("compra-agil" ++ k ++ s ++ "-" ++ ts ++ ".json")%string
            with ("compra-agil-" ++ (m ++ ts) ++ ".json")%string by reflexivity;
          apply name_is_valid; reflexivity
      end. }
  assert (Hlacks : forall (x : ascii) (tail p : string),
             is_stamp_char x = false -> Ascii.eqb "." x = false ->
             dash_never_before x ".json" = true ->
             dash_never_before x (p ++ sfx ++ "-") = true ->
             Server.includes (String "-" (String x tail))
               (p ++ sfx ++ "-" ++ ts ++ ".json") = false).
  { intros x tail p Hx Hdot Hjson Hp.
    replace (p ++ sfx ++ "-" ++ ts ++ ".json")%string
      with ((p ++ sfx) ++ String "-" (ts ++ ".json"))%string
      by (rewrite !string_app_assoc; reflexivity).
    apply name_lacks; try assumption.
    rewrite !string_app_assoc. exact Hp. }
  assert (He : forall p : string,
             p = "compra-agil" \/ p = "compra-agil-summary" ->
             dash_never_before "e" (p ++ sfx ++ "-") = true).
  { intros p [-> | ->]; destruct Hsfx as [-> | [-> | [-> | ->]]]; reflexivity. }
  assert (Hs : dash_never_before "s" ("compra-agil" ++ sfx ++ "-") = true).
  { destruct Hsfx as [-> | [-> | [-> | ->]]]; reflexivity. }
  split; [| split].
  - split; [apply (Hvalid EmptyString); left; reflexivity |].
    rewrite (Hlacks "e"%char "nriched" "compra-agil" eq_refl eq_refl eq_refl
               (He _ (or_introl eq_refl))).
    rewrite (Hlacks "s"%char "ummary" "compra-agil" eq_refl eq_refl eq_refl Hs).
    reflexivity.
  - split; [apply (Hvalid "-summary"); right; left; reflexivity |].
    rewrite (Hlacks "e"%char "nriched" "compra-agil-summary" eq_refl eq_refl
               eq_refl (He _ (or_intror eq_refl))).
    replace ("compra-agil-summary" ++ sfx ++ "-" ++ ts ++ ".json")%string
      with ("compra-agil" ++ ("-summary" ++ (sfx ++ "-" ++ ts ++ ".json")))%string
      by reflexivity.
    rewrite includes_app. reflexivity.
  - split; [apply (Hvalid "-enriched"); right; right; reflexivity |].
    replace ("compra-agil-enriched" ++ sfx ++ "-" ++ ts ++ ".json")%string
      with ("compra-agil" ++ ("-enriched" ++ (sfx ++ "-" ++ ts ++ ".json")))%string
      by reflexivity.
    rewrite includes_app. reflexivity.
Qed.

End ResultFiles.

(** X21. The three files a run of [scrape] writes for region 13 or no
    region, with a time stamp taken from a text of digits, [-], [:],
    [T], [.] and [Z], are files the server serves: each name passes the
    check of [/api/results/file/:filename], and [classifyResultType]
    gives [full] for the data file, [summary] for the summary and
    [enriched] for the enriched file. *)
Theorem result_files_are_served_under_their_type :
  forall (region : option Z) (misRubros : bool) (iso : string),
    region = None \/ region = Some 13 ->
    Server.all_chars is_iso_char iso = true ->
    Cli.timestamp iso <> EmptyString ->
    (Server.is_valid_filename (Cli.filename region misRubros iso) = true /\
     Server.classifyResultType (Cli.filename region misRubros iso)
     = Server.full) /\
    (Server.is_valid_filename (Cli.summaryFile region misRubros iso) = true /\
     Server.classifyResultType (Cli.summaryFile region misRubros iso)
     = Server.summary) /\
    (Server.is_valid_filename (Cli.enrichedFile region misRubros iso) = true /\
     Server.classifyResultType (Cli.enrichedFile region misRubros iso)
     = Server.enriched).
Proof.
  intros region misRubros iso Hregion Hiso Hne.
  pose proof (timestamp_chars _ Hiso) as Hts.
  unfold Cli.filename, Cli.summaryFile, Cli.enrichedFile.
  assert (Hsfx : exists sfx : string,
             (sfx = EmptyString \/ sfx = "-region13" \/ sfx = "-misrubros"
              \/ sfx = "-region13-misrubros") /\
             forall rest : string,
               (Cli.regionSuffix region ++ Cli.rubrosSuffix misRubros ++ rest
                = sfx ++ rest)%string).
  { destruct Hregion as [-> | ->]; destruct misRubros.
    - exists "-misrubros"%string. split; [right; right; left; reflexivity |].
      intro rest. reflexivity.
    - exists EmptyString. split; [left; reflexivity |].
      intro rest. reflexivity.
    - exists "-region13-misrubros"%string.
      split; [right; right; right; reflexivity |].
      intro rest. rewrite region_13_suffix. reflexivity.
    - exists "-region13"%string. split; [right; left; reflexivity |].
      intro rest. rewrite region_13_suffix. reflexivity. }
  destruct Hsfx as [sfx [Hcase Heq]].
  rewrite !Heq.
  exact (@files_of_suffix (Cli.timestamp iso) Hts Hne sfx Hcase).
Qed.

(* ===================================================================== *)
(** * The further properties on concrete runs                             *)
(* ===================================================================== *)


(** X3 on a bundle with an expired token and a server that renews it. *)
Lemma getValidToken_renews_stale_world :
  fst (TokenManager.getValidToken (RT := demo_runtime) renewing_remote stale_world)
  = Returned token_5000.
Proof.
  destruct (@getValidToken_refresh_updates_bundle demo_runtime renewing_remote
              stale_world
              (mkSession [demo_cookie "access_token_ccr" token_900 (Some (-1)%Q);
                          demo_cookie "refresh_token" "r1" (Some (-1)%Q)])
              (demo_cookie "refresh_token" "r1" (Some (-1)%Q)) "{...}"
              (mkTokenPayload (Some token_5000) (Some "r2") (Some 4000%Q) None)
              token_5000) as [cs' [Hrun _]].
  - reflexivity.
  - intros [_ [r [Hr Hlt]]]. vm_compute in Hr. injection Hr as <-.
    vm_compute in Hlt. discriminate.
  - reflexivity.
  - discriminate.
  - reflexivity.
  - reflexivity.
  - discriminate.
  - rewrite Hrun. reflexivity.
Defined.

(** X4 on the same run: the renewed token is returned again without a
    request. *)
Lemma getValidToken_reuses_renewed_token :
  let w1 := snd (TokenManager.getValidToken (RT := demo_runtime) renewing_remote
                   stale_world) in
  TokenManager.getValidToken (RT := demo_runtime) renewing_remote w1
  = (Returned token_5000, w1).
Proof.
  cbv zeta.
  apply (@getValidToken_reuses_refreshed_token demo_runtime renewing_remote
           stale_world _ token_5000 5000%Q).
  - vm_compute. reflexivity.
  - reflexivity.
  - intro H. vm_compute in H. discriminate.
  - vm_compute. reflexivity.
Defined.

(** X6 on the fresh bundle, one second later. *)
Lemma fresh_world_has_min_validity :
  has_min_validity (RT := demo_runtime) fresh_world.
Proof.
  apply (@token_validity_only_decreases demo_runtime fresh_world 1000).
  - lia.
  - split; [reflexivity |]. exists 3999%Q.
    split; [vm_compute; reflexivity | vm_compute; reflexivity].
Defined.

(** X9 on two listings and the default concurrency. *)
Lemma two_listings_make_one_window :
  List.concat
    (List.map (fun start => Js.slice start (start + 5) [listing_A; listing_B])
              (for_steps 2 5))
  = [listing_A; listing_B].
Proof.
  apply (@windows_split_the_items 5 [listing_A; listing_B]). lia.
Defined.

(** X11 on the server that answers 503 twice. *)
Lemma fetchOpportunities_flaky_within_three :
  exists (n : nat) (w' : World),
    Z.of_nat n < 3 /\
    Scraper.fetchOpportunities (RT := demo_runtime) flaky_remote 1 fresh_world
    = (Scraper.search_outcome (search_api flaky_remote 1 n), w').
Proof.
  destruct (@fetchOpportunities_ends_within_maxAttempts demo_runtime flaky_remote
              1 fresh_world fresh_world token_5000) as [Hrun _].
  - reflexivity.
  - destruct Hrun as [n [w' [Hn [Hrun _]]]].
    + cbn. lia.
    + exists n, w'. split; [exact Hn | exact Hrun].
Defined.

(** X12 on the run in which the first of two listings gets a 401. *)
Lemma enrichOpportunities_keeps_listing_B :
  exists kept : list Opportunity,
    subsequence kept [listing_A; listing_B] /\
    details_of [Enricher.mapDetail listing_B demo_detail] kept.
Proof.
  apply (@enrichOpportunities_returns_details_of_eligible_listings demo_runtime
           detail_401_remote [listing_A; listing_B] Enricher.no_options
           fresh_world
           (snd (Enricher.enrichOpportunities (RT := demo_runtime)
                   detail_401_remote [listing_A; listing_B] Enricher.no_options
                   fresh_world))
           [Enricher.mapDetail listing_B demo_detail]).
  vm_compute. reflexivity.
Defined.

(** X13 on the crawl of the server with three pages. *)
Lemma scrape_paged_remote_asks_in_order :
  let run := Scraper.scrape (RT := demo_runtime) paged_remote 10 false
               fresh_world in
  exists evs : list Event,
    trace (snd run) = trace fresh_world ++ evs /\
    climbs 0 (searched_pages evs) /\
    Forall (fun p => 1 <= p <= 10) (searched_pages evs).
Proof.
  cbv zeta.
  apply (@scrape_asks_pages_in_order_up_to_maxPages demo_runtime paged_remote 10
           false fresh_world _
           (fst (Scraper.scrape (RT := demo_runtime) paged_remote 10 false
                   fresh_world))).
  vm_compute. reflexivity.
Defined.


(** X15 on signals of 1 and 48 hours, in both orders: the level for
    the first order is not more severe than for the second. *)
Lemma classify_order_does_not_improve :
  (severity
     (SessionMonitor.level
        (SessionMonitor.classify SessionMonitor.default_WARN_HOURS
           SessionMonitor.default_CRIT_HOURS [Some 1%Q; Some 48%Q]))
   <= severity
        (SessionMonitor.level
           (SessionMonitor.classify SessionMonitor.default_WARN_HOURS
              SessionMonitor.default_CRIT_HOURS [Some 48%Q; Some 1%Q])))%nat.
Proof.
  apply (@classify_level_is_monotone SessionMonitor.default_WARN_HOURS
           SessionMonitor.default_CRIT_HOURS [Some 1%Q; Some 48%Q]
           [Some 48%Q; Some 1%Q]).
  - exists 1%Q. left. reflexivity.
  - intros x [Hx | [Hx | []]]; injection Hx as <-.
    + exists 1%Q. split; [right; left; reflexivity | discriminate].
    + exists 48%Q. split; [left; reflexivity | discriminate].
Defined.


(** On a [session.json] that holds [null] the monitor gives no verdict
    and exits with code 1, while [getValidToken] reports the bundle as
    one that needs a new login. *)
Lemma monitor_on_null_session :
  let w := mkWorld 1000000 HoldsNull Scraper.new_CompraAgilScraper [] in
  SessionMonitor.exit_code
    (fst (SessionMonitor.main (RT := demo_runtime) unauthorized_remote
            SessionMonitor.default_WARN_HOURS SessionMonitor.default_CRIT_HOURS
            true w)) = 1 /\
  Scraper.exit_code
    (fst (TokenManager.getValidToken (RT := demo_runtime) unauthorized_remote w))
  = 2.
Proof. cbv zeta. split; reflexivity. Qed.

(** An [expires] of the [KEYCLOAK_SESSION] cookie that is stored as the
    text of a number is a signal like the number itself, since the
    monitor reads it through [Number(...)]; a text that is no number
    gives none. *)
Lemma hSession_of_reads_expires_through_Number :
  let cookie := fun e =>
    mkCookie "KEYCLOAK_SESSION" "v" "heimdall.mercadopublico.cl" "/" true true
             "Lax" e in
  let w := demo_world [] in
  SessionMonitor.hSession_of [cookie (NotFinite true (Some 90000%Q))] w
  = SessionMonitor.hSession_of [cookie (Finite 90000%Q)] w /\
  SessionMonitor.hSession_of [cookie (Finite 90000%Q)] w
  = Some ((90000 - SessionMonitor.now_seconds w) / 3600)%Q /\
  SessionMonitor.hSession_of [cookie (NotFinite true None)] w = None /\
  SessionMonitor.hSession_of [cookie absent] w = None.
Proof. cbv zeta. repeat split; reflexivity. Qed.

(** X17 on a command line that asks for five pages. *)
Lemma cli_five_pages_within_bounds :
  within_bounds (Cli.mkOptions None false true 5 7).
Proof.
  apply (@cli_main_runs_within_bounds ["--pages=5"%string; "--enrich"%string]).
  reflexivity.
Defined.

(** X20 on the name of a data file. *)
Lemma data_file_name_is_listed :
  Server.is_listed "compra-agil-2026-11-03_10-16-40.json" = true.
Proof.
  apply (@valid_filename_is_a_plain_listed_name
           "compra-agil-2026-11-03_10-16-40.json").
  reflexivity.
Defined.

(** X21 on a run without region filter. *)
Lemma data_file_is_served_as_full :
  Server.classifyResultType (Cli.filename None false demo_iso) = Server.full.
Proof.
  apply (@result_files_are_served_under_their_type None false demo_iso).
  - left; reflexivity.
  - reflexivity.
  - vm_compute. discriminate.
Defined.
